(* ===== verification/_CoqProject ===== *)
-Q . S2P
Prelude.v
Fuel.v
Lucid.v
Types.v
Utils.v
CreateShip.v
Hex.v
Cbor.v
LucidRef.v
Chain.v
Pool.v
Asteria.v
Interleave.v
System.v
Scenario.v
