(* ===== verification/Prelude.v ===== *)
(** * asteria-bot-lucid: a verification development

    The repository builds and submits one kind of Cardano transaction,
    "create ship", for the Asteria game, with the Lucid off-chain library.
    Its sources are [src/transactions/utils.ts] (provider set-up, the
    reference-script resolver, a JSON writer and the fuel arithmetic) and
    [src/transactions/create-ship.ts] (the transaction builder
    [createShip]).  The builder reads the Asteria UTxO, which holds a
    counter and an admin token, and builds one transaction that spends
    it, pays it back with the counter incremented and the fee added,
    mints a ship token and a pilot token named after the counter, and
    creates the ship's own UTxO at the Spacetime address; it then has the
    transaction signed and submits it.

    ** How the program is modelled

    The sources are asynchronous JavaScript over a library and a remote
    provider.  A value that may be [undefined] is an [option]; a [bigint]
    is a [Z] (it has no width, nothing wraps); an object used as a map
    from asset units to quantities is a [gmap string Z]; a thrown
    exception is a value of [error] and a computation that may throw is a
    [result].  A function that awaits calls is a program of type [prog]
    (file [Lucid]): a tree whose nodes are the calls ([request]) and whose
    branches are indexed by the answers, a value or a rejection.  The
    relation [runs p t r] says that the list of calls and answers [t] is
    an execution of [p] ending in [r]; the theorems about [createShip]
    quantify over every [t], that is over every behaviour of the
    environment, the provider and the wallet.  [run] executes a program
    against a handler and [accepts] decides [runs], so the examples are
    checked by evaluation.  Programs are finite trees and every run of
    [createShip] has at most ten calls ([createShip_calls]).

    The pure functions of Lucid that the sources call are the class
    [LucidLib]; what the sources rely on is [LucidLaws] (units are
    unambiguous and never [lovelace], text encoding is injective, the
    codec reads back what it writes).  The theorems of [CreateShip] are
    proved against the interface; [LucidRef] discharges it with an
    instance that computes.

    ** Files

    - [Prelude] (this file): exceptions, results and their monad,
      JavaScript's falsy test ([Falsy], [truthy_or]), [bigint] addition
      with [undefined], the hint database [asteria], the tactics
      [inv_result] and [case_result], and lemmas on strings.
    - [Fuel]: [abs], [distance], [required_fuel] of [utils.ts]
      (lines 23, 40-46).  [distance] is the Manhattan norm
      ([distance_norm]) and induces a metric on positions; a detour never
      saves fuel ([trip_fuel_detour]); nothing checks signs
      ([required_fuel_neg]).
    - [Lucid]: the library interface: the data ([OutRef], [Script],
      [UTxO], [Data]), [LucidLib] and [LucidLaws], a transaction under
      construction as the list of builder calls ([Tx], [readFrom],
      [mintAssets], [collectFrom], [payToContract]), the calls and
      programs ([request], [prog], [runs], [run], [accepts]) with their
      adequacy lemmas ([run_runs], [runs_run], [accepts_runs],
      [runs_det]) and the tactics that execute a program symbolically
      ([runs_Ok], [runs_all]).
    - [Types]: the datum schemas of [./types.ts], which is imported by
      the builder and is not among the sources: the three records and
      their casts to and from [Data].
    - [Utils]: [lucidBase] (lines 3-12), [writeJson] (14-21) and
      [fetchReferenceScript] (25-38) of [utils.ts] as programs, each with
      the characterisation of all its executions.
    - [CreateShip]: [createShip] (lines 19-130 of [create-ship.ts]): one
      definition per [const] of lines 59-97, [createShipTx] for the
      builder chain of lines 98-124, and the function itself.  The
      theorems: the successful runs exactly ([createShip_Ok]); what such
      a run built: the counter incremented by one, the fee added, one
      ship and one pilot token minted with the names of the counter
      read, the ship output ([createShip_increments_counter],
      [createShip_mints], [createShip_ship_output]); the failures: the
      missing seed, a reference without its script, the Asteria UTxO
      without its datum, rejections propagated unchanged, a
      transaction submitted exactly when the run returns, the list of
      exceptions a run can end with ([missing_seed_aborts],
      [missing_script_aborts], [missing_datum_aborts],
      [rejection_propagates], [submits_iff_returns],
      [createShip_errors]); that names are
      unique across counters ([ship_tokens_unique]); what the
      transaction leaves to the wallet, the pilot token among it
      ([createShip_value_flow]); when it is well formed
      ([createShip_well_formed]); and that the datums written decode
      to the records they were made from ([datums_roundtrip]).
    - [Hex]: [toHex] and [fromHex] with their round trips.
    - [Cbor]: a CBOR codec for Plutus data, with the round trip
      [decode_encode] and well-formedness of what is read ([decode_wf]).
    - [LucidRef]: the reference instance of [LucidLib] and the proof of
      [LucidLaws]; the bounds the 32 bytes of an asset name put on the
      counter ([shipTokenUnit_ref], [pilotTokenUnit_ref]) and the bytes
      of the Asteria datum ([asteriaOutputDatum_ref]).
    - [Chain]: a provider to run against, modelled from the
      specification: a [World] of unspent outputs that the lookups read
      and [submit] changes.  The handler [node] answers every call;
      [apply_tx] applies a transaction atomically when all it spends and
      refers to is unspent and rejects it otherwise.  The theorems: a
      run against the handler is the execution it serves
      ([run_serves]), applying keeps output references unique
      ([after_wf]), what is spent is gone ([spent_gone],
      [double_spend]), and only an accepted [submit] changes the chain
      ([serves_quiet]).
    - [Asteria]: the protocol of the specification's data model: the
      abstract [State] (counter, balance, ships) with its one
      transition [create], and [represents], which says when a chain
      holds such a state for a [Deployment].  The theorems relate the
      builder to it: one run is one step ([createShip_refines]), [n]
      runs are [n] steps ([createShip_iterates]), the ships keep
      different tokens ([ships_distinct]), a run changes the chain at
      most once and as a whole ([createShip_atomic]), and of two runs
      that race for the same Asteria UTxO the first to submit wins and
      the other is rejected ([createShip_race]).  A chain holds at most
      one state ([represents_unique]).
    - [Pool]: several programs against one handler.  A JavaScript
      function is interrupted only at an [await], so a pool of runs
      executes one call per turn: [run_pool] runs a list of programs
      under a schedule (which program makes its next call) and records
      the calls, each tagged with its program.  The theorems connect
      the pool to its programs ([run_pool_serves], [run_pool_follows],
      [run_pool_finished]) and to [run] ([run_pool_turns]); a program
      that made some of its calls can make the rest
      ([follows_completes]), and [n] programs of at most [k] calls make
      at most [k * n] together ([threads_length]).
    - [Interleave]: any number of runs of [createShip], each with its
      own arguments ([Order]), against one node, in any order of their
      calls.  The chain ends holding the state after the steps of the
      runs that won ([createShip_interleaved], [interleaved_counter]);
      the interleaving is equivalent to the winners running in
      sequence ([interleaving_serializable], [pool_serializable]); some
      run wins ([some_run_wins]); a run that loses has lost to a double
      spend ([losers_double_spend]); a run returns exactly when it won
      ([winners_returned]); every run ends within ten turns
      ([pool_terminates]); all of it for a pool under a fair schedule
      ([pool_outcome]); and without contention every run wins
      ([pool_in_turn]).
    - [System]: the invocations and the chain as a transition system.
      A configuration ([Config]) is the chain and the runs that were
      started, each with its order and what is left of its program; a
      step ([step], an inductive relation) starts a run for an order or
      lets one run pass one [await].  [run_system] executes a list of
      actions and describes the same executions as the relation
      ([system_executable]); the pool of [Pool] is the system with its
      runs started ([run_system_pool]).  The invariant [Inv] is kept by
      every step ([inv_step]), and a step of the system is a step of
      the protocol or none ([step_simulates]).  The theorems hold at
      every moment, for runs that have ended, runs between two calls
      and runs that never take another turn: the chain holds the state
      after the accepted orders ([system_refines]), the counter never
      goes back ([counter_monotone]), a pool stopped anywhere has left
      the state of its winners ([pool_at_any_moment]), there are at
      most ten calls for each run ([calls_bounded]), and ten turns for
      each run end them all from wherever they are
      ([system_terminates]).
    - [Scenario]: a concrete chain with the counter at 5, the runs of
      [createShip] against the node in it (one run, runs in sequence, a
      race, a pool of two under a schedule, a pool that is stopped, the
      system with a run that is killed, the runs that fail), and the
      theorems of the other files applied to these runs.

    ** Bounds and fuel

    Programs are finite trees: [run] and [run_pool] are structural and
    need no fuel.  The bound of ten turns per run in [pool_terminates]
    and [pool_outcome] is the number of calls of the longest execution
    of [createShip] ([createShip_ends_within], [createShip_calls]); a
    run that fails earlier needs fewer, and turns given to a run that
    has ended are lost.  The same bound, for executions that need not
    be complete, is [calls_bounded]; [steps] and [run_system] take
    lists of any length.  The CBOR reader [decode] takes fuel for the
    nesting depth, and the length of the input is enough
    ([decode_all]).  Integers are [Z]: a [bigint] does not wrap.  The
    32 bytes of an asset name bound the counter ([shipTokenUnit_ref],
    [pilotTokenUnit_ref]); the theorems on chains ask that the units of
    the ships to come can be minted ([mintable]).

    ** What is not modelled

    In [CreateShip] and [Utils] the provider, the wallet and the chain
    are arbitrary: every theorem there holds for all their answers.  The
    node of [Chain] checks that inputs are unspent and nothing else: no
    signatures, fees, balancing or script evaluation, so it accepts
    transactions a real node would refuse, and the refinement theorems
    say what the builder does on a chain that lets it.  Inside Lucid,
    [complete] (coin selection, fees, script evaluation) and the two
    hashes (Blake2b, Bech32) are not modelled: [complete] returns the
    transaction as built, the hashes are functions the theorems assume
    nothing about beyond [represents].  What [complete] has to balance
    is stated on the calls ([tx_surplus], [createShip_value_flow]); the
    wallet's own outputs are not on the chain of [Chain].
    [well_formed] holds the rules that can be read off the builder
    calls; the minimum lovelace by size, collateral and execution units
    are not among them.  The validators of Asteria and Spacetime and
    the other transitions of the game are not in the repository.  The
    runs of a pool share one process environment, and a chain never
    rolls back.  In [System] a run that stops is one that takes no more
    turns: it stops between two calls, or after a call whose answer it
    never uses; a request that the node serves twice, or that is lost
    on its way, is not an execution of the model.  [distance] and [required_fuel] are called by nothing
    in the repository, so no theorem relates them to the fuel of a
    ship.  The import lines and [types.ts] itself are not among the
    sources: the schemas are modelled from their use.

    ** Plan

    The sources are covered: every function of the two files is a
    definition, and every line of them that is not an import or blank
    is mapped; the executions are covered from one run to any number of
    runs at any moment.  What could still be added is on the side of
    the environment, and the repository and its specification say
    nothing to model it from: a wallet with its own outputs, so that
    [complete] can be modelled as coin selection and [tx_surplus]
    discharged against it; and a chain that can roll back. *)

From stdpp Require Import base tactics numbers option list strings.
From Stdlib Require Import ZArith Lia.

(** ** Exceptions *)

(** What a JavaScript computation of the sources can throw: an [Error]
    built by the code with a message, a [TypeError] raised by the runtime
    (a property read on [undefined], a [bigint] added to [undefined]), and
    the rejection of a promise by the provider or the wallet, which the
    sources never catch. *)
Inductive error : Type :=
| Error (message : string)
| TypeError (message : string)
| Remote (message : string).

#[export] Instance error_eq_dec : EqDecision error.
Proof. solve_decision. Defined.

(** The message of an exception ([e.message]). *)
Definition message_of (e : error) : string :=
  match e with
  | Error m | TypeError m | Remote m => m
  end.

(** ** Results *)

Inductive result (A : Type) : Type :=
| Ok (a : A)
| Err (e : error).
Arguments Ok {A} a.
Arguments Err {A} e.

#[export] Instance result_eq_dec `{EqDecision A} : EqDecision (result A).
Proof. solve_decision. Defined.

#[export] Instance result_ret : MRet result := @Ok.

#[export] Instance result_bind : MBind result :=
  λ A B f r, match r with Ok a => f a | Err e => Err e end.

#[export] Instance result_fmap : FMap result :=
  λ A B f r, match r with Ok a => Ok (f a) | Err e => Err e end.

Definition is_ok {A} (r : result A) : bool :=
  match r with Ok _ => true | Err _ => false end.

(** [or_throw o e]: the value of an optional, or the exception [e]. *)
Definition or_throw {A} (o : option A) (e : error) : result A :=
  match o with Some a => Ok a | None => Err e end.

(** ** Falsy values *)

(** JavaScript's [!x].  The sources apply it to an optional string (the
    [SEED] variable, a datum) and to an optional object (a script
    reference): [undefined] is falsy, and so is the empty string. *)
Class Falsy (A : Type) := falsy : A → bool.
#[global] Hint Mode Falsy ! : typeclass_instances.

#[export] Instance falsy_string : Falsy string :=
  λ s, bool_decide (s = "").

#[export] Instance falsy_Z : Falsy Z :=
  λ z, bool_decide (z = 0%Z).

#[export] Instance falsy_option `{Falsy A} : Falsy (option A) :=
  λ o, match o with None => true | Some a => falsy a end.

(** An object is always truthy: only its absence is falsy. *)
Definition falsy_object {A} (o : option A) : bool :=
  match o with None => true | Some _ => false end.

(** [if (!x) throw e], after which [x] is known to be a value: the value
    of a truthy optional, or the exception. *)
Definition truthy_or `{Falsy A} (o : option A) (e : error) : result A :=
  match o with
  | Some a => if falsy a then Err e else Ok a
  | None => Err e
  end.

(** [a + b] on [bigint]s, where [a] may be [undefined]: JavaScript
    refuses to mix the two. *)
Definition mixed_bigint : error :=
  TypeError "Cannot mix BigInt and other types, use explicit conversions".

Definition bigint_add (a : option Z) (b : Z) : result Z :=
  match a with
  | Some a => Ok (a + b)%Z
  | None => Err mixed_bigint
  end.

(** ** Tactics and hints *)

Create HintDb asteria discriminated.
Create Rewrite HintDb asteria.

(** Invert a hypothesis that a bind returned: the first computation
    returned too. *)
Lemma result_bind_Ok {A B} (f : A → result B) (r : result A) b :
  r ≫= f = Ok b ↔ ∃ a, r = Ok a ∧ f a = Ok b.
Proof.
  destruct r as [a|e]; simpl; split.
  - eauto.
  - by intros (? & [= <-] & ?).
  - done.
  - by intros (? & [=] & _).
Qed.

Lemma result_bind_Err {A B} (f : A → result B) (r : result A) e :
  r ≫= f = Err e ↔ r = Err e ∨ ∃ a, r = Ok a ∧ f a = Err e.
Proof.
  destruct r as [a|e']; simpl; split.
  - intros ?. right. eauto.
  - by intros [[=] | (? & [= <-] & ?)].
  - intros [= ->]. by left.
  - by intros [[= ->] | (? & [=] & _)].
Qed.

Lemma result_fmap_Ok {A B} (f : A → B) (r : result A) b :
  f <$> r = Ok b ↔ ∃ a, r = Ok a ∧ f a = b.
Proof.
  destruct r as [a|e]; simpl; split.
  - intros [= <-]. eauto.
  - by intros (? & [= <-] & <-).
  - done.
  - by intros (? & [=] & _).
Qed.

Lemma or_throw_Ok {A} (o : option A) e a :
  or_throw o e = Ok a ↔ o = Some a.
Proof. destruct o; simpl; split; congruence. Qed.

Lemma or_throw_Err {A} (o : option A) e e' :
  or_throw o e = Err e' ↔ o = None ∧ e' = e.
Proof.
  destruct o; simpl; split; try done.
  - by intros [[=] _].
  - by intros [= <-].
  - by intros [_ ->].
Qed.

Lemma is_ok_true {A} (r : result A) : is_ok r = true ↔ ∃ a, r = Ok a.
Proof.
  destruct r; simpl; split; try done; [eauto | by intros [? [=]]].
Qed.

Lemma falsy_string_spec (s : string) : falsy s = true ↔ s = "".
Proof. unfold falsy, falsy_string. by rewrite bool_decide_eq_true. Qed.

Lemma result_Ok_bind {A B} (a : A) (f : A → result B) : Ok a ≫= f = f a.
Proof. done. Qed.

Lemma falsy_Some `{Falsy A} (a : A) : falsy (Some a) = falsy a.
Proof. done. Qed.

Lemma falsy_Some_string (s : string) : falsy (Some s) = bool_decide (s = "").
Proof. done. Qed.

Lemma falsy_Some_nonempty (s : string) : s ≠ "" → falsy (Some s) = false.
Proof. intros. rewrite falsy_Some_string. by apply bool_decide_eq_false. Qed.

Lemma falsy_option_false `{Falsy A} (o : option A) :
  falsy o = false ↔ ∃ a, o = Some a ∧ falsy a = false.
Proof.
  destruct o as [a|]; simpl; split; try done.
  - eauto.
  - by intros (? & [= <-] & ?).
  - by intros (? & [=] & _).
Qed.

Lemma truthy_or_Ok `{Falsy A} (o : option A) e a :
  truthy_or o e = Ok a ↔ o = Some a ∧ falsy a = false.
Proof.
  unfold truthy_or. destruct o as [a'|].
  - destruct (falsy a') eqn:E; split.
    + done.
    + intros [[= ->] ?]. congruence.
    + intros [= ->]. by split.
    + by intros [[= ->] _].
  - split; [done | by intros [? _]].
Qed.

Lemma truthy_or_Err `{Falsy A} (o : option A) e e' :
  truthy_or o e = Err e' ↔ falsy o = true ∧ e' = e.
Proof.
  unfold truthy_or. destruct o as [a'|].
  - change (falsy (Some a')) with (falsy a'). destruct (falsy a'); split.
    + intros [= ->]. by split.
    + by intros [_ ->].
    + done.
    + by intros [? _].
  - split; [intros [= ->]; by split | by intros [_ ->]].
Qed.

Lemma bigint_add_Ok a b c : bigint_add a b = Ok c ↔ ∃ a', a = Some a' ∧ c = (a' + b)%Z.
Proof.
  destruct a as [a'|]; simpl; split; try done.
  - intros [= <-]. eauto.
  - by intros (? & [= <-] & ->).
  - by intros (? & [=] & _).
Qed.

Lemma falsy_object_false {A} (o : option A) :
  falsy_object o = false ↔ is_Some o.
Proof.
  destruct o; simpl; split; done.
Qed.

#[export] Hint Rewrite @result_bind_Ok @result_fmap_Ok @or_throw_Ok
  @or_throw_Err : asteria.
#[export] Hint Rewrite falsy_string_spec : asteria.

(** [inv_result]: turn hypotheses [_ = Ok _] about binds and optional
    reads into the equations they stand for. *)
Ltac inv_result :=
  repeat match goal with
  | H : Ok _ = Ok _ |- _ => injection H as H; try subst
  | H : Err _ = Err _ |- _ => injection H as H; try subst
  | H : Ok _ = Err _ |- _ => discriminate H
  | H : Err _ = Ok _ |- _ => discriminate H
  | H : mret _ = Ok _ |- _ => injection H as H; try subst
  | H : _ ≫= _ = Ok _ |- _ =>
      apply result_bind_Ok in H; destruct H as (? & ? & H)
  | H : _ <$> _ = Ok _ |- _ =>
      apply result_fmap_Ok in H; destruct H as (? & ? & H)
  | H : or_throw _ _ = Ok _ |- _ => apply or_throw_Ok in H
  | H : or_throw _ _ = Err _ |- _ =>
      apply or_throw_Err in H; destruct H as [H ?]; try subst
  end.

(** [case_result]: case analysis on the result or optional the goal
    matches on, keeping the equation. *)
Ltac case_result :=
  match goal with
  | |- context [match ?r with Ok _ => _ | Err _ => _ end] =>
      let E := fresh "E" in destruct r eqn:E
  | |- context [match ?o with Some _ => _ | None => _ end] =>
      let E := fresh "E" in destruct o eqn:E
  | |- context [if ?b then _ else _] =>
      let E := fresh "E" in destruct b eqn:E
  end.

(** The first element of an array, which may be [undefined]. *)
Lemma lookup_0_Some {A} (l : list A) a : l !! 0%nat = Some a ↔ ∃ l', l = a :: l'.
Proof.
  destruct l as [|b l]; simpl; split; try done.
  - by intros [? [=]].
  - intros [= ->]. eauto.
  - by intros [? [= -> _]].
Qed.

(** ** Shared lemmas on strings *)

(** stdpp keeps [simpl] from unfolding string concatenation: these are
    its two equations. *)
Lemma string_app_nil_l (t : string) : "" +:+ t = t.
Proof. reflexivity. Qed.

Lemma string_app_cons a (s t : string) :
  String a s +:+ t = String a (s +:+ t).
Proof. reflexivity. Qed.

Lemma string_app_length (s t : string) :
  String.length (s +:+ t) = String.length s + String.length t.
Proof.
  induction s as [|a s IH]; [done|].
  rewrite string_app_cons. simpl. by rewrite IH.
Qed.

Lemma string_app_nil_r (s : string) : s +:+ "" = s.
Proof.
  induction s as [|a s IH]; [done|]. by rewrite string_app_cons, IH.
Qed.

Lemma string_app_assoc (s t u : string) : (s +:+ t) +:+ u = s +:+ (t +:+ u).
Proof.
  induction s as [|a s IH]; [done|]. by rewrite !string_app_cons, IH.
Qed.

Lemma string_app_inj_l (p s t : string) : p +:+ s = p +:+ t → s = t.
Proof. apply String.app_inj. Qed.

Lemma string_app_inj_r (s t p : string) : s +:+ p = t +:+ p → s = t.
Proof.
  revert t. induction s as [|a s IH]; intros [|b t] E; [done | | |].
  - apply (f_equal String.length) in E.
    rewrite string_app_nil_l, string_app_cons in E. simpl in E.
    rewrite string_app_length in E. lia.
  - apply (f_equal String.length) in E.
    rewrite string_app_nil_l, string_app_cons in E. simpl in E.
    rewrite string_app_length in E. lia.
  - rewrite !string_app_cons in E. injection E as -> E. f_equal. by apply IH.
Qed.

#[export] Hint Rewrite string_app_nil_l string_app_cons string_app_length
  string_app_nil_r : asteria.
#[export] Hint Resolve string_app_inj_l string_app_inj_r : asteria.

(** Two concatenations with prefixes of the same length are equal only
    part by part. *)
Lemma string_app_inj_length (p p' s s' : string) :
  String.length p = String.length p' → p +:+ s = p' +:+ s' → p = p' ∧ s = s'.
Proof.
  revert p'. induction p as [|a p IH]; intros [|a' p'] Hlen E; try done.
  rewrite !string_app_cons in E. injection E as -> E. simpl in Hlen.
  destruct (IH p') as [-> ->]; [lia | done | done].
Qed.

(** ** Lists *)

(** Where the images of the elements of a list are all different, an
    element is known by its image. *)
Lemma NoDup_fmap_inj {A B} (f : A → B) (l : list A) x y :
  NoDup (f <$> l) → x ∈ l → y ∈ l → f x = f y → x = y.
Proof.
  induction l as [|a l IH]; csimpl; [by intros _ ?%elem_of_nil|].
  rewrite NoDup_cons, !elem_of_cons, list_elem_of_fmap.
  intros [Ha Hl] [->|Hx] [->|Hy] E; [done| | |by apply IH].
  - destruct Ha. by exists y.
  - destruct Ha. by exists x.
Qed.

(** *** Filters *)

Section filter.
Context {A : Type} (P : A → Prop) `{!∀ x, Decision (P x)}.

Lemma filter_none (l : list A) : (∀ x, x ∈ l → ¬ P x) → filter P l = [].
Proof.
  induction l as [|a l IH]; intros HP; [done|].
  rewrite filter_cons_False by (apply HP; left). apply IH.
  intros x Hx. apply HP. by right.
Qed.

Lemma filter_all (l : list A) : (∀ x, x ∈ l → P x) → filter P l = l.
Proof.
  induction l as [|a l IH]; intros HP; [done|].
  rewrite filter_cons_True by (apply HP; left). f_equal. apply IH.
  intros x Hx. apply HP. by right.
Qed.

Lemma filter_comm (Q : A → Prop) `{!∀ x, Decision (Q x)} (l : list A) :
  filter P (filter Q l) = filter Q (filter P l).
Proof. rewrite !list_filter_filter. apply list_filter_iff. tauto. Qed.

End filter.

(** The one element of a list with a given key, when keys are unique. *)
Lemma filter_key {A B} `{EqDecision B} (f : A → B) (l : list A) x :
  NoDup (f <$> l) → x ∈ l → filter (λ y, f y ∈ [f x]) l = [x].
Proof.
  induction l as [|a l IH]; [by intros _ ?%elem_of_nil|].
  rewrite fmap_cons, NoDup_cons. intros [Ha Hl] [->|Hx]%elem_of_cons.
  - rewrite filter_cons, decide_True by apply list_elem_of_singleton, eq_refl.
    f_equal. apply filter_none. intros y Hy E%list_elem_of_singleton.
    apply Ha. rewrite <- E. apply list_elem_of_fmap. eauto.
  - rewrite filter_cons, decide_False; [by apply IH|].
    intros E%list_elem_of_singleton. apply Ha. rewrite E.
    apply list_elem_of_fmap. eauto.
Qed.

(** The one element of a list that satisfies [P] splits it in one way. *)
Lemma app_cons_unique {A} (P : A → bool) (l1 l2 l1' : list A) (x x' : A) :
  l1 ++ x :: l2 = l1' ++ [x'] → P x = true → existsb P l1' = false →
  l1 = l1' ∧ x = x' ∧ l2 = [].
Proof.
  revert l1'. induction l1 as [|a l1 IH]; intros [|a' l1']; simpl.
  - by intros [= -> <-].
  - intros [= <- _] Hx. by rewrite Hx.
  - intros [= -> E]. by destruct l1.
  - intros [= <- E] Hx [_ Hl]%orb_false_iff.
    by destruct (IH l1' E Hx Hl) as (-> & -> & ->).
Qed.
