(* ===== verification/Fuel.v ===== *)
(** * Fuel: the arithmetic helpers of [src/transactions/utils.ts]

    [abs] (line 23), [distance] (lines 40-42) and [required_fuel]
    (lines 44-46) over [bigint], which is [Z]: the values have no width, so
    nothing wraps.  The section proves that [distance] is the Manhattan
    norm of a displacement (a norm on the plane: definite, even,
    subadditive) and how the fuel a trip needs grows with it. *)

From stdpp Require Import base tactics numbers.
From Stdlib Require Import ZArith Lia.
From S2P Require Import Prelude.

#[local] Open Scope Z_scope.

(** [const abs = (n: bigint) => (n < 0n ? -n : n)] *)
Definition abs (n : Z) : Z := if n <? 0 then - n else n.

(** [distance(delta_x, delta_y) = abs(delta_x) + abs(delta_y)] *)
Definition distance (delta_x delta_y : Z) : Z := abs delta_x + abs delta_y.

(** [required_fuel(distance, fuel_per_step) = distance * fuel_per_step] *)
Definition required_fuel (distance fuel_per_step : Z) : Z :=
  distance * fuel_per_step.

(** The displacement between two positions of the grid. *)
Definition displacement (p q : Z * Z) : Z * Z := (q.1 - p.1, q.2 - p.2).

(** The distance between two positions: [distance] of their displacement. *)
Definition dist (p q : Z * Z) : Z :=
  distance (displacement p q).1 (displacement p q).2.

(** Fuel for a trip: the source's two helpers composed, as callers do. *)
Definition trip_fuel (p q : Z * Z) (fuel_per_step : Z) : Z :=
  required_fuel (dist p q) fuel_per_step.

Section abs.
Implicit Types n m : Z.

(** The conditional of the source is the absolute value of [Z]. *)
Lemma abs_Zabs n : abs n = Z.abs n.
Proof. unfold abs. destruct (Z.ltb_spec n 0); lia. Qed.

Lemma abs_nonneg n : 0 ≤ abs n.
Proof. rewrite abs_Zabs. lia. Qed.

Lemma abs_opp n : abs (- n) = abs n.
Proof. rewrite !abs_Zabs. lia. Qed.

Lemma abs_triangle n m : abs (n + m) ≤ abs n + abs m.
Proof. rewrite !abs_Zabs. lia. Qed.

Lemma abs_eq_0 n : abs n = 0 ↔ n = 0.
Proof. rewrite abs_Zabs. lia. Qed.

Lemma abs_mul n m : abs (n * m) = abs n * abs m.
Proof. rewrite !abs_Zabs. apply Z.abs_mul. Qed.

End abs.

#[export] Hint Resolve abs_nonneg : asteria.
#[export] Hint Rewrite abs_opp : asteria.

Section distance.
Implicit Types dx dy : Z.

(** A distance is never negative, whatever the signs of the deltas. *)
Lemma distance_nonneg dx dy : 0 ≤ distance dx dy.
Proof. unfold distance. pose proof (abs_nonneg dx). pose proof (abs_nonneg dy). lia. Qed.

Lemma distance_Zabs dx dy : distance dx dy = Z.abs dx + Z.abs dy.
Proof. unfold distance. by rewrite !abs_Zabs. Qed.

Lemma distance_comm dx dy : distance dx dy = distance dy dx.
Proof. rewrite !distance_Zabs. lia. Qed.

Lemma distance_opp dx dy : distance (- dx) (- dy) = distance dx dy.
Proof. unfold distance. by rewrite !abs_opp. Qed.

Lemma distance_eq_0 dx dy : distance dx dy = 0 ↔ dx = 0 ∧ dy = 0.
Proof. rewrite distance_Zabs. lia. Qed.

(** [distance] is subadditive: the distance of the sum of two
    displacements is at most the sum of their distances. *)
Lemma distance_triangle dx dy ex ey :
  distance (dx + ex) (dy + ey) ≤ distance dx dy + distance ex ey.
Proof. rewrite !distance_Zabs. lia. Qed.

Lemma distance_scale k dx dy :
  distance (k * dx) (k * dy) = abs k * distance dx dy.
Proof. unfold distance. rewrite !abs_mul. lia. Qed.

(** C39: [distance] is the Manhattan norm of a displacement: it is never
    negative, it is zero only for no displacement, it does not change
    when the displacement is reversed, and it is subadditive. *)
Theorem distance_norm dx dy ex ey :
  0 ≤ distance dx dy
  ∧ (distance dx dy = 0 ↔ dx = 0 ∧ dy = 0)
  ∧ distance (- dx) (- dy) = distance dx dy
  ∧ distance (dx + ex) (dy + ey) ≤ distance dx dy + distance ex ey.
Proof.
  split_and!; [apply distance_nonneg | apply distance_eq_0
              | apply distance_opp | apply distance_triangle].
Qed.

End distance.

(** ** The metric on positions *)


Section metric.
Implicit Types p q r : Z * Z.

Lemma dist_refl p : dist p p = 0.
Proof. unfold dist, displacement. simpl. apply distance_eq_0. lia. Qed.

Lemma dist_sym p q : dist p q = dist q p.
Proof.
  unfold dist, displacement. simpl.
  rewrite <- (distance_opp (q.1 - p.1)). f_equal; lia.
Qed.

Lemma dist_separates p q : dist p q = 0 → p = q.
Proof.
  unfold dist, displacement. simpl. rewrite distance_eq_0.
  destruct p, q. simpl. intros []. f_equal; lia.
Qed.

(** Going from [p] to [r] through [q] is never shorter than going
    straight: the distance the fuel is priced by is a metric. *)
Theorem dist_triangle p q r : dist p r ≤ dist p q + dist q r.
Proof.
  unfold dist, displacement. simpl.
  etrans; [|apply distance_triangle]. apply Z.eq_le_incl. f_equal; lia.
Qed.

End metric.

(** ** Fuel *)

Section fuel.
Implicit Types d f : Z.

Lemma required_fuel_nonneg d f : 0 ≤ d → 0 ≤ f → 0 ≤ required_fuel d f.
Proof. unfold required_fuel. nia. Qed.

Lemma required_fuel_mono d d' f :
  0 ≤ f → d ≤ d' → required_fuel d f ≤ required_fuel d' f.
Proof. unfold required_fuel. nia. Qed.

Lemma required_fuel_add d d' f :
  required_fuel (d + d') f = required_fuel d f + required_fuel d' f.
Proof. unfold required_fuel. lia. Qed.

(** A detour never saves fuel, at a non-negative price per step:
    the fuel [required_fuel] asks for the [distance] from [p] to [r] is
    at most what it asks for going through [q]. *)
Theorem trip_fuel_detour p q r f :
  0 ≤ f → trip_fuel p r f ≤ trip_fuel p q f + trip_fuel q r f.
Proof.
  intros Hf. unfold trip_fuel. rewrite <- required_fuel_add.
  apply required_fuel_mono; [done | apply dist_triangle].
Qed.

(** C40: with a negative price per step the fuel required is negative
    for every real move: [required_fuel] checks neither argument. *)
Theorem required_fuel_neg d f : 0 < d → f < 0 → required_fuel d f < 0.
Proof. unfold required_fuel. nia. Qed.

End fuel.
