(* ===== verification/Lucid.v ===== *)
(** * Lucid: the library the sources are written against

    What [create-ship.ts] imports from Lucid (lines 1-9) and what both
    files call on a [Lucid] object, as an interface:

    - the data the calls exchange: [OutRef], [Script], [UTxO], asset
      bundles (a JavaScript object from unit to [bigint], here a
      [gmap string Z]) and Plutus [Data] with its [Constr];
    - [LucidLib]: the pure functions of the library ([fromText], [toUnit],
      the two address and policy derivations, the CBOR codec behind
      [Data.to] and [Data.from]), as a class, with the laws the sources
      rely on in [LucidLaws].  File [LucidRef] gives an instance;
    - [Tx]: a transaction under construction is the list of builder calls
      made on it, in order, which is how Lucid holds it until [complete];
      what it spends, mints and pays is read off the calls
      ([tx_inputs], [tx_minted], [tx_outputs]), and so is what it
      leaves for [complete] to balance with the wallet ([tx_surplus])
      and whether [complete] can go through with it ([well_formed]);
    - [request], [response]: the calls that leave the program (the
      process environment, the provider, the wallet, the file system),
      each with the type of its answer;
    - [prog]: a computation that makes such calls, may throw, and returns;
      [runs p t r] says that [t] is an execution of [p] that ends in [r],
      whatever answers the calls, and [run] executes [p] against a
      handler.  [runs] is what the safety theorems quantify over: every
      environment is covered, a stateful one included. *)

From stdpp Require Import base tactics numbers option list strings gmap.
From Stdlib Require Import ZArith Lia.
From S2P Require Import Prelude.

(** ** Data exchanged with the library *)

(** [{ txHash, outputIndex }] *)
Record OutRef := { txHash : string; outputIndex : Z }.

Inductive ScriptType := Native | PlutusV1 | PlutusV2.

(** [{ type, script }] *)
Record Script := { script_type : ScriptType; script : string }.

(** A UTxO as the provider returns it.  [datum] and [scriptRef] are
    optional properties: absent is [None]. *)
Record UTxO := {
  outRef : OutRef;
  address : string;
  assets : gmap string Z;
  datumHash : option string;
  datum : option string;
  scriptRef : option Script;
}.

(** Plutus data as Lucid's [Data] type: a [bigint], a byte string in hex,
    a list, a map, or a constructor application [new Constr(index, fields)]. *)
#[local] Unset Elimination Schemes.
Inductive Data : Type :=
| DInteger (n : Z)
| DBytes (hex : string)
| DList (items : list Data)
| DMap (entries : list (Data * Data))
| Constr (index : Z) (fields : list Data).
#[local] Set Elimination Schemes.

(** The provider of [utils.ts]: a Blockfrost endpoint and a project id. *)
Record Blockfrost := { url : string; projectId : option string }.

Inductive Network := Mainnet | Preview | Preprod | Custom.

(** A [Lucid] object: its provider, its network and the selected wallet
    (the seed it was derived from), if any. *)
Record Lucid := {
  provider : Blockfrost;
  network : Network;
  wallet : option string;
}.

#[export] Instance OutRef_eq_dec : EqDecision OutRef.
Proof. solve_decision. Defined.
#[export] Instance ScriptType_eq_dec : EqDecision ScriptType.
Proof. solve_decision. Defined.
#[export] Instance Script_eq_dec : EqDecision Script.
Proof. solve_decision. Defined.
#[export] Instance UTxO_eq_dec : EqDecision UTxO.
Proof. solve_decision. Defined.
#[export] Instance Blockfrost_eq_dec : EqDecision Blockfrost.
Proof. solve_decision. Defined.
#[export] Instance Network_eq_dec : EqDecision Network.
Proof. solve_decision. Defined.
#[export] Instance Lucid_eq_dec : EqDecision Lucid.
Proof. solve_decision. Defined.

(** ** The pure functions of the library *)

(** The operations [create-ship.ts] imports or reaches through
    [lucid.utils], with the types the sources use them at.  [toUnit] and
    [Data_from] can throw. *)
Class LucidLib := {
  (** [fromText(text)]: UTF-8 text to hex. *)
  fromText : string → string;
  (** [toUnit(policyId, name)]: the unit of an asset. *)
  toUnit : string → string → result string;
  (** [lucid.utils.validatorToAddress(script)] *)
  validatorToAddress : Script → string;
  (** [lucid.utils.mintingPolicyToId(script)] *)
  mintingPolicyToId : Script → string;
  (** [Data.to(data)]: Plutus data to CBOR hex. *)
  Data_to : Data → string;
  (** [Data.from(raw)]: CBOR hex to Plutus data. *)
  Data_from : string → result Data;
}.

(** Hex strings: an even number of digits [0-9a-f], as [toHex] prints. *)
Definition is_hex_digit (a : Ascii.ascii) : bool :=
  let n := Ascii.N_of_ascii a in
  ((48 <=? n) && (n <=? 57) || (97 <=? n) && (n <=? 102))%N.

Fixpoint is_hex (s : string) : bool :=
  match s with
  | "" => true
  | String a (String b s) => is_hex_digit a && is_hex_digit b && is_hex s
  | String _ "" => false
  end.

(** Data whose byte strings are hex, whose constructor indices are not
    negative and whose maps have a size of 64 bits: what has a CBOR
    encoding. *)
Fixpoint wf_data (d : Data) : bool :=
  match d with
  | DInteger _ => true
  | DBytes h => is_hex h
  | DList l => forallb wf_data l
  | DMap m =>
      (Z.of_nat (length m) <? 2 ^ 64)%Z
      && forallb (λ e, wf_data e.1 && wf_data e.2) m
  | Constr i l => (0 <=? i)%Z && forallb wf_data l
  end.

(** The depth of nesting. *)
Fixpoint depth (d : Data) : nat :=
  match d with
  | DInteger _ | DBytes _ => 1
  | DList l | Constr _ l => S (foldr (λ d, max (depth d)) 0 l)%nat
  | DMap m => S (foldr (λ e, max (max (depth e.1) (depth e.2))) 0 m)%nat
  end.

(** What the sources rely on.  Units are unambiguous and never the
    reserved key [lovelace]; the text encoding loses nothing and yields
    hex; the codec reads back what it wrote, reads only data that can be
    written, and never writes the empty string (which a caller would take
    for a missing datum). *)
Class LucidLaws (L : LucidLib) : Prop := {
  fromText_inj : Inj (=) (=) fromText;
  fromText_hex s : is_hex (fromText s) = true;
  toUnit_inj p n p' n' u :
    toUnit p n = Ok u → toUnit p' n' = Ok u → p = p' ∧ n = n';
  toUnit_not_lovelace p n : toUnit p n ≠ Ok "lovelace";
  Data_from_to d : wf_data d = true → Data_from (Data_to d) = Ok d;
  Data_from_wf s d : Data_from s = Ok d → wf_data d = true;
  Data_to_nonempty d : Data_to d ≠ "";
}.

(** ** Transactions under construction *)

(** [{ inline }], [{ asHash }] or [{ hash }], with an optional script. *)
Record OutputData := {
  hash : option string;
  asHash : option string;
  inline : option string;
  od_scriptRef : option Script;
}.

(** The builder calls the sources make, with their arguments. *)
Inductive TxCall :=
| ReadFrom (utxos : list UTxO)
| MintAssets (minted : gmap string Z) (redeemer : option string)
| CollectFrom (utxos : list UTxO) (redeemer : option string)
| PayToContract (addr : string) (outputData : OutputData)
    (value : gmap string Z).

(** A [Tx]: the calls made on it since [newTx()], oldest first. *)
Abbreviation Tx := (list TxCall).

#[export] Instance OutputData_eq_dec : EqDecision OutputData.
Proof. solve_decision. Defined.
#[export] Instance TxCall_eq_dec : EqDecision TxCall.
Proof. solve_decision. Defined.

Definition newTx : Tx := [].

Definition readFrom (utxos : list UTxO) (tx : Tx) : Tx :=
  tx ++ [ReadFrom utxos].

Definition mintAssets (minted : gmap string Z) (redeemer : option string)
    (tx : Tx) : Tx :=
  tx ++ [MintAssets minted redeemer].

Definition collectFrom (utxos : list UTxO) (redeemer : option string)
    (tx : Tx) : Tx :=
  tx ++ [CollectFrom utxos redeemer].

(** [payToContract] refuses an output with no datum at all: a falsy
    [hash], [asHash] and [inline]. *)
Definition payToContract (addr : string) (outputData : OutputData)
    (value : gmap string Z) (tx : Tx) : result Tx :=
  if falsy (hash outputData) && falsy (asHash outputData)
     && falsy (inline outputData)
  then Err (Error "No datum set. Script output becomes unspendable without datum.")
  else Ok (tx ++ [PayToContract addr outputData value]).

(** [{ inline: d }] *)
Definition inline_datum (d : string) : OutputData :=
  {| hash := None; asHash := None; inline := Some d; od_scriptRef := None |}.

(** *** What a transaction does *)

(** The reference inputs, the inputs it spends, the outputs it pays and
    the assets it mints, read off the calls. *)
Definition tx_references (tx : Tx) : list UTxO :=
  tx ≫= λ c, match c with ReadFrom us => us | _ => [] end.

Definition tx_inputs (tx : Tx) : list UTxO :=
  tx ≫= λ c, match c with CollectFrom us _ => us | _ => [] end.

Definition tx_outputs (tx : Tx) : list (string * OutputData * gmap string Z) :=
  tx ≫= λ c, match c with PayToContract a d v => [(a, d, v)] | _ => [] end.

Definition tx_mints (tx : Tx) : list (gmap string Z) :=
  tx ≫= λ c, match c with MintAssets m _ => [m] | _ => [] end.

(** The quantity of [unit] in a bundle: absent is zero. *)
Definition quantity (unit : string) (v : gmap string Z) : Z :=
  default 0%Z (v !! unit).

(** The quantity of [unit] the transaction mints, over all its
    [mintAssets] calls. *)
Definition tx_minted (unit : string) (tx : Tx) : Z :=
  foldr (λ m acc, quantity unit m + acc)%Z 0%Z (tx_mints tx).

(** The quantity of [unit] in the inputs the transaction spends, and in
    the outputs it pays. *)
Definition tx_spent (unit : string) (tx : Tx) : Z :=
  foldr (λ u acc, quantity unit (assets u) + acc)%Z 0%Z (tx_inputs tx).

Definition tx_paid (unit : string) (tx : Tx) : Z :=
  foldr (λ o acc, quantity unit o.2 + acc)%Z 0%Z (tx_outputs tx).

(** What the calls leave for [complete()] to balance with the wallet:
    what is spent or minted and not paid out goes to the wallet as
    change, and a negative surplus is taken from the wallet (both
    before the fee of the transaction itself). *)
Definition tx_surplus (unit : string) (tx : Tx) : Z :=
  (tx_spent unit tx + tx_minted unit tx - tx_paid unit tx)%Z.

(** *** Well-formed transactions *)

(** A bundle an output can carry: every quantity is positive, and there
    is some lovelace. *)
Definition value_ok (v : gmap string Z) : bool :=
  bool_decide (map_Forall (λ _ q, 0 < q)%Z v)
  && bool_decide (is_Some (v !! "lovelace")).

(** A bundle that can be minted: no lovelace, and no quantity zero. *)
Definition mint_ok (m : gmap string Z) : bool :=
  bool_decide (map_Forall (λ u q, q ≠ 0%Z ∧ u ≠ "lovelace") m).

(** A call [complete()] can go through with: a redeemer for what is
    minted under a script and for what is collected from one, a datum
    on what is paid to one, and bundles that can be. *)
Definition call_ok (c : TxCall) : bool :=
  match c with
  | ReadFrom _ => true
  | MintAssets m r => mint_ok m && negb (falsy r)
  | CollectFrom _ r => negb (falsy r)
  | PayToContract _ d v =>
      negb (falsy (hash d) && falsy (asHash d) && falsy (inline d))
      && value_ok v
  end.

Definition well_formed (tx : Tx) : bool := forallb call_ok tx.

(** ** Calls that leave the program *)

(** The completed (balanced) and the signed transaction, as the wallet
    hands them back: the calls they were built from, and the bytes. *)
Record TxComplete := { tc_tx : Tx; tc_cbor : string }.
Record TxSigned := { ts_tx : TxComplete; ts_witnesses : list string }.

#[export] Instance TxComplete_eq_dec : EqDecision TxComplete.
Proof. solve_decision. Defined.
#[export] Instance TxSigned_eq_dec : EqDecision TxSigned.
Proof. solve_decision. Defined.

Inductive request :=
(** [Deno.env.get(name)] *)
| EnvGet (name : string)
(** [Lucid.new(provider, network)] *)
| LucidNew (p : Blockfrost) (n : Network)
(** [lucid.selectWalletFromSeed(seed)] *)
| SelectWalletFromSeed (l : Lucid) (seed : string)
(** [lucid.utxosByOutRef(refs)] *)
| UtxosByOutRef (l : Lucid) (refs : list OutRef)
(** [lucid.utxosAt(address)] *)
| UtxosAt (l : Lucid) (addr : string)
(** [tx.complete()] *)
| Complete (l : Lucid) (tx : Tx)
(** [tx.sign().complete()] *)
| Sign (l : Lucid) (tx : TxComplete)
(** [signedTx.submit()] *)
| Submit (l : Lucid) (tx : TxSigned)
(** [Deno.writeTextFileSync(path, text)] *)
| WriteTextFileSync (path text : string).

#[export] Instance request_eq_dec : EqDecision request.
Proof. solve_decision. Defined.

(** The type of the answer to each call. *)
Definition response (r : request) : Type :=
  match r with
  | EnvGet _ => option string
  | LucidNew _ _ => unit
  | SelectWalletFromSeed _ _ => unit
  | UtxosByOutRef _ _ => list UTxO
  | UtxosAt _ _ => list UTxO
  | Complete _ _ => TxComplete
  | Sign _ _ => TxSigned
  | Submit _ _ => string
  | WriteTextFileSync _ _ => unit
  end.

#[export] Instance response_eq_dec r : EqDecision (response r).
Proof. destruct r; simpl; apply _. Defined.

(** The calls that go to the network: the provider's, and [Lucid.new],
    which fetches the protocol parameters, and [complete], which fetches
    the wallet's UTxOs. *)
Definition is_network (r : request) : bool :=
  match r with
  | LucidNew _ _ | UtxosByOutRef _ _ | UtxosAt _ _ | Complete _ _
  | Submit _ _ => true
  | EnvGet _ | SelectWalletFromSeed _ _ | Sign _ _
  | WriteTextFileSync _ _ => false
  end.

(** The calls that change the chain. *)
Definition is_submit (r : request) : bool :=
  match r with Submit _ _ => true | _ => false end.

(** The calls on a transaction: balancing, signing and submitting it. *)
Definition on_transaction (r : request) : bool :=
  match r with
  | Complete _ _ | Sign _ _ | Submit _ _ => true
  | _ => false
  end.

(** ** Programs *)

(** A program returns, throws, or makes a call and goes on with its
    answer, which is a value or a rejection. *)
Inductive prog (A : Type) : Type :=
| Ret (a : A)
| Throw (e : error)
| Vis (r : request) (k : result (response r) → prog A).
Arguments Ret {A} a.
Arguments Throw {A} e.
Arguments Vis {A} r k.

Fixpoint prog_bind {A B} (f : A → prog B) (p : prog A) : prog B :=
  match p with
  | Ret a => f a
  | Throw e => Throw e
  | Vis r k => Vis r (λ x, prog_bind f (k x))
  end.

#[export] Instance prog_ret : MRet prog := @Ret.
#[export] Instance prog_mbind : MBind prog := @prog_bind.

(** A pure computation that may throw, inside a program. *)
Definition lift {A} (r : result A) : prog A :=
  match r with Ok a => Ret a | Err e => Throw e end.

(** [await r]: make the call; a rejection is thrown. *)
Definition await (r : request) : prog (response r) := Vis r lift.

(** [try { p } catch (e) { h e }] *)
Fixpoint try_catch {A} (p : prog A) (h : error → prog A) : prog A :=
  match p with
  | Ret a => Ret a
  | Throw e => h e
  | Vis r k => Vis r (λ x, try_catch (k x) h)
  end.

(** One call of an execution: the request and its answer. *)
Inductive call := Call (r : request) (x : result (response r)).

Definition call_req (c : call) : request := let 'Call r _ := c in r.

(** The requests of an execution, in order. *)
Definition requests (t : list call) : list request := call_req <$> t.

(** The rejection a call was answered with, if it was. *)
Definition rejection (c : call) : option error :=
  match c with Call _ (Err e) => Some e | Call _ (Ok _) => None end.

Definition rejections (t : list call) : list error := omap rejection t.

(** What the environment answered to the reads of its variables. *)
Definition env_read (c : call) : option (string * option string) :=
  match c with Call (EnvGet k) (Ok v) => Some (k, v) | _ => None end.

Definition env_reads (t : list call) : list (string * option string) :=
  omap env_read t.

(** What the provider returned to the lookups by reference, and to the
    lookups by address. *)
Definition ref_lookup (c : call) : option (list OutRef * list UTxO) :=
  match c with
  | Call (UtxosByOutRef _ refs) (Ok us) => Some (refs, us)
  | _ => None
  end.

Definition ref_lookups (t : list call) : list (list OutRef * list UTxO) :=
  omap ref_lookup t.

Definition address_lookup (c : call) : option (string * list UTxO) :=
  match c with
  | Call (UtxosAt _ addr) (Ok us) => Some (addr, us)
  | _ => None
  end.

Definition address_lookups (t : list call) : list (string * list UTxO) :=
  omap address_lookup t.

(** A transaction went to the chain: a [submit] that was answered with
    a hash. *)
Definition submitted (c : call) : bool :=
  match c with Call (Submit _ _) (Ok _) => true | _ => false end.

(** [runs p t res]: [p] makes the calls of [t], receives the answers
    recorded there, and ends in [res]. *)
Fixpoint runs {A} (p : prog A) (t : list call) (res : result A) : Prop :=
  match p with
  | Ret a => t = [] ∧ res = Ok a
  | Throw e => t = [] ∧ res = Err e
  | Vis r k => ∃ x t', t = Call r x :: t' ∧ runs (k x) t' res
  end.

(** A handler answers the calls, from a state of its own. *)
Definition handler (W : Type) : Type :=
  ∀ r : request, W → result (response r) * W.

Fixpoint run {W A} (h : handler W) (p : prog A) (w : W)
    : result A * W * list call :=
  match p with
  | Ret a => (Ok a, w, [])
  | Throw e => (Err e, w, [])
  | Vis r k =>
      let '(x, w') := h r w in
      let '(res, w'', t) := run h (k x) w' in (res, w'', Call r x :: t)
  end.

(** An answer to [r'] as an answer to [r], when the two are calls of
    the same function: the type of the answer is the same. *)
Definition recast (r' r : request)
    : result (response r') → option (result (response r)) :=
  match r', r with
  | EnvGet _, EnvGet _ => Some
  | LucidNew _ _, LucidNew _ _ => Some
  | SelectWalletFromSeed _ _, SelectWalletFromSeed _ _ => Some
  | UtxosByOutRef _ _, UtxosByOutRef _ _ => Some
  | UtxosAt _ _, UtxosAt _ _ => Some
  | Complete _ _, Complete _ _ => Some
  | Sign _ _, Sign _ _ => Some
  | Submit _ _, Submit _ _ => Some
  | WriteTextFileSync _ _, WriteTextFileSync _ _ => Some
  | _, _ => λ _, None
  end.

(** The answer recorded for [r] in the call [c], if [c] is a call of [r]. *)
Definition answer_to (r : request) (c : call) : option (result (response r)) :=
  let 'Call r' x := c in
  if decide (r' = r) then recast r' r x else None.

(** The handler that replays recorded answers: its state is what is left
    of the recording. *)
Definition replay : handler (list call) :=
  λ r w,
    match w with
    | c :: w' =>
        match answer_to r c with
        | Some x => (x, w')
        | None => (Err (Remote "unexpected call"), w')
        end
    | [] => (Err (Remote "no more answers"), [])
    end.

(** The check that [t] is an execution of [p] with the outcome [res]. *)
Fixpoint accepts `{EqDecision A} (p : prog A) (t : list call)
    (res : result A) : bool :=
  match p, t with
  | Ret a, [] => bool_decide (res = Ok a)
  | Throw e, [] => bool_decide (res = Err e)
  | Vis r k, c :: t' =>
      match answer_to r c with
      | Some x => accepts (k x) t' res
      | None => false
      end
  | _, _ => false
  end.

(** [runs_inv H]: read one call off the execution [H], with its answer;
    [runs_ex]: give the execution the goal asks for, call by call. *)
Ltac runs_inv H :=
  let x := fresh "x" in
  let t := fresh "t" in
  simpl in H; destruct H as (x & t & -> & H); destruct x; simpl in H.

Ltac runs_ex :=
  repeat (simpl; do 2 eexists; split; [reflexivity|]); simpl.

(** [runs_by_eqs]: the same, where the checks of the program pass by the
    equations of the context. *)
Ltac runs_by_eqs :=
  repeat first
    [ progress runs_ex
    | match goal with
      | H : ?l = Some _ |- context [?l] => rewrite H
      | H : ?l = Ok _ |- context [?l] => rewrite H
      | H : ?l = false |- context [?l] => rewrite H
      end ].

(** The reductions that run a program and nothing else. *)
Ltac runs_cbn H :=
  cbn [runs prog_bind mbind prog_mbind mret prog_ret await lift] in H.

(** [runs_Ok H]: follow an execution [H] that returned, call by call:
    every answer was a value and every check passed, and the context
    gains the equation of each.  A sub-program is split off with
    [runs_bind_Ok], and its execution left in the context. *)
Ltac runs_Ok_with bind_Ok H :=
  repeat (runs_cbn H;
    lazymatch type of H with
    | ∃ _ _, _ = Call _ _ :: _ ∧ _ =>
        let x := fresh "ans" in
        let t := fresh "t" in
        destruct H as (x & t & -> & H); destruct x as [x|x]
    | _ = [] ∧ Ok _ = Err _ => by destruct H as [_ [=]]
    | runs (lift ?r ≫= _) _ _ =>
        let E := fresh "E" in destruct r eqn:E
    | runs (_ ≫= _) _ (Ok _) =>
        let Hp := fresh "Hp" in
        apply bind_Ok in H as (? & ? & ? & Hp & H & ->)
    end);
  runs_cbn H.

(** ** Laws of programs *)

Section prog.
Context {A B : Type}.
Implicit Types (p : prog A) (f : A → prog B) (t : list call).

Lemma bind_Ret a f : Ret a ≫= f = f a.
Proof. done. Qed.

Lemma bind_Throw e f : Throw e ≫= f = Throw e.
Proof. done. Qed.

Lemma bind_Vis r (k : result (response r) → prog A) f :
  Vis r k ≫= f = Vis r (λ x, k x ≫= f).
Proof. done. Qed.

Lemma bind_lift_Ok (a : A) f : lift (Ok a) ≫= f = f a.
Proof. done. Qed.

Lemma bind_lift_Err e f : lift (Err e : result A) ≫= f = Throw e.
Proof. done. Qed.

(** An execution of [p ≫= f] is an execution of [p] that throws, or
    one that returns followed by an execution of [f]. *)
Lemma runs_bind p f t (res : result B) :
  runs (p ≫= f) t res ↔
    (∃ e, runs p t (Err e) ∧ res = Err e) ∨
    (∃ a t1 t2, runs p t1 (Ok a) ∧ runs (f a) t2 res ∧ t = t1 ++ t2).
Proof.
  revert t. induction p as [a|e|r k IH]; intros t.
  - rewrite bind_Ret. simpl. split.
    + intros Hf. right. by exists a, [], t.
    + intros [(e & [_ [=]] & _) | (a' & t1 & t2 & [-> [= <-]] & Hf & ->)].
      done.
  - rewrite bind_Throw. simpl. split.
    + intros [-> ->]. left. by exists e.
    + intros [(e' & [-> [= <-]] & ->) | (a' & t1 & t2 & [_ [=]] & _)]. done.
  - rewrite bind_Vis. simpl. split.
    + intros (x & t' & -> & Hk).
      apply IH in Hk as [(e & Hk & ->) | (a & t1 & t2 & H1 & H2 & ->)].
      * left. exists e. split; [|done]. by exists x, t'.
      * right. exists a, (Call r x :: t1), t2. split; [|done]. by exists x, t1.
    + intros [(e & (x & t' & -> & Hk) & ->)
             | (a & t1 & t2 & (x & t' & -> & Hk) & H2 & ->)].
      * exists x, t'. split; [done|]. apply IH. left. by exists e.
      * exists x, (t' ++ t2). split; [done|].
        apply IH. right. by exists a, t', t2.
Qed.

(** The two cases of [runs_bind] when the outcome is known. *)
Lemma runs_bind_Ok p f t (b : B) :
  runs (p ≫= f) t (Ok b) ↔
    ∃ a t1 t2, runs p t1 (Ok a) ∧ runs (f a) t2 (Ok b) ∧ t = t1 ++ t2.
Proof.
  rewrite runs_bind. split; [|by right].
  by intros [(e & _ & [=]) | ?].
Qed.

End prog.

Ltac runs_Ok H := runs_Ok_with @runs_bind_Ok H.

(** [runs_all H]: every execution [H] can be, one goal per way the
    program ends: a call rejected, a check failed, or the return.  Each
    goal has the trace as a list and the checks on the way as equations. *)
Ltac runs_all H :=
  repeat (runs_cbn H;
    lazymatch type of H with
    | ∃ _ _, _ = Call _ _ :: _ ∧ _ =>
        let x := fresh "ans" in
        let t := fresh "t" in
        destruct H as (x & t & -> & H); destruct x as [x|x]
    | runs (lift ?r ≫= _) _ _ =>
        let E := fresh "E" in destruct r eqn:E
    | context [match ?x with _ => _ end] =>
        let E := fresh "E" in destruct x eqn:E
    end);
  runs_cbn H; destruct H as [-> ->].

(** The executions of a single call. *)
Lemma runs_await r t (res : result (response r)) :
  runs (await r) t res ↔ t = [Call r res].
Proof.
  unfold await. simpl. split.
  - intros (x & t' & -> & Hx). by destruct x; destruct Hx as [-> ->].
  - intros ->. exists res, []. split; [done|]. by destruct res.
Qed.

Lemma runs_lift {A} (r : result A) t res :
  runs (lift r) t res ↔ t = [] ∧ res = r.
Proof. by destruct r. Qed.

Lemma runs_Ret {A} (a : A) t res : runs (mret a) t res ↔ t = [] ∧ res = Ok a.
Proof. done. Qed.

Lemma runs_Throw {A} e t (res : result A) :
  runs (Throw e) t res ↔ t = [] ∧ res = Err e.
Proof. done. Qed.

(** A program has one execution per sequence of answers: the outcome is
    a function of the calls. *)
(** Every program has an execution: the one in which each call fails. *)
Lemma runs_exists {A} (p : prog A) : ∃ t res, runs p t res.
Proof.
  induction p as [a|e|r k IH]; [by exists [], (Ok a) | by exists [], (Err e)|].
  destruct (IH (Err (Remote EmptyString))) as (t & res & H).
  exists (Call r (Err (Remote EmptyString)) :: t), res. simpl. eauto.
Qed.

Lemma runs_det {A} (p : prog A) t res res' :
  runs p t res → runs p t res' → res = res'.
Proof.
  revert t. induction p as [a|e|r k IH]; intros t; simpl.
  - by intros [_ ->] [_ ->].
  - by intros [_ ->] [_ ->].
  - intros (x & t1 & -> & H1) (x' & t2 & E & H2).
    injection E as Ex <-.
    apply (Eqdep_dec.inj_pair2_eq_dec _ (decide_rel (=))) in Ex as <-.
    eauto.
Qed.

(** What [run] computes is an execution: the theorems on [runs] hold of
    every handler. *)
Lemma run_runs {W A} (h : handler W) (p : prog A) (w : W) :
  runs p (run h p w).2 (run h p w).1.1.
Proof.
  revert w. induction p as [a|e|r k IH]; intros w; simpl; [done..|].
  destruct (h r w) as [x w'].
  specialize (IH x w'). destruct (run h (k x) w') as [[res w''] t].
  by exists x, t.
Qed.

Lemma Call_inj r (x y : result (response r)) : Call r x = Call r y → x = y.
Proof.
  intros [= E]. by apply (Eqdep_dec.inj_pair2_eq_dec _ (decide_rel (=))) in E.
Qed.

Lemma recast_same r x : recast r r x = Some x.
Proof. by destruct r. Qed.

Lemma answer_to_Call r x : answer_to r (Call r x) = Some x.
Proof. unfold answer_to. rewrite decide_True by done. apply recast_same. Qed.

Lemma answer_to_Some r c x : answer_to r c = Some x ↔ c = Call r x.
Proof.
  split; [|intros ->; apply answer_to_Call].
  destruct c as [r' y]. unfold answer_to. case_decide as E; [|done].
  subst. rewrite recast_same. by intros [= ->].
Qed.

Lemma replay_Call r x w : replay r (Call r x :: w) = (x, w).
Proof. unfold replay. by rewrite answer_to_Call. Qed.

(** An execution is one of a handler: the one that replays its answers. *)
Lemma runs_run {A} (p : prog A) t res :
  runs p t res → (run replay p t).1.1 = res ∧ (run replay p t).2 = t.
Proof.
  revert t. induction p as [a|e|r k IH]; intros t; simpl.
  - by intros [-> ->].
  - by intros [-> ->].
  - intros (x & t' & -> & Hk). cbn [run]. rewrite replay_Call.
    destruct (IH x t' Hk) as [E1 E2].
    destruct (run replay (k x) t') as [[res0 w''] t0]. simpl in *.
    by subst.
Qed.

(** [accepts] decides [runs]. *)
Lemma accepts_runs `{EqDecision A} (p : prog A) t res :
  accepts p t res = true ↔ runs p t res.
Proof.
  revert t. induction p as [a|e|r k IH]; intros [|c t]; simpl;
    rewrite ?bool_decide_eq_true; try (split; [done | by intros [[=] _]]);
    try (split; [done | by intros (? & ? & [=] & _)]); try tauto.
  destruct (answer_to r c) as [x|] eqn:E.
  - apply answer_to_Some in E as ->. rewrite IH. split; [by exists x, t|].
    intros (y & t' & E & H). by apply (inj2 cons) in E as [<-%Call_inj <-].
  - split; [done|]. intros (y & t' & [= -> _] & _).
    by rewrite answer_to_Call in E.
Qed.

#[export] Instance runs_dec `{EqDecision A} (p : prog A) t res :
  Decision (runs p t res).
Proof.
  refine (cast_if (decide (accepts p t res = true))); by rewrite <- accepts_runs.
Defined.

(** ** Induction on data *)

(** The induction principle of [Data], with the hypothesis on the items
    of a list, the entries of a map and the fields of a constructor. *)
Lemma Data_ind (P : Data → Prop) :
  (∀ n, P (DInteger n)) → (∀ h, P (DBytes h)) →
  (∀ l, Forall P l → P (DList l)) →
  (∀ m, Forall (λ e, P e.1 ∧ P e.2) m → P (DMap m)) →
  (∀ i l, Forall P l → P (Constr i l)) →
  ∀ d, P d.
Proof.
  intros Hn Hb Hl Hm Hc. fix IH 1. intros [n|h|l|m|i l].
  - apply Hn.
  - apply Hb.
  - apply Hl. induction l; constructor; [apply IH | done].
  - apply Hm. induction m as [|[k v] m]; constructor; [split; apply IH | done].
  - apply Hc. induction l; constructor; [apply IH | done].
Qed.
