(* ===== verification/Types.v ===== *)
(** * Types: the datum schemas of [./types.ts]

    [create-ship.ts] imports [AssetClassT], [AsteriaDatum], [AsteriaDatumT],
    [ShipDatum] and [ShipDatumT] from [./types.ts] (lines 11-17).  The
    records are the shapes of the object literals the builder writes
    (lines 66-69 and 79-85) and reads (line 92).  The schemas are Lucid
    [Data.Object] schemas: a value is the constructor 0 applied to its
    fields in declaration order, an integer field is a [bigint] and a
    bytes field a hex string.  [Schema] is what [Data.to] and [Data.from]
    take as their second argument. *)

From stdpp Require Import base tactics numbers option list strings gmap.
From Stdlib Require Import ZArith Lia.
From S2P Require Import Prelude Lucid.

(** [{ policy, name }] *)
Record AssetClassT := { policy : string; name : string }.

(** [{ ship_counter, shipyard_policy }] *)
Record AsteriaDatumT := { ship_counter : Z; shipyard_policy : string }.

(** [{ fuel, pos_x, pos_y, ship_token_name, pilot_token_name }] *)
Record ShipDatumT := {
  fuel : Z;
  pos_x : Z;
  pos_y : Z;
  ship_token_name : string;
  pilot_token_name : string;
}.

#[export] Instance AssetClassT_eq_dec : EqDecision AssetClassT.
Proof. solve_decision. Defined.
#[export] Instance AsteriaDatumT_eq_dec : EqDecision AsteriaDatumT.
Proof. solve_decision. Defined.
#[export] Instance ShipDatumT_eq_dec : EqDecision ShipDatumT.
Proof. solve_decision. Defined.

(** A schema for [T]: how a value is cast to Plutus data and back. *)
Class Schema (T : Type) := {
  castTo : T → Data;
  castFrom : Data → result T;
}.
#[global] Hint Mode Schema ! : typeclass_instances.

(** The casts of the field types. *)
Definition cast_integer (d : Data) : result Z :=
  match d with
  | DInteger n => Ok n
  | _ => Err (Error "Could not type cast to integer.")
  end.

Definition cast_bytes (d : Data) : result string :=
  match d with
  | DBytes h => Ok h
  | _ => Err (Error "Could not type cast to bytes.")
  end.

(** The fields of an object: constructor 0 with [n] fields. *)
Definition cast_object (n : nat) (d : Data) : result (list Data) :=
  match d with
  | Constr 0 fields =>
      if decide (length fields = n) then Ok fields
      else Err (Error "Could not type cast to object. Fields do not match.")
  | _ => Err (Error "Could not type cast to object.")
  end.

(** The field at [i], which the length check of [cast_object] makes
    present. *)
Definition field (fields : list Data) (i : nat) : result Data :=
  or_throw (fields !! i)
    (Error "Could not type cast to object. Fields do not match.").

#[export] Instance AssetClass : Schema AssetClassT := {|
  castTo a := Constr 0 [DBytes (policy a); DBytes (name a)];
  castFrom d :=
    fs ← cast_object 2 d;
    p ← field fs 0 ≫= cast_bytes;
    n ← field fs 1 ≫= cast_bytes;
    mret {| policy := p; name := n |};
|}.

#[export] Instance AsteriaDatum : Schema AsteriaDatumT := {|
  castTo a := Constr 0 [DInteger (ship_counter a); DBytes (shipyard_policy a)];
  castFrom d :=
    fs ← cast_object 2 d;
    c ← field fs 0 ≫= cast_integer;
    p ← field fs 1 ≫= cast_bytes;
    mret {| ship_counter := c; shipyard_policy := p |};
|}.

#[export] Instance ShipDatum : Schema ShipDatumT := {|
  castTo s :=
    Constr 0 [DInteger (fuel s); DInteger (pos_x s); DInteger (pos_y s);
              DBytes (ship_token_name s); DBytes (pilot_token_name s)];
  castFrom d :=
    fs ← cast_object 5 d;
    f ← field fs 0 ≫= cast_integer;
    x ← field fs 1 ≫= cast_integer;
    y ← field fs 2 ≫= cast_integer;
    s ← field fs 3 ≫= cast_bytes;
    p ← field fs 4 ≫= cast_bytes;
    mret {| fuel := f; pos_x := x; pos_y := y;
            ship_token_name := s; pilot_token_name := p |};
|}.

(** [Data.to<T>(value, schema)] and [Data.from<T>(raw, schema)]. *)
Definition Data_to_as `{LucidLib} {T} (schema : Schema T) (value : T) : string :=
  Data_to (castTo value).

Definition Data_from_as `{LucidLib} {T} (schema : Schema T) (raw : string)
    : result T :=
  Data_from raw ≫= castFrom.

(** A schema is lawful when a cast value casts back to itself. *)
Class SchemaLaws (T : Type) `{Schema T} : Prop := {
  castFrom_castTo (x : T) : castFrom (castTo x) = Ok x;
}.

(** ** Theorems *)

#[export] Instance AssetClass_laws : SchemaLaws AssetClassT.
Proof. split. by intros []. Qed.

#[export] Instance AsteriaDatum_laws : SchemaLaws AsteriaDatumT.
Proof. split. by intros []. Qed.

#[export] Instance ShipDatum_laws : SchemaLaws ShipDatumT.
Proof. split. by intros []. Qed.

(** A lawful schema loses nothing. *)
Lemma castTo_inj `{SchemaLaws T} : Inj (=) (=) (castTo (T:=T)).
Proof.
  intros x y E. apply (f_equal (castFrom (T:=T))) in E.
  rewrite !castFrom_castTo in E. by injection E.
Qed.

(** What the schemas write has an encoding exactly when its bytes fields
    are hex. *)
Lemma wf_data_AsteriaDatum (a : AsteriaDatumT) :
  wf_data (castTo a) = is_hex (shipyard_policy a).
Proof. simpl. by rewrite andb_true_r. Qed.

Lemma wf_data_ShipDatum (s : ShipDatumT) :
  wf_data (castTo s)
  = is_hex (ship_token_name s) && is_hex (pilot_token_name s).
Proof. simpl. by rewrite andb_true_r. Qed.

(** The datum cast reads exactly the data the schema writes: an Asteria
    datum is a constructor 0 of an integer and a byte string. *)
Lemma castFrom_AsteriaDatum_Ok (d : Data) (a : AsteriaDatumT) :
  castFrom d = Ok a ↔ d = castTo a.
Proof.
  split; [|intros ->; apply castFrom_castTo].
  destruct a as [c p]. simpl. intros E.
  destruct d as [| | | |i fs]; try done.
  destruct i as [| |]; try done.
  do 3 (destruct fs as [|? fs]; try done).
  destruct d as [n| | | |]; try done.
  destruct d0 as [|h| | |]; try done.
  by injection E as -> ->.
Qed.

Section codec.
Context {L : LucidLib} {LL : LucidLaws L} `{SchemaLaws T}.

(** Reading back what [Data.to] wrote, through the codec and the schema. *)
Lemma Data_from_as_to (x : T) :
  wf_data (castTo x) = true →
  Data_from_as _ (Data_to_as _ x) = Ok x.
Proof.
  intros Hwf. unfold Data_from_as, Data_to_as.
  rewrite Data_from_to by done. simpl. apply castFrom_castTo.
Qed.

(** What is written of two values that have an encoding tells them
    apart. *)
Lemma Data_to_as_inj (x y : T) :
  wf_data (castTo x) = true → wf_data (castTo y) = true →
  Data_to_as _ x = Data_to_as _ y → x = y.
Proof.
  intros Hx Hy E. apply (f_equal (Data_from_as (T:=T) _)) in E.
  rewrite !Data_from_as_to in E by done. by injection E.
Qed.

Lemma Data_to_as_nonempty (x : T) : falsy (Some (Data_to_as _ x)) = false.
Proof. apply falsy_Some_nonempty, Data_to_nonempty. Qed.

End codec.
