(* ===== verification/Utils.v ===== *)
(** * Utils: the effectful helpers of [src/transactions/utils.ts]

    [lucidBase] (lines 3-12), [writeJson] (lines 14-21) and
    [fetchReferenceScript] (lines 25-38) as programs over the calls of
    [Lucid].  The theorems characterise every execution of each: what the
    resolver returns and when it throws which exception, that it asks the
    provider once, that [writeJson] never throws, and which provider
    [lucidBase] configures. *)

From stdpp Require Import base tactics numbers option list strings gmap.
From Stdlib Require Import ZArith Lia.
From S2P Require Import Prelude Lucid.

(** The endpoint [lucidBase] connects to. *)
Definition blockfrost_url : string :=
  "https://dmtr_blockfrost_v1_preprod_1g3myuaesde8yzm6nvusqnk3c.blockfrost-m1.demeter.run".

(** [new Blockfrost(url, projectId)] *)
Definition base_provider (projectId : option string) : Blockfrost :=
  {| url := blockfrost_url; projectId := projectId |}.

(** [lucidBase()]: read the project id from the environment, then
    [Lucid.new] on the Blockfrost provider and the network [Preprod]. *)
Definition lucidBase : prog Lucid :=
  projectId ← await (EnvGet "BLOCKFROST_PROJECT_ID");
  _ ← await (LucidNew (base_provider projectId) Preprod);
  mret {| provider := base_provider projectId; network := Preprod;
          wallet := None |}.

(** The output reference the resolver asks for: index 0 of [txhash]. *)
Definition ref_of (txhash : string) : OutRef :=
  {| txHash := txhash; outputIndex := 0 |}.

Definition missing_validator : error :=
  Error "Could not read validator from ref UTxO".

(** Reading a property of [undefined]. *)
Definition undefined_read (property : string) : error :=
  TypeError ("Cannot read properties of undefined (reading '" +:+ property +:+ "')").

(** [fetchReferenceScript(lucid, txhash)]: the first UTxO the provider
    returns for output 0 of [txhash], if it carries a script. *)
Definition fetchReferenceScript (lucid : Lucid) (txhash : string) : prog UTxO :=
  ref ← await (UtxosByOutRef lucid [ref_of txhash]);
  match ref !! 0%nat with
  | None => Throw (undefined_read "scriptRef")
  | Some ref0 =>
      if falsy_object (scriptRef ref0) then Throw missing_validator
      else mret ref0
  end.

Section writeJson.
(** [data: object] and [JSON.stringify], which throws on a [bigint] or a
    cycle. *)
Context {object : Type} (JSON_stringify : object → result string).

(** [writeJson(path, data)]: the confirmation, or the message of what
    was thrown. *)
Definition writeJson (path : string) (data : object) : prog string :=
  try_catch
    (text ← lift (JSON_stringify data);
     _ ← await (WriteTextFileSync path text);
     mret ("Written to " +:+ path))
    (λ e, mret (message_of e)).

End writeJson.

(** ** Theorems *)

Section lucidBase.
Implicit Types (t : list call) (l : Lucid).

Lemma lucidBase_Ok t l :
  runs lucidBase t (Ok l) ↔
    ∃ pid, t = [Call (EnvGet "BLOCKFROST_PROJECT_ID") (Ok pid);
                Call (LucidNew (base_provider pid) Preprod) (Ok ())]
         ∧ l = {| provider := base_provider pid; network := Preprod;
                  wallet := None |}.
Proof.
  unfold lucidBase. split.
  - intros H. runs_inv H; [|by destruct H]. runs_inv H; [|by destruct H].
    destruct H as [-> [= ->]]. destruct a0. eauto.
  - intros (pid & -> & ->). by runs_ex.
Qed.


Lemma lucidBase_Err t e :
  runs lucidBase t (Err e) ↔
    t = [Call (EnvGet "BLOCKFROST_PROJECT_ID") (Err e)] ∨
    ∃ pid, t = [Call (EnvGet "BLOCKFROST_PROJECT_ID") (Ok pid);
                Call (LucidNew (base_provider pid) Preprod) (Err e)].
Proof.
  unfold lucidBase. split.
  - intros H. runs_inv H; [|destruct H as [-> [= <-]]; by left].
    runs_inv H; [by destruct H|]. destruct H as [-> [= <-]]. right. eauto.
  - intros [-> | (pid & ->)]; by runs_ex.
Qed.

End lucidBase.

Section fetchReferenceScript.
Context (lucid : Lucid) (txhash : string).
Implicit Types (t : list call) (u : UTxO).

Let req := UtxosByOutRef lucid [ref_of txhash].

(** What a run of the resolver that returned has seen. *)
Lemma fetchReferenceScript_returns t u :
  runs (fetchReferenceScript lucid txhash) t (Ok u) →
  ∃ us, t = [Call req (Ok (u :: us))] ∧ is_Some (scriptRef u).
Proof.
  unfold fetchReferenceScript. intros H. runs_inv H; [|by destruct H].
  destruct a as [|u0 us]; simpl in H; [by destruct H|].
  destruct (scriptRef u0) as [s|] eqn:Es; simpl in H; [|by destruct H].
  destruct H as [-> [= <-]]. exists us. by rewrite Es.
Qed.

(** C31: the resolver returns [u] exactly when the provider answered its
    one lookup of output 0 with a list whose first element is [u], and
    [u] carries a script reference. *)
Theorem fetchReferenceScript_Ok t u :
  runs (fetchReferenceScript lucid txhash) t (Ok u) ↔
    ∃ us, t = [Call req (Ok (u :: us))] ∧ is_Some (scriptRef u).
Proof.
  split; [apply fetchReferenceScript_returns|].
  intros (us & -> & [s Es]). unfold fetchReferenceScript. simpl.
  exists (Ok (u :: us)), []. split; [done|]. simpl. by rewrite Es.
Qed.

(** C32: the resolver fails in exactly three ways: the provider rejected
    the lookup (its rejection is rethrown unchanged), the provider
    returned nothing (a [TypeError] from reading [scriptRef] of
    [undefined], not the descriptive error), or the first UTxO has no
    script (the descriptive error). *)
Theorem fetchReferenceScript_Err t e :
  runs (fetchReferenceScript lucid txhash) t (Err e) ↔
    t = [Call req (Err e)] ∨
    (t = [Call req (Ok [])] ∧ e = undefined_read "scriptRef") ∨
    (∃ u us, t = [Call req (Ok (u :: us))] ∧ scriptRef u = None
             ∧ e = missing_validator).
Proof.
  unfold fetchReferenceScript. split.
  - intros H. runs_inv H; [|destruct H as [-> [= <-]]; by left].
    destruct a as [|u0 us]; simpl in H.
    + destruct H as [-> [= <-]]. right. by left.
    + destruct (scriptRef u0) as [s|] eqn:Es; simpl in H;
        destruct H as [-> [= <-]].
      right. right. by exists u0, us.
  - intros [-> | [[-> ->] | (u & us & -> & Es & ->)]]; simpl.
    + by exists (Err e), [].
    + by exists (Ok []), [].
    + exists (Ok (u :: us)), []. split; [done|]. simpl. by rewrite Es.
Qed.

(** A single resolution attempt: every execution is one lookup, of
    output 0 of the given transaction, whatever it answers. *)
Lemma fetchReferenceScript_requests t res :
  runs (fetchReferenceScript lucid txhash) t res → requests t = [req].
Proof.
  unfold fetchReferenceScript. intros H. by runs_all H.
Qed.

End fetchReferenceScript.

Section writeJson_facts.
Context {object : Type} (JSON_stringify : object → result string).
Implicit Types (t : list call) (path : string) (data : object).

(** [writeJson] never throws: every execution returns a string. *)
Lemma writeJson_total path data t res :
  runs (writeJson JSON_stringify path data) t res → is_ok res = true.
Proof.
  unfold writeJson. destruct (JSON_stringify data) as [text|e]; simpl.
  - intros (x & t' & -> & H). destruct x; simpl in H; by destruct H as [_ ->].
  - by intros [_ ->].
Qed.

(** C37: [writeJson] returns the confirmation exactly when the data was
    serialised and the file written; otherwise it returns the message of
    the exception, and writes nothing if serialising threw. *)
Theorem writeJson_spec path data t s :
  runs (writeJson JSON_stringify path data) t (Ok s) ↔
    match JSON_stringify data with
    | Ok text =>
        (t = [Call (WriteTextFileSync path text) (Ok ())]
         ∧ s = "Written to " +:+ path) ∨
        (∃ e, t = [Call (WriteTextFileSync path text) (Err e)]
              ∧ s = message_of e)
    | Err e => t = [] ∧ s = message_of e
    end.
Proof.
  unfold writeJson. destruct (JSON_stringify data) as [text|e]; simpl.
  - split.
    + intros (x & t' & -> & H). destruct x as [[]|e]; simpl in H;
        destruct H as [-> [= ->]]; [by left | right; by exists e].
    + intros [[-> ->] | (e & -> & ->)].
      * by exists (Ok ()), [].
      * by exists (Err e), [].
  - split; by intros [-> [= ->]].
Qed.

End writeJson_facts.
