(* ===== verification/CreateShip.v ===== *)
(** * CreateShip: the transaction builder of [src/transactions/create-ship.ts]

    [createShip] (lines 19-130) is one asynchronous function.  Its pure
    middle part, the values computed between reading the Asteria UTxO and
    building the transaction (lines 59-97), is one definition per [const]
    of the source, with the source's names; the builder chain of lines
    98-124 is [createShipTx]; [createShip] is the whole function, the
    awaited calls included.

    A [bigint] printed into a string ([ "SHIP" + counter ]) is stdpp's
    [pretty] on [Z]: decimal digits, a minus sign for a negative number.
    An object literal with computed keys is [obj2]: the second key wins
    when the two are equal.

    The theorems, in the order of the file: the object literals; the
    token names and units; the transaction built ([createShipTx_Ok]),
    what it mints and pays, what it leaves to the wallet ([value_flow])
    and when it is well formed ([built_well_formed]); the datums read
    back ([datums_roundtrip]); the executions of [createShip], the
    successful ones exactly and the failures by cause; and what a run
    that returned has built. *)

From stdpp Require Import base tactics numbers option list strings gmap pretty.
From Stdlib Require Import ZArith Lia.
From S2P Require Import Prelude Lucid Types Utils.

#[local] Open Scope Z_scope.

(** [{ [k1]: v1, [k2]: v2 }] *)
Definition obj2 (k1 : string) (v1 : Z) (k2 : string) (v2 : Z) : gmap string Z :=
  <[k2 := v2]> (<[k1 := v1]> ∅).

(** [x as Script], handed to a function that reads its [type]. *)
Definition as_Script (x : option Script) : result Script :=
  or_throw x (undefined_read "type").

Definition missing_seed : error :=
  Error "Unable to read wallet's seed from env".

Definition missing_datum : error := Error "Asteria datum not found".

(** The calls a run makes when the seed is missing from the environment. *)
Definition no_seed_trace (pid seed : option string) : list call :=
  [Call (EnvGet "BLOCKFROST_PROJECT_ID") (Ok pid);
   Call (LucidNew (base_provider pid) Preprod) (Ok ());
   Call (EnvGet "SEED") (Ok seed)].

(** The exceptions [createShip] raises itself, in the order of the lines
    that raise them: 29-33, [utils.ts] 33 and 34-36, 55, 55-57 and 122. *)
Definition own_errors : list error :=
  [missing_seed; undefined_read "scriptRef"; missing_validator;
   undefined_read "datum"; missing_datum; mixed_bigint].

Section createShip.
Context {L : LucidLib}.

(** The arguments of [createShip], in the order of its signature. *)
Context (asteriaRefTxHash spacetimeRefTxHash : string)
  (admin_token : AssetClassT)
  (ship_mint_lovelace_fee initial_fuel pos_x pos_y : Z).

(** ** Lines 59-97: the values of the transition *)

Section transition.
Context (asteriaInputDatum : AsteriaDatumT) (shipyardPolicyId : string).

(** Lines 66-69. *)
Definition asteriaInfo : AsteriaDatumT := {|
  ship_counter := ship_counter asteriaInputDatum + 1;
  shipyard_policy := shipyard_policy asteriaInputDatum;
|}.

(** Lines 71-74. *)
Definition asteriaOutputDatum : string := Data_to_as AsteriaDatum asteriaInfo.

(** Lines 76-77. *)
Definition shipTokenName : string :=
  fromText ("SHIP" +:+ pretty (ship_counter asteriaInputDatum)).

Definition pilotTokenName : string :=
  fromText ("PILOT" +:+ pretty (ship_counter asteriaInputDatum)).

(** Lines 79-85. *)
Definition shipInfo : ShipDatumT := {|
  fuel := initial_fuel;
  Types.pos_x := pos_x;
  Types.pos_y := pos_y;
  ship_token_name := shipTokenName;
  pilot_token_name := pilotTokenName;
|}.

(** Lines 87-90. *)
Definition shipDatum : string := Data_to_as ShipDatum shipInfo.

(** Lines 92-94. *)
Definition adminTokenUnit : result string :=
  toUnit (policy admin_token) (name admin_token).

Definition shipTokenUnit : result string :=
  toUnit shipyardPolicyId shipTokenName.

Definition pilotTokenUnit : result string :=
  toUnit shipyardPolicyId pilotTokenName.

End transition.

(** Lines 96-97. *)
Definition addNewShipRedeemer : string := Data_to (Constr 0 []).
Definition mintRedeemer : string := Data_to (Constr 0 []).

(** ** Lines 98-124: the builder chain *)

(** The chain up to [complete()], on the UTxOs read and the values of the
    transition.  It throws where the source would: in [payToContract],
    and in the addition of the fee when the Asteria UTxO has no
    [lovelace] entry. *)
Definition createShipTx (asteriaRef spacetimeRef asteria : UTxO)
    (asteriaAddressBech32 spacetimeAddressBech32 : string)
    (asteriaInputAda : option Z) (asteriaInputDatum : AsteriaDatumT)
    (adminTokenUnit shipTokenUnit pilotTokenUnit : string) : result Tx :=
  let tx := newTx in
  let tx := readFrom [asteriaRef; spacetimeRef] tx in
  let tx := mintAssets (obj2 shipTokenUnit 1 pilotTokenUnit 1)
              (Some mintRedeemer) tx in
  let tx := collectFrom [asteria] (Some addNewShipRedeemer) tx in
  tx ← payToContract spacetimeAddressBech32
         (inline_datum (shipDatum asteriaInputDatum))
         (obj2 shipTokenUnit 1 "lovelace" 2000000) tx;
  lovelace ← bigint_add asteriaInputAda ship_mint_lovelace_fee;
  payToContract asteriaAddressBech32
    (inline_datum (asteriaOutputDatum asteriaInputDatum))
    (obj2 adminTokenUnit 1 "lovelace" lovelace) tx.

(** ** Lines 19-130: the function *)

(** [lucid.selectWalletFromSeed(seed)]: the object with its wallet set. *)
Definition with_wallet (lucid : Lucid) (seed : string) : Lucid :=
  {| provider := provider lucid; network := network lucid;
     wallet := Some seed |}.

Definition createShip : prog string :=
  lucid ← lucidBase;
  seed ← await (EnvGet "SEED");
  seed ← lift (truthy_or seed missing_seed);
  _ ← await (SelectWalletFromSeed lucid seed);
  let lucid := with_wallet lucid seed in
  asteriaRef ← fetchReferenceScript lucid asteriaRefTxHash;
  asteriaScript ← lift (as_Script (scriptRef asteriaRef));
  let asteriaAddressBech32 := validatorToAddress asteriaScript in
  spacetimeRef ← fetchReferenceScript lucid spacetimeRefTxHash;
  spacetimeScript ← lift (as_Script (scriptRef spacetimeRef));
  let shipyardPolicyId := mintingPolicyToId spacetimeScript in
  let spacetimeAddressBech32 := validatorToAddress spacetimeScript in
  utxos ← await (UtxosAt lucid asteriaAddressBech32);
  asteria ← lift (or_throw (utxos !! 0%nat) (undefined_read "datum"));
  raw ← lift (truthy_or (datum asteria) missing_datum);
  let asteriaInputAda := assets asteria !! "lovelace" in
  asteriaInputDatum ← lift (Data_from_as AsteriaDatum raw);
  adminTokenUnit ← lift adminTokenUnit;
  shipTokenUnit ← lift (shipTokenUnit asteriaInputDatum shipyardPolicyId);
  pilotTokenUnit ← lift (pilotTokenUnit asteriaInputDatum shipyardPolicyId);
  tx ← lift (createShipTx asteriaRef spacetimeRef asteria
               asteriaAddressBech32 spacetimeAddressBech32
               asteriaInputAda asteriaInputDatum
               adminTokenUnit shipTokenUnit pilotTokenUnit);
  tx ← await (Complete lucid tx);
  signedTx ← await (Sign lucid tx);
  await (Submit lucid signedTx).

(** The five builder calls of [createShipTx], when nothing throws. *)
Definition ship_tx (asteriaRef spacetimeRef asteria : UTxO)
    (asteriaAddressBech32 spacetimeAddressBech32 : string)
    (lovelace : Z) (asteriaInputDatum : AsteriaDatumT)
    (adminTokenUnit shipTokenUnit pilotTokenUnit : string) : Tx := [
  ReadFrom [asteriaRef; spacetimeRef];
  MintAssets (obj2 shipTokenUnit 1 pilotTokenUnit 1) (Some mintRedeemer);
  CollectFrom [asteria] (Some addNewShipRedeemer);
  PayToContract spacetimeAddressBech32
    (inline_datum (shipDatum asteriaInputDatum))
    (obj2 shipTokenUnit 1 "lovelace" 2000000);
  PayToContract asteriaAddressBech32
    (inline_datum (asteriaOutputDatum asteriaInputDatum))
    (obj2 adminTokenUnit 1 "lovelace" (lovelace + ship_mint_lovelace_fee))
].

(** ** What a successful run is made of *)

(** What the environment answered in a run that went through: the
    project id and the seed, for each lookup the UTxO the builder used
    and the ones it ignored, the two scripts, and what the wallet and the
    provider returned for the transaction. *)
Record Answers := {
  a_projectId : option string;
  a_seed : string;
  a_asteriaRef : UTxO;
  a_asteriaRef_more : list UTxO;
  a_asteriaScript : Script;
  a_spacetimeRef : UTxO;
  a_spacetimeRef_more : list UTxO;
  a_spacetimeScript : Script;
  a_asteria : UTxO;
  a_asteria_more : list UTxO;
  a_completed : TxComplete;
  a_signed : TxSigned;
  a_hash : string;
}.

Section answers.
Context (a : Answers).

(** The [Lucid] object before and after the wallet is selected. *)
Definition lucid0 : Lucid :=
  {| provider := base_provider (a_projectId a); network := Preprod;
     wallet := None |}.

Definition lucid1 : Lucid := with_wallet lucid0 (a_seed a).

(** Lines 55-124 as a function of the answers: the transaction the
    builder hands to [complete()]. *)
Definition transition : result Tx :=
  raw ← truthy_or (datum (a_asteria a)) missing_datum;
  asteriaInputDatum ← Data_from_as AsteriaDatum raw;
  let shipyardPolicyId := mintingPolicyToId (a_spacetimeScript a) in
  adminTokenUnit ← adminTokenUnit;
  shipTokenUnit ← shipTokenUnit asteriaInputDatum shipyardPolicyId;
  pilotTokenUnit ← pilotTokenUnit asteriaInputDatum shipyardPolicyId;
  createShipTx (a_asteriaRef a) (a_spacetimeRef a) (a_asteria a)
    (validatorToAddress (a_asteriaScript a))
    (validatorToAddress (a_spacetimeScript a))
    (assets (a_asteria a) !! "lovelace") asteriaInputDatum
    adminTokenUnit shipTokenUnit pilotTokenUnit.

(** The calls of a run that went through, in order, with their answers. *)
Definition success_trace (tx : Tx) : list call := [
  Call (EnvGet "BLOCKFROST_PROJECT_ID") (Ok (a_projectId a));
  Call (LucidNew (base_provider (a_projectId a)) Preprod) (Ok ());
  Call (EnvGet "SEED") (Ok (Some (a_seed a)));
  Call (SelectWalletFromSeed lucid0 (a_seed a)) (Ok ());
  Call (UtxosByOutRef lucid1 [ref_of asteriaRefTxHash])
    (Ok (a_asteriaRef a :: a_asteriaRef_more a));
  Call (UtxosByOutRef lucid1 [ref_of spacetimeRefTxHash])
    (Ok (a_spacetimeRef a :: a_spacetimeRef_more a));
  Call (UtxosAt lucid1 (validatorToAddress (a_asteriaScript a)))
    (Ok (a_asteria a :: a_asteria_more a));
  Call (Complete lucid1 tx) (Ok (a_completed a));
  Call (Sign lucid1 (a_completed a)) (Ok (a_signed a));
  Call (Submit lucid1 (a_signed a)) (Ok (a_hash a))
].

(** The answers a run can go through with: a truthy seed, and a script
    on each of the two reference UTxOs. *)
Definition answers_ok : Prop :=
  falsy (a_seed a) = false
  ∧ scriptRef (a_asteriaRef a) = Some (a_asteriaScript a)
  ∧ scriptRef (a_spacetimeRef a) = Some (a_spacetimeScript a).

(** The Asteria state and balance the run read: the datum [raw] of the
    Asteria UTxO, decoded to [d], and its [lovelace]. *)
Definition reads (raw : string) (d : AsteriaDatumT) (lovelace : Z) : Prop :=
  datum (a_asteria a) = Some raw
  ∧ Data_from_as AsteriaDatum raw = Ok d
  ∧ assets (a_asteria a) !! "lovelace" = Some lovelace.

End answers.

End createShip.

(** ** Theorems: object literals *)

Section obj2.
Implicit Types (k : string) (v : Z).

Lemma obj2_lookup_2 k1 v1 k2 v2 : obj2 k1 v1 k2 v2 !! k2 = Some v2.
Proof. unfold obj2. by rewrite lookup_insert_eq. Qed.

Lemma obj2_lookup_1 k1 v1 k2 v2 :
  k1 ≠ k2 → obj2 k1 v1 k2 v2 !! k1 = Some v1.
Proof.
  intros Hne. unfold obj2.
  by rewrite lookup_insert_ne, lookup_insert_eq.
Qed.

Lemma obj2_lookup_other k1 v1 k2 v2 k :
  k ≠ k1 → k ≠ k2 → obj2 k1 v1 k2 v2 !! k = None.
Proof.
  intros H1 H2. unfold obj2.
  by rewrite !lookup_insert_ne, lookup_empty.
Qed.

(** With equal keys the literal has one property, the second value. *)
Lemma obj2_collision k v1 v2 : obj2 k v1 k v2 = {[ k := v2 ]}.
Proof. unfold obj2. by rewrite insert_insert_eq, insert_empty. Qed.

Lemma obj2_size k1 v1 k2 v2 :
  size (obj2 k1 v1 k2 v2) = if decide (k1 = k2) then 1%nat else 2%nat.
Proof.
  case_decide as E.
  - subst. by rewrite obj2_collision, map_size_singleton.
  - unfold obj2. rewrite map_size_insert_None.
    + by rewrite map_size_insert_None, map_size_empty.
    + rewrite lookup_insert_ne by done. apply lookup_empty.
Qed.

Lemma quantity_obj2_2 k1 v1 k2 v2 : quantity k2 (obj2 k1 v1 k2 v2) = v2.
Proof. unfold quantity. by rewrite obj2_lookup_2. Qed.

Lemma quantity_obj2_1 k1 v1 k2 v2 :
  k1 ≠ k2 → quantity k1 (obj2 k1 v1 k2 v2) = v1.
Proof. intros. unfold quantity. by rewrite obj2_lookup_1. Qed.

Lemma quantity_obj2_other k1 v1 k2 v2 k :
  k ≠ k1 → k ≠ k2 → quantity k (obj2 k1 v1 k2 v2) = 0.
Proof. intros. unfold quantity. by rewrite obj2_lookup_other. Qed.

(** A property of the two entries is a property of the literal. *)
Lemma map_Forall_obj2 (P : string → Z → Prop) k1 v1 k2 v2 :
  P k1 v1 → P k2 v2 → map_Forall P (obj2 k1 v1 k2 v2).
Proof.
  intros H1 H2. unfold obj2.
  by repeat apply map_Forall_insert_2; [..|apply map_Forall_empty].
Qed.

(** The literal of an output is a bundle it can carry exactly when its
    lovelace is positive. *)
Lemma value_ok_obj2 k v q :
  0 < v → value_ok (obj2 k v "lovelace" q) = bool_decide (0 < q).
Proof.
  intros Hv. unfold value_ok. rewrite obj2_lookup_2.
  rewrite (bool_decide_eq_true_2 (is_Some _)), andb_true_r by done.
  apply bool_decide_ext. split.
  - intros H. apply (H "lovelace"), obj2_lookup_2.
  - intros Hq. by apply map_Forall_obj2.
Qed.

Lemma mint_ok_obj2 k1 k2 :
  k1 ≠ "lovelace" → k2 ≠ "lovelace" → mint_ok (obj2 k1 1 k2 1) = true.
Proof. intros. by apply bool_decide_eq_true_2, map_Forall_obj2. Qed.

End obj2.

#[export] Hint Rewrite obj2_lookup_2 quantity_obj2_2 : asteria.
#[export] Hint Rewrite obj2_lookup_1 obj2_lookup_other quantity_obj2_1
  quantity_obj2_other using done : asteria.

(** ** Theorems: token names *)

Section names.
Context {L : LucidLib} {LL : LucidLaws L}.
Implicit Types d : AsteriaDatumT.

(** The text before encoding: a prefix and the decimal counter. *)
Lemma ship_text_ne_pilot_text (n m : Z) :
  "SHIP" +:+ pretty n ≠ "PILOT" +:+ pretty m.
Proof. cbv [String.append]. discriminate. Qed.

(** The ship token name determines the counter it was made from. *)
Lemma shipTokenName_inj d d' :
  shipTokenName d = shipTokenName d' → ship_counter d = ship_counter d'.
Proof.
  unfold shipTokenName. intros E.
  apply fromText_inj, String.app_inj in E. by apply (inj pretty).
Qed.

Lemma pilotTokenName_inj d d' :
  pilotTokenName d = pilotTokenName d' → ship_counter d = ship_counter d'.
Proof.
  unfold pilotTokenName. intros E.
  apply fromText_inj, String.app_inj in E. by apply (inj pretty).
Qed.

(** A ship name is never a pilot name, whatever the two counters. *)
Lemma shipTokenName_ne_pilotTokenName d d' :
  shipTokenName d ≠ pilotTokenName d'.
Proof.
  unfold shipTokenName, pilotTokenName. intros E.
  apply fromText_inj in E. by apply ship_text_ne_pilot_text in E.
Qed.

Lemma shipTokenName_hex d : is_hex (shipTokenName d) = true.
Proof. apply fromText_hex. Qed.

Lemma pilotTokenName_hex d : is_hex (pilotTokenName d) = true.
Proof. apply fromText_hex. Qed.

(** The two units of a ship differ, and determine the counter. *)
Lemma ship_unit_ne_pilot_unit d d' p p' u u' :
  shipTokenUnit d p = Ok u → pilotTokenUnit d' p' = Ok u' → u ≠ u'.
Proof.
  unfold shipTokenUnit, pilotTokenUnit. intros Hs Hp ->.
  destruct (toUnit_inj _ _ _ _ _ Hs Hp) as [_ E].
  by apply shipTokenName_ne_pilotTokenName in E.
Qed.

Lemma shipTokenUnit_inj d d' p p' u :
  shipTokenUnit d p = Ok u → shipTokenUnit d' p' = Ok u →
  p = p' ∧ ship_counter d = ship_counter d'.
Proof.
  unfold shipTokenUnit. intros Hs Hs'.
  destruct (toUnit_inj _ _ _ _ _ Hs Hs') as [-> E].
  eauto using shipTokenName_inj.
Qed.

Lemma pilotTokenUnit_inj d d' p p' u :
  pilotTokenUnit d p = Ok u → pilotTokenUnit d' p' = Ok u →
  p = p' ∧ ship_counter d = ship_counter d'.
Proof.
  unfold pilotTokenUnit. intros Hs Hs'.
  destruct (toUnit_inj _ _ _ _ _ Hs Hs') as [-> E].
  eauto using pilotTokenName_inj.
Qed.

Lemma shipTokenUnit_not_lovelace d p : shipTokenUnit d p ≠ Ok "lovelace".
Proof. apply toUnit_not_lovelace. Qed.

(** C33: the token names are globally unique as long as the counter is
    never reused: the ship and pilot units made from two Asteria states
    with different counters, under any policies, are four different
    units. *)
Theorem ship_tokens_unique d d' p p' s q s' q' :
  shipTokenUnit d p = Ok s → pilotTokenUnit d p = Ok q →
  shipTokenUnit d' p' = Ok s' → pilotTokenUnit d' p' = Ok q' →
  ship_counter d ≠ ship_counter d' → NoDup [s; q; s'; q'].
Proof.
  intros Hs Hq Hs' Hq' Hc.
  assert (s ≠ s')
    by (intros ->; by destruct (shipTokenUnit_inj _ _ _ _ _ Hs Hs')).
  assert (q ≠ q')
    by (intros ->; by destruct (pilotTokenUnit_inj _ _ _ _ _ Hq Hq')).
  pose proof (ship_unit_ne_pilot_unit _ _ _ _ _ _ Hs Hq).
  pose proof (ship_unit_ne_pilot_unit _ _ _ _ _ _ Hs Hq').
  pose proof (ship_unit_ne_pilot_unit _ _ _ _ _ _ Hs' Hq).
  pose proof (ship_unit_ne_pilot_unit _ _ _ _ _ _ Hs' Hq').
  rewrite !NoDup_cons, !not_elem_of_cons, !elem_of_nil.
  split_and!; first [done | by apply not_eq_sym | tauto | apply NoDup_nil_2].
Qed.

End names.

(** ** Theorems: the transaction *)

Section tx.
Context {L : LucidLib} {LL : LucidLaws L}.
Context (admin_token : AssetClassT)
  (ship_mint_lovelace_fee initial_fuel pos_x pos_y : Z).
Context (asteriaRef spacetimeRef asteria : UTxO) (aAddr sAddr : string)
  (d : AsteriaDatumT) (p ua us up : string).

#[local] Abbreviation createShipTx' ada := (createShipTx ship_mint_lovelace_fee
  initial_fuel pos_x pos_y asteriaRef spacetimeRef asteria aAddr sAddr ada d
  ua us up).
#[local] Abbreviation ship_tx' lovelace := (ship_tx ship_mint_lovelace_fee
  initial_fuel pos_x pos_y asteriaRef spacetimeRef asteria aAddr sAddr
  lovelace d ua us up).
#[local] Abbreviation shipDatum' := (shipDatum initial_fuel pos_x pos_y d).

(** The two [payToContract] calls never throw: the datums are not empty. *)
Lemma payToContract_inline addr (x : Data) v tx :
  payToContract addr (inline_datum (Data_to x)) v tx
  = Ok (tx ++ [PayToContract addr (inline_datum (Data_to x)) v]).
Proof.
  unfold payToContract. simpl.
  by rewrite falsy_Some_nonempty by apply Data_to_nonempty.
Qed.

(** The chain yields its five calls, and throws only when the Asteria
    UTxO has no [lovelace] entry. *)
Lemma createShipTx_Ok ada tx :
  createShipTx' ada = Ok tx ↔ ∃ lovelace, ada = Some lovelace ∧ tx = ship_tx' lovelace.
Proof.
  unfold createShipTx, shipDatum, asteriaOutputDatum, Data_to_as.
  rewrite payToContract_inline. simpl. destruct ada as [lovelace|]; simpl.
  - rewrite payToContract_inline. split.
    + intros [= <-]. by exists lovelace.
    + by intros (? & [= <-] & ->).
  - split; [done | by intros (? & [=] & _)].
Qed.

Lemma createShipTx_Err ada e :
  createShipTx' ada = Err e ↔
    ada = None ∧ e = mixed_bigint.
Proof.
  unfold createShipTx, shipDatum, asteriaOutputDatum, Data_to_as.
  rewrite payToContract_inline. simpl. destruct ada as [lovelace|]; simpl.
  - rewrite payToContract_inline. split; [done | by intros [[=] _]].
  - split; [by intros [= <-] | by intros [_ ->]].
Qed.

Section built.
Context (lovelace : Z) (tx : Tx) (Htx : createShipTx' (Some lovelace) = Ok tx).

Lemma built_tx : tx = ship_tx' lovelace.
Proof. apply createShipTx_Ok in Htx as (? & [= <-] & ->). done. Qed.

(** The transaction reads the two reference UTxOs without spending them
    and spends the Asteria UTxO and nothing else. *)
Lemma tx_references_inputs :
  tx_references tx = [asteriaRef; spacetimeRef] ∧ tx_inputs tx = [asteria].
Proof. by rewrite built_tx. Qed.

(** It pays two outputs, the ship's and then Asteria's. *)
Lemma tx_outputs_built :
  tx_outputs tx = [
    (sAddr, inline_datum shipDatum', obj2 us 1 "lovelace" 2000000);
    (aAddr, inline_datum (asteriaOutputDatum d),
     obj2 ua 1 "lovelace" (lovelace + ship_mint_lovelace_fee)) ].
Proof. by rewrite built_tx. Qed.

Lemma tx_minted_built u : tx_minted u tx = quantity u (obj2 us 1 up 1).
Proof. rewrite built_tx. unfold tx_minted. simpl. lia. Qed.

Lemma tx_spent_built u : tx_spent u tx = quantity u (assets asteria).
Proof. rewrite built_tx. unfold tx_spent. simpl. lia. Qed.

Lemma tx_paid_built u :
  tx_paid u tx
  = quantity u (obj2 us 1 "lovelace" 2000000)
    + quantity u (obj2 ua 1 "lovelace" (lovelace + ship_mint_lovelace_fee)).
Proof. rewrite built_tx. unfold tx_paid. simpl. lia. Qed.

Lemma tx_surplus_built u :
  tx_surplus u tx
  = quantity u (assets asteria) + quantity u (obj2 us 1 up 1)
    - quantity u (obj2 us 1 "lovelace" 2000000)
    - quantity u (obj2 ua 1 "lovelace" (lovelace + ship_mint_lovelace_fee)).
Proof.
  unfold tx_surplus. rewrite tx_spent_built, tx_minted_built, tx_paid_built.
  lia.
Qed.

End built.

End tx.

(** ** Theorems: the transition *)

Section ship.
Context {L : LucidLib} {LL : LucidLaws L}.
Context (admin_token : AssetClassT)
  (ship_mint_lovelace_fee initial_fuel pos_x pos_y : Z).
Context (asteriaRef spacetimeRef asteria : UTxO) (aAddr sAddr : string).

(** The datum read from the Asteria UTxO, the policy of the shipyard, the
    three units and the transaction built from them. *)
Context (raw : string) (d : AsteriaDatumT) (p ua us up : string)
  (lovelace : Z) (tx : Tx).
Context (Hd : Data_from_as AsteriaDatum raw = Ok d)
  (Hua : adminTokenUnit admin_token = Ok ua)
  (Hus : shipTokenUnit d p = Ok us)
  (Hup : pilotTokenUnit d p = Ok up)
  (Htx : createShipTx ship_mint_lovelace_fee initial_fuel pos_x pos_y
           asteriaRef spacetimeRef asteria aAddr sAddr (Some lovelace) d
           ua us up = Ok tx).

(** A datum that was decoded has a hex policy: it can be written back. *)
Lemma decoded_policy_hex : is_hex (shipyard_policy d) = true.
Proof using Hd LL.
  unfold Data_from_as in Hd. inv_result.
  match goal with
  | E : Data_from _ = Ok _, C : castFrom _ = Ok _ |- _ =>
      apply Data_from_wf in E; apply castFrom_AsteriaDatum_Ok in C; subst
  end.
  by rewrite <- wf_data_AsteriaDatum.
Qed.

(** The transaction mints exactly one ship token and one pilot token,
    and nothing else: quantity 1 of each of the two units, 0 of every
    other unit. *)
Lemma mints_one_ship_one_pilot :
  tx_minted us tx = 1 ∧ tx_minted up tx = 1
  ∧ ∀ u, u ≠ us → u ≠ up → tx_minted u tx = 0.
Proof using Hus Hup Htx LL.
  pose proof (ship_unit_ne_pilot_unit _ _ _ _ _ _ Hus Hup).
  rewrite !(tx_minted_built _ _ _ _ _ _ _ _ _ _ _ _ _ _ _ Htx).
  split_and!; [(by autorewrite with asteria)..|].
  intros u ??. rewrite (tx_minted_built _ _ _ _ _ _ _ _ _ _ _ _ _ _ _ Htx).
  by autorewrite with asteria.
Qed.

(** The first output goes to the Spacetime address with the ship token
    (1 unit), 2,000,000 lovelace and nothing else, and its inline datum
    decodes to the ship record: the fuel and position given, and the two
    token names made from the counter that was read. *)
Lemma spacetime_output :
  ∃ datum v,
    tx_outputs tx !! 0%nat = Some (sAddr, inline_datum datum, v)
    ∧ Data_from_as ShipDatum datum
      = Ok {| fuel := initial_fuel; Types.pos_x := pos_x; Types.pos_y := pos_y;
              ship_token_name := fromText ("SHIP" +:+ pretty (ship_counter d));
              pilot_token_name := fromText ("PILOT" +:+ pretty (ship_counter d)) |}
    ∧ quantity us v = 1 ∧ quantity "lovelace" v = 2000000
    ∧ ∀ u, u ≠ us → u ≠ "lovelace" → quantity u v = 0.
Proof using Hus Htx LL.
  rewrite (tx_outputs_built _ _ _ _ _ _ _ _ _ _ _ _ _ _ _ Htx).
  eexists _, _. split; [done|].
  assert (us ≠ "lovelace") by (intros ->; by apply shipTokenUnit_not_lovelace in Hus).
  split_and!; [|(by autorewrite with asteria)..|by intros; autorewrite with asteria].
  apply Data_from_as_to. rewrite wf_data_ShipDatum. simpl.
  by rewrite !fromText_hex.
Qed.

(** The second output goes back to the Asteria address with the admin
    token (1 unit), the lovelace of the input plus the fee and nothing
    else, and its inline datum decodes to the state read with the
    counter incremented by one and the policy unchanged. *)
Lemma asteria_output :
  ∃ datum v,
    tx_outputs tx !! 1%nat = Some (aAddr, inline_datum datum, v)
    ∧ Data_from_as AsteriaDatum datum
      = Ok {| ship_counter := ship_counter d + 1;
              shipyard_policy := shipyard_policy d |}
    ∧ quantity ua v = 1
    ∧ quantity "lovelace" v = lovelace + ship_mint_lovelace_fee
    ∧ ∀ u, u ≠ ua → u ≠ "lovelace" → quantity u v = 0.
Proof using Hd Hua Htx LL.
  rewrite (tx_outputs_built _ _ _ _ _ _ _ _ _ _ _ _ _ _ _ Htx).
  eexists _, _. split; [done|].
  assert (ua ≠ "lovelace") by (intros ->; by apply toUnit_not_lovelace in Hua).
  split_and!; [|(by autorewrite with asteria)..|by intros; autorewrite with asteria].
  apply Data_from_as_to. rewrite wf_data_AsteriaDatum. apply decoded_policy_hex.
Qed.

(** The Spacetime output never carries the admin token and the Asteria
    output never carries the ship or the pilot token, when the admin
    token is not one of the two tokens being minted. *)
Lemma outputs_keep_tokens_apart v1 v2 o1 o2 a1 a2 :
  ua ≠ us → ua ≠ up →
  tx_outputs tx = [(a1, o1, v1); (a2, o2, v2)] →
  quantity ua v1 = 0 ∧ quantity us v2 = 0 ∧ quantity up v2 = 0.
Proof using Hua Hus Hup Htx LL.
  intros Hs Hp. rewrite (tx_outputs_built _ _ _ _ _ _ _ _ _ _ _ _ _ _ _ Htx).
  intros [= _ _ <- _ _ <-].
  assert (ua ≠ "lovelace") by (intros ->; by apply toUnit_not_lovelace in Hua).
  assert (us ≠ "lovelace") by (intros ->; by apply toUnit_not_lovelace in Hus).
  assert (up ≠ "lovelace") by (intros ->; by apply toUnit_not_lovelace in Hup).
  by autorewrite with asteria.
Qed.

(** The three units are not [lovelace], and the ship's is not the
    pilot's. *)
Lemma units_apart :
  ua ≠ "lovelace" ∧ us ≠ "lovelace" ∧ up ≠ "lovelace" ∧ us ≠ up.
Proof using Hua Hus Hup LL.
  split_and!; [intros E; rewrite E in Hua; by apply toUnit_not_lovelace in Hua
              |intros E; rewrite E in Hus; by apply toUnit_not_lovelace in Hus
              |intros E; rewrite E in Hup; by apply toUnit_not_lovelace in Hup
              |exact (ship_unit_ne_pilot_unit _ _ _ _ _ _ Hus Hup)].
Qed.

(** What the transaction leaves to the wallet: it takes the 2,000,000
    lovelace of the ship and the fee from it, and gives it the pilot
    token, the admin tokens of the Asteria UTxO but one, and
    everything else the Asteria UTxO held. *)
Lemma value_flow :
  assets asteria !! "lovelace" = Some lovelace →
  tx_surplus "lovelace" tx = - (2000000 + ship_mint_lovelace_fee)
  ∧ (ua ≠ us → ua ≠ up →
     tx_surplus up tx = quantity up (assets asteria) + 1
     ∧ tx_surplus us tx = quantity us (assets asteria)
     ∧ tx_surplus ua tx = quantity ua (assets asteria) - 1
     ∧ ∀ u, u ≠ "lovelace" → u ≠ ua → u ≠ us → u ≠ up →
         tx_surplus u tx = quantity u (assets asteria)).
Proof using Hua Hus Hup Htx LL.
  intros Hada. destruct units_apart as (? & ? & ? & ?).
  assert (quantity "lovelace" (assets asteria) = lovelace)
    by (unfold quantity; by rewrite Hada).
  rewrite !(tx_surplus_built _ _ _ _ _ _ _ _ _ _ _ _ _ _ _ Htx).
  split; [autorewrite with asteria; lia|]. intros ??.
  split_and!; [(autorewrite with asteria; lia)..|].
  intros u ????. rewrite (tx_surplus_built _ _ _ _ _ _ _ _ _ _ _ _ _ _ _ Htx).
  autorewrite with asteria. lia.
Qed.

(** The transaction is well formed exactly when the lovelace of the
    Asteria output is positive: the redeemers and the datums are there,
    and every other quantity is 1 or 2,000,000. *)
Lemma built_well_formed :
  well_formed tx = bool_decide (0 < lovelace + ship_mint_lovelace_fee).
Proof using Hua Hus Hup Htx LL.
  destruct units_apart as (? & ? & ? & ?).
  rewrite (built_tx _ _ _ _ _ _ _ _ _ _ _ _ _ _ _ Htx).
  unfold well_formed, ship_tx, mintRedeemer, addNewShipRedeemer, shipDatum,
    asteriaOutputDatum, Data_to_as. cbn [forallb call_ok inline_datum inline].
  rewrite !falsy_Some_nonempty by apply Data_to_nonempty.
  rewrite mint_ok_obj2, !value_ok_obj2 by done.
  by rewrite !andb_true_r.
Qed.

End ship.

(** ** Theorems: the datums read back *)

Section roundtrip.
Context {L : LucidLib} {LL : LucidLaws L}.
Context (initial_fuel pos_x pos_y : Z).

(** C25: what a run writes, the next run reads.  The datum written for
    the Asteria output of a state that was decoded decodes to that
    state with its counter incremented, the datum written for the ship
    decodes to the ship record, and the datum written is never the
    datum that was read. *)
Theorem datums_roundtrip raw d :
  Data_from_as AsteriaDatum raw = Ok d →
  Data_from_as AsteriaDatum (asteriaOutputDatum d) = Ok (asteriaInfo d)
  ∧ Data_from_as ShipDatum (shipDatum initial_fuel pos_x pos_y d)
    = Ok (shipInfo initial_fuel pos_x pos_y d)
  ∧ asteriaOutputDatum d ≠ raw.
Proof.
  intros Hd.
  assert (Data_from_as AsteriaDatum (asteriaOutputDatum d) = Ok (asteriaInfo d))
    as Hback.
  { apply Data_from_as_to. rewrite wf_data_AsteriaDatum.
    exact (decoded_policy_hex raw d Hd). }
  split_and!; [done| |].
  - apply Data_from_as_to. rewrite wf_data_ShipDatum. simpl.
    by rewrite shipTokenName_hex, pilotTokenName_hex.
  - intros E. rewrite E, Hd in Hback. injection Hback as Hback.
    apply (f_equal ship_counter) in Hback. simpl in Hback. lia.
Qed.

End roundtrip.

(** ** Theorems: the executions of [createShip] *)

Section executions.
Context {L : LucidLib}.
Context (asteriaRefTxHash spacetimeRefTxHash : string)
  (admin_token : AssetClassT)
  (ship_mint_lovelace_fee initial_fuel pos_x pos_y : Z).

Lemma as_Script_Ok x s : as_Script x = Ok s ↔ x = Some s.
Proof. apply or_throw_Ok. Qed.

(** What a run that returned has checked, as equations. *)
Ltac checks_passed :=
  repeat match goal with
  | Hs : runs (fetchReferenceScript _ _) _ (Ok _) |- _ =>
      apply fetchReferenceScript_returns in Hs as (? & -> & _)
  | E : truthy_or _ _ = Ok _ |- _ => apply truthy_or_Ok in E as [E ?]
  | E : as_Script _ = Ok _ |- _ => apply as_Script_Ok in E
  | E : or_throw (_ !! 0%nat) _ = Ok _ |- _ =>
      apply or_throw_Ok, lookup_0_Some in E as [? ->]
  | u : response (SelectWalletFromSeed _ _) |- _ => destruct u
  end.

(** The checks of the transition, one by one. *)
Lemma transition_Ok a tx :
  transition admin_token ship_mint_lovelace_fee initial_fuel pos_x pos_y a
    = Ok tx ↔
    ∃ raw d ua us up,
      datum (a_asteria a) = Some raw ∧ falsy raw = false
      ∧ Data_from_as AsteriaDatum raw = Ok d
      ∧ adminTokenUnit admin_token = Ok ua
      ∧ shipTokenUnit d (mintingPolicyToId (a_spacetimeScript a)) = Ok us
      ∧ pilotTokenUnit d (mintingPolicyToId (a_spacetimeScript a)) = Ok up
      ∧ createShipTx ship_mint_lovelace_fee initial_fuel pos_x pos_y
          (a_asteriaRef a) (a_spacetimeRef a) (a_asteria a)
          (validatorToAddress (a_asteriaScript a))
          (validatorToAddress (a_spacetimeScript a))
          (assets (a_asteria a) !! "lovelace") d ua us up = Ok tx.
Proof.
  unfold transition. split.
  - intros H. inv_result.
    match goal with E : truthy_or _ _ = Ok _ |- _ =>
      apply truthy_or_Ok in E as [? ?] end.
    eauto 12.
  - intros (raw & d & ua & us & up & Hd & Hf & Hfrom & Hua & Hus & Hup & Htx).
    by runs_by_eqs.
Qed.

Lemma createShip_Ok_fwd t h :
  runs (createShip asteriaRefTxHash spacetimeRefTxHash admin_token
          ship_mint_lovelace_fee initial_fuel pos_x pos_y) t (Ok h) →
  ∃ a tx,
    answers_ok a
    ∧ transition admin_token ship_mint_lovelace_fee initial_fuel pos_x pos_y a
      = Ok tx
    ∧ t = success_trace asteriaRefTxHash spacetimeRefTxHash a tx
    ∧ h = a_hash a.
Proof.
  unfold createShip. intros H.
  apply runs_bind_Ok in H as (l & t1 & t2 & Hl & H & ->).
  apply lucidBase_Ok in Hl as (pid & -> & ->).
  runs_Ok H. destruct H as [-> [= ->]]. checks_passed. subst.
  eexists (Build_Answers _ _ _ _ _ _ _ _ _ _ _ _ _), _.
  unfold answers_ok. rewrite transition_Ok. split_and!; simpl.
  5: reflexivity. 5: reflexivity. all: eauto 12.
Qed.

Lemma createShip_Ok_bwd a tx :
  answers_ok a →
  transition admin_token ship_mint_lovelace_fee initial_fuel pos_x pos_y a
  = Ok tx →
  runs (createShip asteriaRefTxHash spacetimeRefTxHash admin_token
          ship_mint_lovelace_fee initial_fuel pos_x pos_y)
    (success_trace asteriaRefTxHash spacetimeRefTxHash a tx) (Ok (a_hash a)).
Proof.
  intros (Hseed & Ha & Hs).
  intros (raw & d & ua & us & up & Hd & Hf & Hfrom & Hua & Hus & Hup & Htx)
    %transition_Ok.
  unfold createShip, lucidBase, fetchReferenceScript, success_trace.
  by runs_by_eqs.
Qed.

(** C1: the runs of [createShip] that return a transaction hash are
    exactly these: the ten calls of [success_trace], in that order and
    each answered with a value; a truthy seed; a script on each reference
    UTxO; a datum on the first UTxO at the Asteria address that decodes
    and yields the transaction [transition] computes, which is the one
    handed to [complete]; the hash returned is the one [submit] gave. *)
Theorem createShip_Ok t h :
  runs (createShip asteriaRefTxHash spacetimeRefTxHash admin_token
          ship_mint_lovelace_fee initial_fuel pos_x pos_y) t (Ok h) ↔
    ∃ a tx,
      answers_ok a
      ∧ transition admin_token ship_mint_lovelace_fee initial_fuel pos_x pos_y a
        = Ok tx
      ∧ t = success_trace asteriaRefTxHash spacetimeRefTxHash a tx
      ∧ h = a_hash a.
Proof.
  split; [apply createShip_Ok_fwd|].
  intros (a & tx & Hok & Htx & -> & ->). by apply createShip_Ok_bwd.
Qed.

(** ** Theorems: failures *)

(** C34: every run of [createShip] ends, after at most ten calls:
    nothing is retried, whatever the environment answers. *)
Theorem createShip_calls t res :
  runs (createShip asteriaRefTxHash spacetimeRefTxHash admin_token
          ship_mint_lovelace_fee initial_fuel pos_x pos_y) t res →
  (length t ≤ 10)%nat.
Proof.
  unfold createShip, lucidBase, fetchReferenceScript. intros H.
  runs_all H; simpl; lia.
Qed.

(** C28: a rejection by the environment is the outcome, unchanged:
    whenever a call of a run of [createShip] was rejected with [e], the
    run failed with [e].  Nothing is caught, wrapped or retried. *)
Theorem rejection_propagates t res e :
  runs (createShip asteriaRefTxHash spacetimeRefTxHash admin_token
          ship_mint_lovelace_fee initial_fuel pos_x pos_y) t res →
  e ∈ rejections t → res = Err e.
Proof.
  unfold createShip, lucidBase, fetchReferenceScript. intros H.
  runs_all H; simpl;
    first [by intros ?%elem_of_nil | by intros ->%list_elem_of_singleton].
Qed.

(** A run that failed has put nothing on the chain: no [submit] of it
    was answered with a hash. *)
Lemma createShip_Err_quiet t e :
  runs (createShip asteriaRefTxHash spacetimeRefTxHash admin_token
          ship_mint_lovelace_fee initial_fuel pos_x pos_y) t (Err e) →
  existsb submitted t = false.
Proof.
  unfold createShip, lucidBase, fetchReferenceScript. intros H.
  remember (Err e) as res eqn:Hres.
  runs_all H; simpl; done.
Qed.

(** C29: a transaction goes to the chain exactly when the run returns: a
    run of [createShip] has a [submit] answered with a hash if and only
    if it ends with a value.  A run that failed has put nothing on the
    chain, and a run that returned has not returned early. *)
Theorem submits_iff_returns t res :
  runs (createShip asteriaRefTxHash spacetimeRefTxHash admin_token
          ship_mint_lovelace_fee initial_fuel pos_x pos_y) t res →
  existsb submitted t = true ↔ is_ok res = true.
Proof.
  destruct res as [h|e]; intros H.
  - by apply createShip_Ok_fwd in H as (a & tx & _ & _ & -> & _).
  - by rewrite (createShip_Err_quiet t e H).
Qed.

(** C5: a run in which the environment has no seed (or an empty one)
    fails with the seed error after exactly three calls: the two of
    [lucidBase] and the read of [SEED].  No wallet is selected, nothing
    is looked up, built, signed or submitted. *)
Theorem missing_seed_aborts t res seed :
  runs (createShip asteriaRefTxHash spacetimeRefTxHash admin_token
          ship_mint_lovelace_fee initial_fuel pos_x pos_y) t res → ("SEED", seed) ∈ env_reads t →
  falsy seed = true →
  res = Err missing_seed ∧ ∃ pid, t = no_seed_trace pid seed.
Proof.
  unfold createShip, lucidBase, fetchReferenceScript, no_seed_trace.
  intros H Hin Hs.
  runs_all H; simpl in Hin; set_unfold in Hin; destruct_or?; simplify_eq;
    try done.
  all: try (apply truthy_or_Ok in E as [-> ?]; rewrite falsy_Some in Hs;
            congruence).
  apply truthy_or_Err in E as [_ ->]. destruct ans0. eauto.
Qed.

(** C26: a reference UTxO without a script aborts the run.  When a
    lookup of a reference returned a first UTxO that carries no script,
    the run fails with the missing-validator error right after that
    lookup, its fifth call or its sixth: nothing is minted, spent,
    balanced, signed or submitted. *)
Theorem missing_script_aborts t res refs u more :
  runs (createShip asteriaRefTxHash spacetimeRefTxHash admin_token
          ship_mint_lovelace_fee initial_fuel pos_x pos_y) t res →
  (refs, u :: more) ∈ ref_lookups t → scriptRef u = None →
  res = Err missing_validator
  ∧ last (ref_lookups t) = Some (refs, u :: more)
  ∧ (∃ l, last (requests t) = Some (UtxosByOutRef l refs))
  ∧ (5 ≤ length t ≤ 6)%nat
  ∧ existsb on_transaction (requests t) = false.
Proof.
  unfold createShip, lucidBase, fetchReferenceScript.
  intros H Hin Hs.
  runs_all H; simpl in Hin; set_unfold in Hin; destruct_or?; simplify_eq;
    try done.
  all: simpl in *; simplify_eq;
    try (rewrite Hs in *; simpl in *; congruence).
  all: split_and!; eauto; lia.
Qed.

(** C27: an Asteria UTxO without a datum aborts the run.  When the
    lookup at the Asteria address returned a first UTxO whose datum is
    missing or empty, the run fails with the missing-datum error right
    after that lookup, its seventh call: nothing is decoded, built,
    balanced, signed or submitted. *)
Theorem missing_datum_aborts t res addr u more :
  runs (createShip asteriaRefTxHash spacetimeRefTxHash admin_token
          ship_mint_lovelace_fee initial_fuel pos_x pos_y) t res →
  (addr, u :: more) ∈ address_lookups t → falsy (datum u) = true →
  res = Err missing_datum
  ∧ (∃ l, last (requests t) = Some (UtxosAt l addr))
  ∧ length t = 7%nat
  ∧ existsb on_transaction (requests t) = false.
Proof.
  unfold createShip, lucidBase, fetchReferenceScript.
  intros H Hin Hs.
  runs_all H; simpl in Hin; set_unfold in Hin; destruct_or?; simplify_eq;
    try done.
  all: simpl in *; simplify_eq.
  all: try (match goal with
            | E : truthy_or (datum _) _ = Ok _ |- _ =>
                apply truthy_or_Ok in E as [E ?]; rewrite E, falsy_Some in Hs;
                congruence
            end).
  all: match goal with
       | E : truthy_or (datum _) _ = Err _ |- _ =>
           apply truthy_or_Err in E as [_ ->]
       end.
  all: split_and!; eauto.
Qed.

End executions.

(** ** Theorems: what a run that returned has built *)

Section outcome.
Context {L : LucidLib} {LL : LucidLaws L}.
Context (asteriaRefTxHash spacetimeRefTxHash : string)
  (admin_token : AssetClassT)
  (ship_mint_lovelace_fee initial_fuel pos_x pos_y : Z).
Implicit Types (a : Answers) (d : AsteriaDatumT) (tx : Tx).


(** Everything a run that returned went through: the answers, the state
    and the balance it read, the three units, and the chain of builder
    calls that did not throw. *)
Lemma createShip_built t h :
  runs (createShip asteriaRefTxHash spacetimeRefTxHash admin_token
          ship_mint_lovelace_fee initial_fuel pos_x pos_y) t (Ok h) →
  ∃ a tx raw d lovelace ua us up,
    t = success_trace asteriaRefTxHash spacetimeRefTxHash a tx ∧ h = a_hash a
    ∧ reads a raw d lovelace
    ∧ adminTokenUnit admin_token = Ok ua
    ∧ shipTokenUnit d (mintingPolicyToId (a_spacetimeScript a)) = Ok us
    ∧ pilotTokenUnit d (mintingPolicyToId (a_spacetimeScript a)) = Ok up
    ∧ createShipTx ship_mint_lovelace_fee initial_fuel pos_x pos_y
        (a_asteriaRef a) (a_spacetimeRef a) (a_asteria a)
        (validatorToAddress (a_asteriaScript a))
        (validatorToAddress (a_spacetimeScript a))
        (Some lovelace) d ua us up = Ok tx.
Proof using LL.
  intros (a & tx & _ & Htx & -> & ->)%createShip_Ok_fwd.
  apply transition_Ok in Htx
    as (raw & d & ua & us & up & Hd & _ & Hfrom & Hua & Hus & Hup & Htx).
  pose proof Htx as (lovelace & Hada & _)%createShipTx_Ok.
  rewrite Hada in Htx. unfold reads. eauto 20.
Qed.

(** The transaction spends the Asteria UTxO read, and refers to the two
    reference UTxOs. *)
Lemma transition_spends a tx :
  transition admin_token ship_mint_lovelace_fee initial_fuel pos_x pos_y a
  = Ok tx →
  tx_inputs tx = [a_asteria a]
  ∧ tx_references tx = [a_asteriaRef a; a_spacetimeRef a].
Proof using LL.
  intros (raw & d & ua & us & up & _ & _ & _ & _ & _ & _ & Htx)%transition_Ok.
  by apply createShipTx_Ok in Htx as (lovelace & _ & ->).
Qed.

(** C2: a run that returned has built one transition of the Asteria
    state: its transaction spends the Asteria UTxO it read, and pays
    back to the Asteria address a datum that decodes to the state read
    with the counter incremented by exactly one and the policy
    unchanged, with one admin token, the balance read plus the fee, and
    nothing else. *)
Theorem createShip_increments_counter t h :
  runs (createShip asteriaRefTxHash spacetimeRefTxHash admin_token
          ship_mint_lovelace_fee initial_fuel pos_x pos_y) t (Ok h) →
  ∃ a tx raw d lovelace ua datum v,
    t = success_trace asteriaRefTxHash spacetimeRefTxHash a tx ∧ reads a raw d lovelace
    ∧ adminTokenUnit admin_token = Ok ua
    ∧ tx_inputs tx = [a_asteria a]
    ∧ tx_outputs tx !! 1%nat
      = Some (validatorToAddress (a_asteriaScript a), inline_datum datum, v)
    ∧ Data_from_as AsteriaDatum datum
      = Ok {| ship_counter := ship_counter d + 1;
              shipyard_policy := shipyard_policy d |}
    ∧ quantity ua v = 1
    ∧ quantity "lovelace" v = lovelace + ship_mint_lovelace_fee
    ∧ ∀ u, u ≠ ua → u ≠ "lovelace" → quantity u v = 0.
Proof using LL.
  intros (a & tx & raw & d & lovelace & ua & us & up & -> & _ & Hr & Hua & Hus
          & Hup & Htx)%createShip_built.
  edestruct asteria_output as (datum & v & ?);
    [exact (proj1 (proj2 Hr)) | exact Hua | exact Htx |].
  edestruct tx_references_inputs as [_ ?]; [exact Htx|].
  exists a, tx, raw, d, lovelace, ua, datum, v. destruct_and!. by split_and!.
Qed.

(** C3: a run that returned has minted exactly one ship token and one
    pilot token, and nothing else, under the policy of the Spacetime
    script, with the names [SHIP<n>] and [PILOT<n>] of the counter [n]
    it read: the counter before the increment. *)
Theorem createShip_mints t h :
  runs (createShip asteriaRefTxHash spacetimeRefTxHash admin_token
          ship_mint_lovelace_fee initial_fuel pos_x pos_y) t (Ok h) →
  ∃ a tx raw d lovelace us up,
    t = success_trace asteriaRefTxHash spacetimeRefTxHash a tx ∧ reads a raw d lovelace
    ∧ toUnit (mintingPolicyToId (a_spacetimeScript a))
        (fromText ("SHIP" +:+ pretty (ship_counter d))) = Ok us
    ∧ toUnit (mintingPolicyToId (a_spacetimeScript a))
        (fromText ("PILOT" +:+ pretty (ship_counter d))) = Ok up
    ∧ tx_minted us tx = 1 ∧ tx_minted up tx = 1
    ∧ ∀ u, u ≠ us → u ≠ up → tx_minted u tx = 0.
Proof using LL.
  intros (a & tx & raw & d & lovelace & ua & us & up & -> & _ & Hr & Hua & Hus
          & Hup & Htx)%createShip_built.
  edestruct mints_one_ship_one_pilot as (? & ? & ?);
    [exact Hus | exact Hup | exact Htx |].
  exists a, tx, raw, d, lovelace, us, up. by split_and!.
Qed.

(** C4: a run that returned has created the ship: the first output of
    its transaction goes to the Spacetime address with one ship token,
    2,000,000 lovelace and nothing else, and its inline datum decodes to
    the ship record with the fuel and the position given and the two
    names of the counter read. *)
Theorem createShip_ship_output t h :
  runs (createShip asteriaRefTxHash spacetimeRefTxHash admin_token
          ship_mint_lovelace_fee initial_fuel pos_x pos_y) t (Ok h) →
  ∃ a tx raw d lovelace us datum v,
    t = success_trace asteriaRefTxHash spacetimeRefTxHash a tx ∧ reads a raw d lovelace
    ∧ shipTokenUnit d (mintingPolicyToId (a_spacetimeScript a)) = Ok us
    ∧ tx_outputs tx !! 0%nat
      = Some (validatorToAddress (a_spacetimeScript a), inline_datum datum, v)
    ∧ Data_from_as ShipDatum datum
      = Ok {| fuel := initial_fuel; Types.pos_x := pos_x; Types.pos_y := pos_y;
              ship_token_name := fromText ("SHIP" +:+ pretty (ship_counter d));
              pilot_token_name := fromText ("PILOT" +:+ pretty (ship_counter d)) |}
    ∧ quantity us v = 1 ∧ quantity "lovelace" v = 2000000
    ∧ ∀ u, u ≠ us → u ≠ "lovelace" → quantity u v = 0.
Proof using LL.
  intros (a & tx & raw & d & lovelace & ua & us & up & -> & _ & Hr & Hua & Hus
          & Hup & Htx)%createShip_built.
  edestruct spacetime_output as (datum & v & ?); [exact Hus | exact Htx |].
  exists a, tx, raw, d, lovelace, us, datum, v. destruct_and!. by split_and!.
Qed.

(** C23: what a run that returned leaves to the wallet.  The calls pay
    out 2,000,000 lovelace and the fee more than they spend, which
    [complete()] takes from the wallet; and when the admin token is
    none of the two minted, they leave to the wallet the pilot token,
    the admin tokens of the Asteria UTxO but one, and everything else
    the Asteria UTxO held: only lovelace and one admin token go back to
    the Asteria address. *)
Theorem createShip_value_flow t h :
  runs (createShip asteriaRefTxHash spacetimeRefTxHash admin_token
          ship_mint_lovelace_fee initial_fuel pos_x pos_y) t (Ok h) →
  ∃ a tx raw d lovelace ua us up,
    t = success_trace asteriaRefTxHash spacetimeRefTxHash a tx
    ∧ reads a raw d lovelace
    ∧ adminTokenUnit admin_token = Ok ua
    ∧ shipTokenUnit d (mintingPolicyToId (a_spacetimeScript a)) = Ok us
    ∧ pilotTokenUnit d (mintingPolicyToId (a_spacetimeScript a)) = Ok up
    ∧ tx_surplus "lovelace" tx = - (2000000 + ship_mint_lovelace_fee)
    ∧ (ua ≠ us → ua ≠ up →
       tx_surplus up tx = quantity up (assets (a_asteria a)) + 1
       ∧ tx_surplus us tx = quantity us (assets (a_asteria a))
       ∧ tx_surplus ua tx = quantity ua (assets (a_asteria a)) - 1
       ∧ ∀ u, u ≠ "lovelace" → u ≠ ua → u ≠ us → u ≠ up →
           tx_surplus u tx = quantity u (assets (a_asteria a))).
Proof using LL.
  intros (a & tx & raw & d & lovelace & ua & us & up & -> & _ & Hr & Hua & Hus
          & Hup & Htx)%createShip_built.
  edestruct value_flow as [? ?];
    [exact Hua | exact Hus | exact Hup | exact Htx | exact (proj2 (proj2 Hr)) |].
  exists a, tx, raw, d, lovelace, ua, us, up. by split_and!.
Qed.

(** C24: the transaction a run that returned handed to [complete()] is
    well formed, with a redeemer on the mint and on the input, an
    inline datum and a bundle of positive quantities with lovelace on
    both outputs, exactly when the balance it read plus the fee is
    positive. *)
Theorem createShip_well_formed t h :
  runs (createShip asteriaRefTxHash spacetimeRefTxHash admin_token
          ship_mint_lovelace_fee initial_fuel pos_x pos_y) t (Ok h) →
  ∃ a tx lovelace,
    t = success_trace asteriaRefTxHash spacetimeRefTxHash a tx
    ∧ assets (a_asteria a) !! "lovelace" = Some lovelace
    ∧ (well_formed tx = true ↔ 0 < lovelace + ship_mint_lovelace_fee).
Proof using LL.
  intros (a & tx & raw & d & lovelace & ua & us & up & -> & _ & Hr & Hua & Hus
          & Hup & Htx)%createShip_built.
  exists a, tx, lovelace. split_and!; [done | exact (proj2 (proj2 Hr)) |].
  erewrite built_well_formed; [apply bool_decide_eq_true | exact Hua
                              | exact Hus | exact Hup | exact Htx].
Qed.

End outcome.

(** ** Theorems: what a failure can be *)

Section diagnosis.
Context {L : LucidLib} {LL : LucidLaws L}.
Context (asteriaRefTxHash spacetimeRefTxHash : string)
  (admin_token : AssetClassT)
  (ship_mint_lovelace_fee initial_fuel pos_x pos_y : Z).

(** C30: a run in which no call was rejected fails only with one of the
    six exceptions of [own_errors], or with what the library threw when
    decoding the datum or when building an asset unit.  In particular
    the missing [type] of a script reference and the missing output
    datum are never the failure. *)
Theorem createShip_errors t e :
  runs (createShip asteriaRefTxHash spacetimeRefTxHash admin_token
          ship_mint_lovelace_fee initial_fuel pos_x pos_y) t (Err e) →
  rejections t = [] →
  e ∈ own_errors ∨ (∃ raw, Data_from_as AsteriaDatum raw = Err e)
  ∨ (∃ policy name, toUnit policy name = Err e).
Proof.
  unfold createShip, lucidBase, fetchReferenceScript. intros H.
  remember (Err e) as res eqn:Hres.
  runs_all H; simpl; intros Hrej; simplify_eq.
  all: repeat match goal with
    | E : truthy_or _ _ = Err _ |- _ => apply truthy_or_Err in E as [_ ->]
    | E : or_throw _ _ = Err _ |- _ => apply or_throw_Err in E as [_ ->]
    | E : createShipTx _ _ _ _ _ _ _ _ _ _ _ _ _ _ = Err _ |- _ =>
        apply createShipTx_Err in E as [_ ->]
    | E : as_Script _ = Err _, E' : falsy_object _ = false |- _ =>
        apply falsy_object_false in E' as [? E']; by rewrite E' in E
    end.
  all: try (left; unfold own_errors; set_solver).
  all: unfold adminTokenUnit, shipTokenUnit, pilotTokenUnit in *; eauto.
Qed.

End diagnosis.
