(* ===== verification/Hex.v ===== *)
(** * Hex: byte strings and their hexadecimal text

    Lucid passes byte strings around as hex text: [fromText] turns a text
    into the hex of its UTF-8 bytes, [toHex] and [fromHex] convert
    between a [Uint8Array] and hex.  A byte string is a [string] here (a
    list of 8-bit characters), so a text and its UTF-8 bytes are the same
    value.  The theorems are the two round trips, that [toHex] writes
    exactly the strings [is_hex] accepts, and the lengths. *)

From stdpp Require Import base tactics numbers option list sets strings.
From Stdlib Require Import NArith ZArith Lia.
From S2P Require Import Prelude Lucid.

#[local] Open Scope N_scope.

(** The digit of a value below 16, lower case. *)
Definition hex_digit (n : N) : Ascii.ascii :=
  Ascii.ascii_of_N (if n <? 10 then 48 + n else 87 + n).

(** The value of a lower-case digit. *)
Definition hex_value (a : Ascii.ascii) : option N :=
  let n := Ascii.N_of_ascii a in
  if (48 <=? n) && (n <=? 57) then Some (n - 48)
  else if (97 <=? n) && (n <=? 102) then Some (n - 87)
  else None.

(** [toHex(bytes)] *)
Fixpoint toHex (bytes : string) : string :=
  match bytes with
  | "" => ""
  | String a s =>
      let n := Ascii.N_of_ascii a in
      String (hex_digit (n / 16)) (String (hex_digit (n mod 16)) (toHex s))
  end.

(** [fromHex(hex)], undefined on what is not hex. *)
Fixpoint fromHex (h : string) : option string :=
  match h with
  | "" => Some ""
  | String a (String b s) =>
      hi ← hex_value a; lo ← hex_value b; rest ← fromHex s;
      Some (String (Ascii.ascii_of_N (16 * hi + lo)) rest)
  | String _ "" => None
  end.

(** ** Theorems *)

(** Induction on a string two characters at a time. *)
Lemma string_pair_ind (P : string → Prop) :
  P "" → (∀ a, P (String a "")) →
  (∀ a b s, P s → P (String a (String b s))) → ∀ s, P s.
Proof.
  intros H0 H1 H2. fix IH 1. intros [|a [|b s]]; [done..|]. apply H2, IH.
Qed.

Lemma hex_value_spec a n :
  hex_value a = Some n → n < 16 ∧ hex_digit n = a.
Proof.
  unfold hex_value, hex_digit. generalize (Ascii.ascii_N_embedding a).
  generalize (Ascii.N_of_ascii a). intros m <-.
  repeat case_match; intros [= <-]; try done;
    repeat match goal with
      | H : _ && _ = true |- _ => apply andb_true_iff in H as [?%N.leb_le ?%N.leb_le]
      | H : (_ <? _) = _ |- _ => first [apply N.ltb_lt in H | apply N.ltb_ge in H]
      end;
    (split; [lia | f_equal; lia]).
Qed.

Lemma hex_value_digit n : n < 16 → hex_value (hex_digit n) = Some n.
Proof.
  intros Hn. assert (Hc : n ∈ N.of_nat <$> seq 0 16).
  { apply list_elem_of_fmap. exists (N.to_nat n). split; [lia|].
    apply elem_of_seq. lia. }
  vm_compute in Hc. set_unfold in Hc. destruct_or?; by subst.
Qed.

Lemma is_hex_digit_value a : is_hex_digit a = true ↔ is_Some (hex_value a).
Proof.
  destruct a as [[] [] [] [] [] [] [] []]; vm_compute; split;
    first [done | by eexists | by intros [? [=]]].
Qed.

Lemma byte_split (a : Ascii.ascii) :
  Ascii.ascii_of_N (16 * (Ascii.N_of_ascii a / 16) + Ascii.N_of_ascii a mod 16)
  = a.
Proof.
  rewrite <- N.div_mod by done. apply Ascii.ascii_N_embedding.
Qed.

Lemma byte_join hi lo :
  hi < 16 → lo < 16 →
  Ascii.N_of_ascii (Ascii.ascii_of_N (16 * hi + lo)) / 16 = hi
  ∧ Ascii.N_of_ascii (Ascii.ascii_of_N (16 * hi + lo)) mod 16 = lo.
Proof.
  intros Hhi Hlo. rewrite Ascii.N_ascii_embedding by lia. split.
  - symmetry. apply (N.div_unique _ _ _ lo); lia.
  - symmetry. apply (N.mod_unique _ _ hi); lia.
Qed.

Lemma byte_lt_256 (a : Ascii.ascii) : Ascii.N_of_ascii a < 256.
Proof. apply Ascii.N_ascii_bounded. Qed.

(** No digit is the letter [t]. *)
Lemma hex_digit_lt_t n : n < 16 → Ascii.N_of_ascii (hex_digit n) < 116.
Proof.
  intros Hn. unfold hex_digit.
  destruct (N.ltb_spec n 10); rewrite Ascii.N_ascii_embedding; lia.
Qed.

(** Reading back what [toHex] wrote. *)
Lemma fromHex_toHex bytes : fromHex (toHex bytes) = Some bytes.
Proof.
  induction bytes as [|a s IH]; [done|]. simpl.
  pose proof (byte_lt_256 a) as Ha.
  assert (Ascii.N_of_ascii a / 16 < 16)
    by (apply N.Div0.div_lt_upper_bound; lia).
  assert (Ascii.N_of_ascii a mod 16 < 16) by (by apply N.mod_lt).
  rewrite !hex_value_digit, IH by done. simpl. by rewrite byte_split.
Qed.

(** What [fromHex] reads is what [toHex] writes: hex text is canonical. *)
Lemma toHex_fromHex h bytes : fromHex h = Some bytes → toHex bytes = h.
Proof.
  revert bytes. induction h as [|a|a b s IH] using string_pair_ind;
    intros bytes; simpl; [by intros [= <-] | done |].
  destruct (hex_value a) as [hi|] eqn:Ea; [|done].
  destruct (hex_value b) as [lo|] eqn:Eb; [|done].
  destruct (fromHex s) as [rest|] eqn:Es; [|done]. simpl. intros [= <-].
  apply hex_value_spec in Ea as [Hhi <-], Eb as [Hlo <-]. simpl.
  destruct (byte_join hi lo Hhi Hlo) as [-> ->].
  f_equal. f_equal. by apply IH.
Qed.

Lemma toHex_inj : Inj (=) (=) toHex.
Proof.
  intros x y E. apply (f_equal fromHex) in E.
  rewrite !fromHex_toHex in E. by injection E.
Qed.

(** [is_hex] accepts exactly what [fromHex] reads. *)
Lemma is_hex_fromHex h : is_hex h = true ↔ is_Some (fromHex h).
Proof.
  induction h as [|a|a b s IH] using string_pair_ind; simpl;
    [by split; [eexists|] | by split; [|intros [? [=]]] |].
  rewrite !andb_true_iff, !is_hex_digit_value, IH.
  destruct (hex_value a), (hex_value b), (fromHex s); simpl; split; intros H;
    repeat match goal with
      | H : _ ∧ _ |- _ => destruct H
      | H : is_Some None |- _ => by destruct H
      end;
    repeat split; by eexists.
Qed.

Lemma is_hex_toHex bytes : is_hex (toHex bytes) = true.
Proof. apply is_hex_fromHex. rewrite fromHex_toHex. by eexists. Qed.

(** Hex text is the [toHex] of some bytes. *)
Lemma is_hex_inv h : is_hex h = true → ∃ bytes, h = toHex bytes.
Proof.
  intros [bytes E]%is_hex_fromHex. exists bytes.
  symmetry. by apply toHex_fromHex.
Qed.

Lemma toHex_length bytes :
  String.length (toHex bytes) = (2 * String.length bytes)%nat.
Proof. induction bytes as [|a s IH]; simpl; lia. Qed.

Lemma toHex_app b1 b2 : toHex (b1 +:+ b2) = toHex b1 +:+ toHex b2.
Proof.
  induction b1 as [|a s IH]; [done|].
  rewrite string_app_cons. simpl. rewrite !string_app_cons. by rewrite IH.
Qed.

Lemma toHex_nonempty bytes : bytes ≠ "" → toHex bytes ≠ "".
Proof. by destruct bytes. Qed.
