(* ===== verification/Cbor.v ===== *)
(** * Cbor: the CBOR encoding of Plutus data

    [Data.to] serialises Plutus data to CBOR and prints it as hex;
    [Data.from] parses it back.  This file is a reference codec for the
    format: unsigned and negative integers (major types 0 and 1, with
    bignums under tags 2 and 3 beyond 64 bits), byte strings (major type
    2), lists (major type 4, written with indefinite length and a break
    when not empty, read in both forms), maps (major type 5) and
    constructor applications (tags 121-127, 1280-1400 and the general
    tag 102).  Byte strings are written in one definite-length chunk.

    [encode] is structural; [decode] takes fuel for the nesting depth.
    The theorems: the reader reads back what the writer wrote, whatever
    follows it in the input ([decode_encode]); the length of the input is
    enough fuel; what the reader returns is well formed. *)

From stdpp Require Import base tactics numbers option list strings.
From Stdlib Require Import NArith ZArith Lia.
From S2P Require Import Prelude Lucid Hex.

#[local] Open Scope Z_scope.

(** ** Bytes *)

Abbreviation bytes := (list Ascii.ascii).

Definition byte (n : Z) : Ascii.ascii := Ascii.ascii_of_N (Z.to_N (n mod 256)).
Definition byte_value (a : Ascii.ascii) : Z := Z.of_N (Ascii.N_of_ascii a).

(** [k] bytes of [n], most significant first. *)
Fixpoint be_bytes (k : nat) (n : Z) : bytes :=
  match k with
  | O => []
  | S k => byte (n / 256 ^ Z.of_nat k) :: be_bytes k n
  end.

Definition be_value (b : bytes) : Z :=
  foldl (λ acc a, acc * 256 + byte_value a) 0 b.

(** The number of bytes of a positive number. *)
Definition nbytes (n : Z) : nat := Z.to_nat (Z.log2 n / 8 + 1).

Definition truncated : error := Error "Deserialization failed: unexpected end of input".
Definition malformed : error := Error "Deserialization failed: unexpected item".
Definition too_deep : error := Error "Deserialization failed: nesting too deep".

(** The next [n] bytes of the input, and what follows them. *)
Definition take_bytes (n : Z) (s : bytes) : result (bytes * bytes) :=
  if decide (0 ≤ n ≤ Z.of_nat (length s))
  then Ok (take (Z.to_nat n) s, drop (Z.to_nat n) s)
  else Err truncated.

(** ** Heads *)

(** The argument of a head: a number, or the mark of indefinite length. *)
Inductive arg := Arg (n : Z) | Indef.

#[export] Instance arg_eq_dec : EqDecision arg.
Proof. solve_decision. Defined.

(** The head of an item of major type [major] with argument [n], in the
    shortest form. *)
Definition head (major n : Z) : bytes :=
  if n <? 24 then [byte (32 * major + n)]
  else if n <? 2 ^ 8 then byte (32 * major + 24) :: be_bytes 1 n
  else if n <? 2 ^ 16 then byte (32 * major + 25) :: be_bytes 2 n
  else if n <? 2 ^ 32 then byte (32 * major + 26) :: be_bytes 4 n
  else byte (32 * major + 27) :: be_bytes 8 n.

Definition head_indef (major : Z) : bytes := [byte (32 * major + 31)].
Definition break : Ascii.ascii := byte 255.

(** The width of the argument that follows the first byte. *)
Definition arg_width (info : Z) : Z :=
  if info =? 24 then 1 else if info =? 25 then 2
  else if info =? 26 then 4 else 8.

Definition read_head (s : bytes) : result (Z * arg * bytes) :=
  match s with
  | [] => Err truncated
  | a :: s =>
      let major := byte_value a / 32 in
      let info := byte_value a mod 32 in
      if info <? 24 then Ok (major, Arg info, s)
      else if info =? 31 then Ok (major, Indef, s)
      else if info <? 28 then
        '(b, s) ← take_bytes (arg_width info) s;
        Ok (major, Arg (be_value b), s)
      else Err malformed
  end.

(** ** The writer *)

(** A byte string of at most 64 bytes is one definite item; a longer one
    is cut in chunks of 64 bytes between the indefinite head and the
    break. *)
Definition encode_chunk (c : bytes) : bytes :=
  head 2 (Z.of_nat (length c)) ++ c.

Fixpoint chunks (fuel : nat) (b : bytes) : list bytes :=
  match fuel with
  | O => []
  | S fuel =>
      if decide (length b ≤ 64)%nat then [b]
      else take 64 b :: chunks fuel (drop 64 b)
  end.

Definition encode_bytes (b : bytes) : bytes :=
  if decide (length b ≤ 64)%nat then encode_chunk b
  else head_indef 2 ++ concat (encode_chunk <$> chunks (length b) b) ++ [break].

Definition encode_integer (n : Z) : bytes :=
  if 0 <=? n then
    if n <? 2 ^ 64 then head 0 n
    else head 6 2 ++ encode_bytes (be_bytes (nbytes n) n)
  else
    if - 2 ^ 64 <=? n then head 1 (-1 - n)
    else head 6 3 ++ encode_bytes (be_bytes (nbytes (-1 - n)) (-1 - n)).

(** A list of items already encoded: empty as a definite array, the
    others between the indefinite head and the break. *)
Definition encode_array (items : list bytes) : bytes :=
  match items with
  | [] => head 4 0
  | _ => head_indef 4 ++ concat items ++ [break]
  end.

(** The tag of a constructor, and for the general form the index. *)
Definition encode_constr (i : Z) : bytes :=
  if i <? 7 then head 6 (121 + i)
  else if i <? 128 then head 6 (1280 + (i - 7))
  else head 6 102 ++ head 4 2 ++ encode_integer i.

Definition hex_bytes (h : string) : bytes :=
  String.list_ascii_of_string (default "" (fromHex h)).

Definition bytes_hex (b : bytes) : string :=
  toHex (String.string_of_list_ascii b).

Fixpoint encode (d : Data) : bytes :=
  match d with
  | DInteger n => encode_integer n
  | DBytes h => encode_bytes (hex_bytes h)
  | DList l => encode_array (encode <$> l)
  | DMap m =>
      head 5 (Z.of_nat (length m))
      ++ concat ((λ e, encode e.1 ++ encode e.2) <$> m)
  | Constr i l => encode_constr i ++ encode_array (encode <$> l)
  end.

(** ** The reader *)

Section items.
Context (item : bytes → result (Data * bytes)).

Fixpoint decode_n (n : nat) (s : bytes) : result (list Data * bytes) :=
  match n with
  | O => Ok ([], s)
  | S n =>
      '(d, s) ← item s;
      '(l, s) ← decode_n n s;
      Ok (d :: l, s)
  end.

Fixpoint decode_until_break (fuel : nat) (s : bytes)
    : result (list Data * bytes) :=
  match fuel, s with
  | O, _ | _, [] => Err truncated
  | S fuel, a :: s' =>
      if decide (a = break) then Ok ([], s')
      else
        '(d, s) ← item s;
        '(l, s) ← decode_until_break fuel s;
        Ok (d :: l, s)
  end.

Fixpoint decode_pairs (n : nat) (s : bytes)
    : result (list (Data * Data) * bytes) :=
  match n with
  | O => Ok ([], s)
  | S n =>
      '(k, s) ← item s;
      '(v, s) ← item s;
      '(m, s) ← decode_pairs n s;
      Ok ((k, v) :: m, s)
  end.

(** The items of an array whose head has been read.  A count larger
    than what is left of the input is refused before anything is read. *)
Definition decode_array (a : arg) (s : bytes) : result (list Data * bytes) :=
  match a with
  | Arg n =>
      if decide (n ≤ Z.of_nat (length s)) then decode_n (Z.to_nat n) s
      else Err truncated
  | Indef => decode_until_break (length s) s
  end.

Definition decode_list (s : bytes) : result (list Data * bytes) :=
  '(major, a, s) ← read_head s;
  if major =? 4 then decode_array a s else Err malformed.

Definition decode_map (a : arg) (s : bytes)
    : result (list (Data * Data) * bytes) :=
  match a with
  | Arg n =>
      if decide (n ≤ Z.of_nat (length s)) then decode_pairs (Z.to_nat n) s
      else Err truncated
  | Indef => Err malformed
  end.

End items.

(** The chunks of a byte string up to the break. *)
Fixpoint decode_chunks (fuel : nat) (s : bytes) : result (bytes * bytes) :=
  match fuel, s with
  | O, _ | _, [] => Err truncated
  | S fuel, a :: s' =>
      if decide (a = break) then Ok ([], s')
      else
        '(major, a, s) ← read_head s;
        match a with
        | Arg n =>
            if major =? 2 then
              '(c, s) ← take_bytes n s;
              '(b, s) ← decode_chunks fuel s;
              Ok (c ++ b, s)
            else Err malformed
        | Indef => Err malformed
        end
  end.

(** The content of a byte string whose head has been read. *)
Definition decode_string (a : arg) (s : bytes) : result (bytes * bytes) :=
  match a with
  | Arg n => take_bytes n s
  | Indef => decode_chunks (length s) s
  end.

(** A byte string or an integer, where the format asks for one. *)
Definition decode_bytes (s : bytes) : result (bytes * bytes) :=
  '(major, a, s) ← read_head s;
  if major =? 2 then decode_string a s else Err malformed.

Definition decode_integer (major n : Z) (s : bytes) : result (Z * bytes) :=
  if major =? 0 then Ok (n, s)
  else if major =? 1 then Ok (-1 - n, s)
  else if (major =? 6) && (n =? 2) then
    '(b, s) ← decode_bytes s; Ok (be_value b, s)
  else if (major =? 6) && (n =? 3) then
    '(b, s) ← decode_bytes s; Ok (-1 - be_value b, s)
  else Err malformed.

(** The index of a constructor from its tag [t]. *)
Definition decode_constr (t : Z) (s : bytes) : result (Z * bytes) :=
  if (121 <=? t) && (t <=? 127) then Ok (t - 121, s)
  else if (1280 <=? t) && (t <=? 1400) then Ok (t - 1280 + 7, s)
  else if t =? 102 then
    '(major, a, s) ← read_head s;
    if (major =? 4) && bool_decide (a = Arg 2) then
      '(major, a, s) ← read_head s;
      match a with
      | Arg n =>
          '(i, s) ← decode_integer major n s;
          if 0 <=? i then Ok (i, s) else Err malformed
      | Indef => Err malformed
      end
    else Err malformed
  else Err malformed.

Fixpoint decode (fuel : nat) (s : bytes) : result (Data * bytes) :=
  match fuel with
  | O => Err too_deep
  | S fuel =>
      '(major, a, s) ← read_head s;
      if major =? 2 then
        '(b, s) ← decode_string a s; Ok (DBytes (bytes_hex b), s)
      else if major =? 4 then
        '(l, s) ← decode_array (decode fuel) a s; Ok (DList l, s)
      else if major =? 5 then
        '(m, s) ← decode_map (decode fuel) a s; Ok (DMap m, s)
      else
        match a with
        | Indef => Err malformed
        | Arg n =>
            if (major =? 6) && negb (n =? 2) && negb (n =? 3) then
              '(i, s) ← decode_constr n s;
              '(l, s) ← decode_list (decode fuel) s;
              Ok (Constr i l, s)
            else
              '(i, s) ← decode_integer major n s; Ok (DInteger i, s)
        end
  end.

(** ** [Data.to] and [Data.from] *)

Definition trailing : error := Error "Deserialization failed: trailing bytes".
Definition not_hex : error := Error "Deserialization failed: not a hex string".

Definition cbor_to (d : Data) : string := bytes_hex (encode d).

Definition cbor_from (raw : string) : result Data :=
  b ← or_throw (fromHex raw) not_hex;
  let s := String.list_ascii_of_string b in
  '(d, rest) ← decode (S (length s)) s;
  if decide (rest = []) then Ok d else Err trailing.


(** The reader is unfolded by the lemmas below, not by [simpl]. *)
Arguments read_head : simpl never.
Arguments take_bytes : simpl never.
Arguments head : simpl never.
Arguments decode_integer : simpl never.
Arguments decode_constr : simpl never.
Arguments encode_integer : simpl never.
Arguments encode_bytes : simpl never.

(** ** Theorems: bytes *)

Section bytes.
Implicit Types (a : Ascii.ascii) (b s rest : bytes) (n : Z) (k : nat).

Lemma byte_value_bound a : 0 ≤ byte_value a < 256.
Proof.
  unfold byte_value. pose proof (Ascii.N_ascii_bounded a). lia.
Qed.

Lemma byte_value_byte n : byte_value (byte n) = n mod 256.
Proof.
  unfold byte_value, byte. pose proof (Z.mod_pos_bound n 256).
  rewrite Ascii.N_ascii_embedding by lia. lia.
Qed.

Lemma byte_byte_value a : byte (byte_value a) = a.
Proof.
  unfold byte. pose proof (byte_value_bound a).
  rewrite Z.mod_small by done. unfold byte_value.
  by rewrite N2Z.id, Ascii.ascii_N_embedding.
Qed.

Lemma byte_inj n m : 0 ≤ n < 256 → 0 ≤ m < 256 → byte n = byte m → n = m.
Proof.
  intros Hn Hm E. apply (f_equal byte_value) in E.
  by rewrite !byte_value_byte, !Z.mod_small in E.
Qed.

Lemma be_bytes_length k n : length (be_bytes k n) = k.
Proof. induction k as [|k IH]; simpl; [done | by rewrite IH]. Qed.

Lemma be_value_acc b acc :
  foldl (λ acc a, acc * 256 + byte_value a) acc b
  = acc * 256 ^ Z.of_nat (length b) + be_value b.
Proof.
  unfold be_value. revert acc. induction b as [|a b IH]; intros acc.
  - simpl. lia.
  - simpl. rewrite IH, (IH (0 * 256 + byte_value a)).
    rewrite Nat2Z.inj_succ, Z.pow_succ_r by lia. ring.
Qed.

(** The value of the [k] bytes of [n] is [n], up to what [k] bytes hold. *)
Lemma be_value_be_bytes k n : be_value (be_bytes k n) = n mod 256 ^ Z.of_nat k.
Proof.
  induction k as [|k IH]; [by rewrite Z.mod_1_r|].
  unfold be_value. simpl. rewrite be_value_acc, be_bytes_length, IH.
  rewrite byte_value_byte, Nat2Z.inj_succ, Z.pow_succ_r by lia.
  rewrite (Z.mul_comm 256), Z.rem_mul_r by lia. ring.
Qed.

Lemma be_value_be_bytes_small k n :
  0 ≤ n < 256 ^ Z.of_nat k → be_value (be_bytes k n) = n.
Proof. intros. by rewrite be_value_be_bytes, Z.mod_small. Qed.

Lemma be_value_nonneg b : 0 ≤ be_value b.
Proof.
  induction b as [|a b IH] using rev_ind; [done|].
  unfold be_value in *. rewrite foldl_app. simpl.
  pose proof (byte_value_bound a). lia.
Qed.

(** [nbytes n] bytes hold [n]. *)
Lemma nbytes_spec n : 0 < n → n < 256 ^ Z.of_nat (nbytes n).
Proof.
  intros Hn. unfold nbytes.
  pose proof (Z.log2_nonneg n) as H0.
  pose proof (Z.div_pos (Z.log2 n) 8 H0 eq_refl) as H1.
  rewrite Z2Nat.id by lia. change 256 with (2 ^ 8).
  rewrite <- Z.pow_mul_r by lia.
  eapply Z.lt_le_trans; [apply Z.log2_spec, Hn|].
  apply Z.pow_le_mono_r; [done|].
  pose proof (Z.mul_succ_div_gt (Z.log2 n) 8 eq_refl). lia.
Qed.

Lemma take_bytes_app b rest :
  take_bytes (Z.of_nat (length b)) (b ++ rest) = Ok (b, rest).
Proof.
  unfold take_bytes. rewrite length_app, Nat2Z.id.
  rewrite decide_True by lia.
  by rewrite take_app_length, drop_app_length.
Qed.

Lemma take_bytes_Ok n s b rest :
  take_bytes n s = Ok (b, rest) → s = b ++ rest ∧ Z.of_nat (length b) = n.
Proof.
  unfold take_bytes. case_decide as Hn; [|done]. intros [= <- <-].
  rewrite take_drop, length_take. split; [done | lia].
Qed.

End bytes.

(** ** Theorems: heads *)

Section heads.
Implicit Types (a : Ascii.ascii) (b s rest : bytes) (major info n : Z).

Lemma first_byte major info :
  0 ≤ major < 8 → 0 ≤ info < 32 →
  byte_value (byte (32 * major + info)) / 32 = major
  ∧ byte_value (byte (32 * major + info)) mod 32 = info.
Proof.
  intros Hm Hi. rewrite byte_value_byte, Z.mod_small by lia. split.
  - symmetry. apply (Z.div_unique _ _ _ info); lia.
  - symmetry. apply (Z.mod_unique _ _ major); lia.
Qed.

Lemma read_head_short major n rest :
  0 ≤ major < 8 → 0 ≤ n < 24 →
  read_head (byte (32 * major + n) :: rest) = Ok (major, Arg n, rest).
Proof.
  intros Hm Hn. unfold read_head.
  destruct (first_byte major n) as [-> ->]; [lia..|].
  by rewrite (proj2 (Z.ltb_lt _ _)) by lia.
Qed.

Lemma read_head_wide major info n (k : nat) rest :
  0 ≤ major < 8 → 24 ≤ info < 28 → arg_width info = Z.of_nat k →
  0 ≤ n < 256 ^ Z.of_nat k →
  read_head (byte (32 * major + info) :: be_bytes k n ++ rest)
  = Ok (major, Arg n, rest).
Proof.
  intros Hm Hi Hk Hn. unfold read_head.
  destruct (first_byte major info) as [-> ->]; [lia..|].
  rewrite (proj2 (Z.ltb_ge _ _)), (proj2 (Z.eqb_neq _ _)),
    (proj2 (Z.ltb_lt info 28)) by lia.
  rewrite Hk. rewrite <- (be_bytes_length k n) at 1.
  rewrite take_bytes_app. simpl. by rewrite be_value_be_bytes_small.
Qed.

(** The reader reads the head the writer wrote. *)
Lemma read_head_head major n rest :
  0 ≤ major < 8 → 0 ≤ n < 2 ^ 64 →
  read_head (head major n ++ rest) = Ok (major, Arg n, rest).
Proof.
  intros Hm Hn. unfold head.
  destruct (Z.ltb_spec n 24); [apply (read_head_short major n rest); lia|].
  repeat match goal with
    | |- context [?x <? ?y] => destruct (Z.ltb_spec x y)
    end; rewrite <- app_comm_cons.
  - apply (read_head_wide _ 24 _ 1); [lia | lia | done |].
    change (256 ^ Z.of_nat 1) with (2 ^ 8). lia.
  - apply (read_head_wide _ 25 _ 2); [lia | lia | done |].
    change (256 ^ Z.of_nat 2) with (2 ^ 16). lia.
  - apply (read_head_wide _ 26 _ 4); [lia | lia | done |].
    change (256 ^ Z.of_nat 4) with (2 ^ 32). lia.
  - apply (read_head_wide _ 27 _ 8); [lia | lia | done |].
    change (256 ^ Z.of_nat 8) with (2 ^ 64). lia.
Qed.

Lemma read_head_indef major rest :
  0 ≤ major < 8 →
  read_head (head_indef major ++ rest) = Ok (major, Indef, rest).
Proof.
  intros Hm. unfold head_indef, read_head. simpl.
  by destruct (first_byte major 31) as [-> ->]; [lia..|].
Qed.

(** A head of a major type below 7 is not the break. *)
Lemma head_first major n :
  0 ≤ major < 7 → 0 ≤ n → ∃ a t, head major n = a :: t ∧ a ≠ break.
Proof.
  intros Hm Hn. unfold head, break.
  repeat case_match; eexists _, _; (split; [done|]);
    intros E%byte_inj; try lia;
    match goal with H : (_ <? _) = true |- _ => apply Z.ltb_lt in H end; lia.
Qed.

Lemma head_indef_first major :
  0 ≤ major < 7 → ∃ a t, head_indef major = a :: t ∧ a ≠ break.
Proof.
  intros Hm. eexists _, _. split; [done|]. unfold break.
  intros E%byte_inj; lia.
Qed.

Lemma head_length major n : (1 ≤ length (head major n))%nat.
Proof. unfold head. repeat case_match; simpl; lia. Qed.

End heads.

(** ** Theorems: byte strings and integers *)

Section strings.
Implicit Types (a : Ascii.ascii) (b c s rest : bytes) (n : Z).

Lemma chunks_concat fuel b : (length b ≤ fuel)%nat → concat (chunks fuel b) = b.
Proof.
  revert b. induction fuel as [|fuel IH]; intros b Hb; simpl.
  - destruct b; [done | simpl in Hb; lia].
  - case_decide; simpl; [by rewrite app_nil_r|].
    rewrite IH, take_drop; [done|]. rewrite length_drop. lia.
Qed.

Lemma chunks_short fuel b : Forall (λ c, (length c ≤ 64)%nat) (chunks fuel b).
Proof.
  revert b. induction fuel as [|fuel IH]; intros b; simpl; [done|].
  case_decide; [by apply Forall_singleton|].
  constructor; [rewrite length_take; lia | done].
Qed.

Lemma chunks_length fuel b : (length (chunks fuel b) ≤ fuel)%nat.
Proof.
  revert b. induction fuel as [|fuel IH]; intros b; simpl; [done|].
  case_decide; simpl; [lia|]. specialize (IH (drop 64 b)). lia.
Qed.

Lemma encode_chunk_first c : ∃ a t, encode_chunk c = a :: t ∧ a ≠ break.
Proof.
  unfold encode_chunk.
  destruct (head_first 2 (Z.of_nat (length c))) as (a & t & -> & Ha); [lia..|].
  by exists a, (t ++ c).
Qed.

(** The reader puts back together the chunks the writer cut. *)
Lemma decode_chunks_encode cs fuel rest :
  Forall (λ c, (length c ≤ 64)%nat) cs → (length cs < fuel)%nat →
  decode_chunks fuel (concat (encode_chunk <$> cs) ++ break :: rest)
  = Ok (concat cs, rest).
Proof.
  intros Hcs. revert fuel.
  induction Hcs as [|c cs Hc _ IH]; intros [|fuel] Hf; simpl in *; try lia.
  - done.
  - destruct (encode_chunk_first c) as (a & t & E & Ha).
    rewrite <- app_assoc, E. simpl. rewrite decide_False by done.
    rewrite (app_comm_cons t), <- E. unfold encode_chunk.
    rewrite <- app_assoc, read_head_head by lia. simpl.
    rewrite take_bytes_app. simpl. rewrite IH by lia. done.
Qed.

Lemma encode_chunk_length c : (1 ≤ length (encode_chunk c))%nat.
Proof.
  unfold encode_chunk. rewrite length_app.
  pose proof (head_length 2 (Z.of_nat (length c))). lia.
Qed.

Lemma concat_length_ge {A B} (f : A → list B) (l : list A) :
  (∀ x, 1 ≤ length (f x))%nat → (length l ≤ length (concat (f <$> l)))%nat.
Proof.
  intros Hf. induction l as [|x l IH]; csimpl; [done|].
  rewrite length_app. specialize (Hf x). lia.
Qed.

(** The reader reads back the byte string the writer wrote, of any
    length. *)
Lemma decode_bytes_encode b rest :
  decode_bytes (encode_bytes b ++ rest) = Ok (b, rest).
Proof.
  unfold decode_bytes, encode_bytes. case_decide as Hb.
  - unfold encode_chunk. rewrite <- app_assoc, read_head_head by lia.
    simpl. apply take_bytes_app.
  - rewrite <- !app_assoc, read_head_indef by lia. simpl.
    rewrite decode_chunks_encode, chunks_concat; [done..| |].
    + apply chunks_short.
    + rewrite length_app, length_cons.
      pose proof (concat_length_ge encode_chunk (chunks (length b) b)
                    encode_chunk_length). lia.
Qed.

Lemma encode_bytes_first b : ∃ a t, encode_bytes b = a :: t ∧ a ≠ break.
Proof.
  unfold encode_bytes. case_decide; [apply encode_chunk_first|].
  destruct (head_indef_first 2) as (a & t & -> & Ha); [lia|].
  by eexists a, _.
Qed.

(** The reader reads back the integer the writer wrote, of any size. *)
Lemma decode_integer_encode n rest :
  ∃ major m s,
    read_head (encode_integer n ++ rest) = Ok (major, Arg m, s)
    ∧ decode_integer major m s = Ok (n, rest)
    ∧ (major = 0 ∨ major = 1 ∨ (major = 6 ∧ (m = 2 ∨ m = 3))).
Proof.
  unfold encode_integer.
  destruct (Z.leb_spec 0 n), (Z.ltb_spec n (2 ^ 64)), (Z.leb_spec (- 2 ^ 64) n);
    try lia.
  - exists 0, n, rest. rewrite read_head_head by lia. by split_and!; auto.
  - exists 6, 2, (encode_bytes (be_bytes (nbytes n) n) ++ rest).
    rewrite <- app_assoc, read_head_head by lia.
    unfold decode_integer. simpl. rewrite decode_bytes_encode. simpl.
    pose proof (nbytes_spec n). rewrite be_value_be_bytes_small by lia.
    by split_and!; auto.
  - exists 1, (-1 - n), rest. rewrite read_head_head by lia.
    unfold decode_integer. simpl.
    split_and!; [done | f_equal; f_equal; lia | auto].
  - exists 6, 3, (encode_bytes (be_bytes (nbytes (-1 - n)) (-1 - n)) ++ rest).
    rewrite <- app_assoc, read_head_head by lia.
    unfold decode_integer. simpl. rewrite decode_bytes_encode. simpl.
    pose proof (nbytes_spec (-1 - n)).
    rewrite be_value_be_bytes_small by lia.
    split_and!; [done | f_equal; f_equal; lia | auto].
Qed.

End strings.

(** ** Theorems: arrays, maps and constructors *)

Section arrays.
Context (item : bytes → result (Data * bytes)) (enc : Data → bytes).
Implicit Types (l : list Data) (m : list (Data * Data)) (rest : bytes).

(** [item] reads back what [enc] wrote of [d]. *)
Definition reads_back (d : Data) : Prop :=
  ∀ rest, item (enc d ++ rest) = Ok (d, rest).

(** What [enc] wrote of [d] does not start with the break. *)
Definition starts_item (d : Data) : Prop :=
  ∃ a t, enc d = a :: t ∧ a ≠ break.

Lemma starts_item_length d : starts_item d → (1 ≤ length (enc d))%nat.
Proof. intros (a & t & -> & _). simpl. lia. Qed.

Lemma decode_n_encode l rest :
  Forall reads_back l →
  decode_n item (length l) (concat (enc <$> l) ++ rest) = Ok (l, rest).
Proof.
  induction 1 as [|d l Hd _ IH]; [done|].
  csimpl. rewrite <- app_assoc, Hd. simpl. by rewrite IH.
Qed.

Lemma decode_until_break_encode l fuel rest :
  Forall reads_back l → Forall starts_item l → (length l < fuel)%nat →
  decode_until_break item fuel (concat (enc <$> l) ++ break :: rest)
  = Ok (l, rest).
Proof.
  intros Hl. revert fuel.
  induction Hl as [|d l Hd _ IH]; intros [|fuel] Hs Hf; simpl in *; try lia.
  - done.
  - apply Forall_cons in Hs as [(a & t & E & Ha) Hs].
    rewrite <- app_assoc, E. simpl. rewrite decide_False by done.
    rewrite (app_comm_cons t), <- E, Hd. simpl. rewrite IH by (done || lia).
    done.
Qed.

Lemma decode_pairs_encode m rest :
  Forall (λ e, reads_back e.1 ∧ reads_back e.2) m →
  decode_pairs item (length m)
    (concat ((λ e, enc e.1 ++ enc e.2) <$> m) ++ rest)
  = Ok (m, rest).
Proof.
  induction 1 as [|[k v] m [Hk Hv] _ IH]; [done|].
  csimpl in *. rewrite <- !app_assoc, Hk. simpl. rewrite Hv. simpl.
  by rewrite IH.
Qed.

Lemma items_length l :
  Forall starts_item l → (length l ≤ length (concat (enc <$> l)))%nat.
Proof.
  induction 1 as [|d l Hd%starts_item_length _ IH]; csimpl; [done|].
  rewrite length_app. lia.
Qed.

(** The reader reads back the array the writer wrote, empty or not. *)
Lemma decode_list_encode l rest :
  Forall reads_back l → Forall starts_item l →
  decode_list item (encode_array (enc <$> l) ++ rest) = Ok (l, rest).
Proof.
  intros Hl Hs. unfold decode_list. destruct l as [|d l].
  - change (encode_array (enc <$> [])) with (head 4 0).
    rewrite read_head_head by lia. simpl. by rewrite decide_True by lia.
  - change (encode_array (enc <$> d :: l))
      with (head_indef 4 ++ concat (enc <$> d :: l) ++ [break]).
    rewrite <- !app_assoc, read_head_indef by lia. simpl.
    apply (decode_until_break_encode (d :: l)); [done..|].
    pose proof (items_length _ Hs) as Hlen.
    rewrite length_app. csimpl in *. lia.
Qed.

End arrays.

(** ** Theorems: the round trip *)

Section roundtrip.
Implicit Types (d : Data) (l : list Data) (rest s : bytes) (fuel : nat).

(** The reader finds the index of the constructor the writer wrote. *)
Lemma decode_constr_encode i rest :
  0 ≤ i →
  ∃ t s, read_head (encode_constr i ++ rest) = Ok (6, Arg t, s)
         ∧ t ≠ 2 ∧ t ≠ 3 ∧ decode_constr t s = Ok (i, rest).
Proof.
  intros Hi. unfold encode_constr.
  destruct (Z.ltb_spec i 7); [|destruct (Z.ltb_spec i 128)].
  - exists (121 + i), rest. rewrite read_head_head by lia.
    unfold decode_constr.
    rewrite (proj2 (Z.leb_le 121 _)), (proj2 (Z.leb_le _ 127)) by lia.
    split_and!; [done | lia | lia | simpl; do 2 f_equal; lia].
  - exists (1280 + (i - 7)), rest. rewrite read_head_head by lia.
    unfold decode_constr.
    rewrite (proj2 (Z.leb_gt _ 127)), andb_false_r, (proj2 (Z.leb_le 1280 _)),
      (proj2 (Z.leb_le _ 1400)) by lia.
    split_and!; [done | lia | lia | simpl; do 2 f_equal; lia].
  - exists 102, (head 4 2 ++ encode_integer i ++ rest).
    rewrite <- !app_assoc, read_head_head by lia.
    split_and!; [done..|]. unfold decode_constr. cbn.
    rewrite read_head_head by lia. cbn.
    destruct (decode_integer_encode i rest) as (major & m & s & Hh & Hd & _).
    rewrite Hh. cbn. rewrite Hd. cbn. by rewrite (proj2 (Z.leb_le 0 i)).
Qed.

Lemma encode_constr_first i :
  0 ≤ i → ∃ a t, encode_constr i = a :: t ∧ a ≠ break.
Proof.
  intros Hi. unfold encode_constr. repeat case_match.
  - apply head_first; lia.
  - apply head_first; lia.
  - destruct (head_first 6 102) as (a & t & -> & Ha); [lia..|]. by eexists a, _.
Qed.

Lemma encode_integer_first n : ∃ a t, encode_integer n = a :: t ∧ a ≠ break.
Proof.
  unfold encode_integer.
  destruct (Z.leb_spec 0 n), (Z.ltb_spec n (2 ^ 64)), (Z.leb_spec (- 2 ^ 64) n);
    try lia; try (apply head_first; lia).
  - destruct (head_first 6 2) as (a & t & -> & Ha); [lia..|]. by eexists a, _.
  - destruct (head_first 6 3) as (a & t & -> & Ha); [lia..|]. by eexists a, _.
Qed.

Lemma encode_array_first (items : list bytes) :
  ∃ a t, encode_array items = a :: t ∧ a ≠ break.
Proof.
  destruct items as [|x items].
  - apply (head_first 4 0); lia.
  - destruct (head_indef_first 4) as (a & t & E & Ha); [lia|].
    unfold encode_array. rewrite E. by eexists a, _.
Qed.

(** Every item starts with a byte that is not the break, so the end of
    an indefinite array is never taken for an item. *)
Lemma encode_first d :
  wf_data d = true → ∃ a t, encode d = a :: t ∧ a ≠ break.
Proof.
  destruct d as [n|h|l|m|i l]; simpl; intros Hwf.
  - apply encode_integer_first.
  - apply encode_bytes_first.
  - apply encode_array_first.
  - destruct (head_first 5 (Z.of_nat (length m))) as (a & t & -> & Ha);
      [lia..|]. by eexists a, _.
  - apply andb_true_iff in Hwf as [Hi%Z.leb_le _].
    destruct (encode_constr_first i Hi) as (a & t & -> & Ha). by eexists a, _.
Qed.

Lemma decode_bytes_inv s b rest :
  decode_bytes s = Ok (b, rest) →
  ∃ a s', read_head s = Ok (2, a, s') ∧ decode_string a s' = Ok (b, rest).
Proof.
  unfold decode_bytes. destruct (read_head s) as [[[major a] s']|]; [|done].
  cbn. destruct (Z.eqb_spec major 2) as [->|]; [eauto | done].
Qed.

Lemma decode_list_inv item s l rest :
  decode_list item s = Ok (l, rest) →
  ∃ a s', read_head s = Ok (4, a, s') ∧ decode_array item a s' = Ok (l, rest).
Proof.
  unfold decode_list. destruct (read_head s) as [[[major a] s']|]; [|done].
  cbn. destruct (Z.eqb_spec major 4) as [->|]; [eauto | done].
Qed.

Lemma bytes_hex_hex_bytes h : is_hex h = true → bytes_hex (hex_bytes h) = h.
Proof.
  intros [b E]%is_hex_fromHex. unfold bytes_hex, hex_bytes. rewrite E. simpl.
  rewrite String.string_of_list_ascii_of_string. by apply toHex_fromHex.
Qed.

Lemma hex_bytes_bytes_hex b : hex_bytes (bytes_hex b) = b.
Proof.
  unfold bytes_hex, hex_bytes. rewrite fromHex_toHex. simpl.
  apply String.list_ascii_of_string_of_list_ascii.
Qed.

(** What the induction gives for the items of a list, at the fuel left
    for them. *)
Definition decodes (d : Data) : Prop :=
  wf_data d = true → ∀ fuel rest,
    (depth d ≤ fuel)%nat → decode fuel (encode d ++ rest) = Ok (d, rest).

Lemma items_read_back l fuel :
  Forall decodes l → forallb wf_data l = true →
  (foldr (λ d, max (depth d)) 0 l ≤ fuel)%nat →
  Forall (reads_back (decode fuel) encode) l ∧ Forall (starts_item encode) l.
Proof.
  induction 1 as [|d l Hd _ IH]; simpl; [done|].
  intros [Hwf Hl]%andb_true_iff Hf. destruct IH as [IH1 IH2]; [done | lia |].
  split; constructor; try done.
  - intros rest. apply Hd; [done | lia].
  - by apply encode_first.
Qed.

Lemma entries_read_back (m : list (Data * Data)) fuel :
  Forall (λ e, decodes e.1 ∧ decodes e.2) m →
  forallb (λ e, wf_data e.1 && wf_data e.2) m = true →
  (foldr (λ e, max (max (depth e.1) (depth e.2))) 0 m ≤ fuel)%nat →
  Forall (λ e, reads_back (decode fuel) encode e.1
               ∧ reads_back (decode fuel) encode e.2) m
  ∧ (length m ≤ length (concat ((λ e, encode e.1 ++ encode e.2) <$> m)))%nat.
Proof.
  induction 1 as [|[k v] m [Hk Hv] _ IH]; csimpl; [done|].
  intros [[Hwk Hwv]%andb_true_iff Hl]%andb_true_iff Hf. simpl in *.
  destruct IH as [IH1 IH2]; [done | lia |]. split.
  - constructor; [|done]. split; intros rest; [apply Hk | apply Hv]; done || lia.
  - destruct (encode_first k Hwk) as (a & t & -> & _).
    rewrite !length_app. simpl. lia.
Qed.

(** The reader reads back what the writer wrote of well-formed data,
    whatever follows it, with fuel for the depth of the data. *)
Theorem decode_encode d : decodes d.
Proof.
  induction d as [n|h|l IH|m IH|i l IH] using Data_ind;
    intros Hwf [|fuel] rest Hf; simpl in Hf, Hwf; try lia; cbn [decode encode].
  - destruct (decode_integer_encode n rest) as (major & k & s & -> & Hd & Hm).
    destruct Hm as [->|[->|[-> [->| ->]]]]; cbn; by rewrite Hd.
  - destruct (decode_bytes_inv _ _ _ (decode_bytes_encode (hex_bytes h) rest))
      as (a & s & -> & Hs).
    cbn. rewrite Hs. cbn. by rewrite bytes_hex_hex_bytes.
  - destruct (items_read_back l fuel IH Hwf) as [Hr Hs]; [lia|].
    destruct (decode_list_inv _ _ _ _ (decode_list_encode _ _ l rest Hr Hs))
      as (a & s & -> & Hl).
    cbn. by rewrite Hl.
  - apply andb_true_iff in Hwf as [Hm%Z.ltb_lt Hwf].
    destruct (entries_read_back m fuel IH Hwf) as [Hr Hlen]; [lia|].
    rewrite <- app_assoc, read_head_head by lia. cbn.
    rewrite decide_True by (rewrite length_app; lia).
    rewrite Nat2Z.id, decode_pairs_encode by done. done.
  - apply andb_true_iff in Hwf as [Hi%Z.leb_le Hwf].
    destruct (items_read_back l fuel IH Hwf) as [Hr Hs]; [lia|].
    destruct (decode_constr_encode i (encode_array (encode <$> l) ++ rest) Hi)
      as (t & s & Hh & Ht2 & Ht3 & Hc).
    rewrite <- app_assoc, Hh. cbn.
    rewrite (proj2 (Z.eqb_neq t 2)), (proj2 (Z.eqb_neq t 3)) by done. cbn.
    rewrite Hc. cbn. by rewrite decode_list_encode.
Qed.

End roundtrip.

(** ** Theorems: what the reader returns *)

(** One step of the analysis of a successful read. *)
Ltac read_step :=
  match goal with
  | H : _ ≫= _ = Ok _ |- _ => apply result_bind_Ok in H as (? & ? & H)
  | H : match ?x with (_, _) => _ end = Ok _ |- _ => destruct x
  | H : (if ?b then _ else _) = Ok _ |- _ => destruct b eqn:?
  | H : match ?a with Arg _ => _ | Indef => _ end = Ok _ |- _ => destruct a
  | H : Err _ = Ok _ |- _ => discriminate H
  | H : Ok _ = Ok _ |- _ => injection H as ?; simplify_eq
  end.

Section wf.
Implicit Types (b s rest : bytes) (l : list Data) (n : Z).

Lemma be_value_bound b : 0 ≤ be_value b < 256 ^ Z.of_nat (length b).
Proof.
  split; [apply be_value_nonneg|].
  induction b as [|a b IH] using rev_ind; [done|].
  unfold be_value in *. rewrite foldl_app, length_app. simpl.
  rewrite Nat2Z.inj_add, Z.pow_add_r by lia.
  pose proof (byte_value_bound a). change (256 ^ Z.of_nat 1) with 256. lia.
Qed.

(** The argument of a head fits 64 bits. *)
Lemma read_head_bound s major n s' :
  read_head s = Ok (major, Arg n, s') → 0 ≤ n < 2 ^ 64.
Proof.
  unfold read_head. destruct s as [|a s]; [done|].
  pose proof (Z.mod_pos_bound (byte_value a) 32 eq_refl) as Hi.
  intros H. repeat read_step; [lia|].
  match goal with
  | H : take_bytes _ _ = Ok (?b, _) |- _ =>
      apply take_bytes_Ok in H as [_ Hlen]; pose proof (be_value_bound b) as Hb;
      assert (256 ^ Z.of_nat (length b) ≤ 256 ^ 8)
        by (apply Z.pow_le_mono_r; [lia|]; rewrite Hlen; unfold arg_width;
            repeat case_match; lia)
  end.
  change (2 ^ 64) with (256 ^ 8). lia.
Qed.

Lemma decode_constr_nonneg t s i s' : decode_constr t s = Ok (i, s') → 0 ≤ i.
Proof.
  unfold decode_constr. intros H. repeat read_step;
    repeat match goal with
      | H : _ && _ = true |- _ => apply andb_true_iff in H as [? ?]
      | H : (_ <=? _) = true |- _ => apply Z.leb_le in H
      end; lia.
Qed.

Context (item : bytes → result (Data * bytes)).
Context (Hitem : ∀ s d rest, item s = Ok (d, rest) → wf_data d = true).

Lemma decode_n_wf k s l rest :
  decode_n item k s = Ok (l, rest) → forallb wf_data l = true.
Proof using Hitem.
  revert s l. induction k as [|k IH]; intros s l H; simpl in H;
    repeat read_step; [done|].
  simpl. erewrite Hitem, IH; done.
Qed.

Lemma decode_until_break_wf fuel s l rest :
  decode_until_break item fuel s = Ok (l, rest) → forallb wf_data l = true.
Proof using Hitem.
  revert s l. induction fuel as [|fuel IH]; intros [|a s] l H; simpl in H;
    repeat read_step; try done.
  simpl. erewrite Hitem, IH; done.
Qed.

Lemma decode_pairs_wf k s m rest :
  decode_pairs item k s = Ok (m, rest) →
  forallb (λ e, wf_data e.1 && wf_data e.2) m = true ∧ length m = k.
Proof using Hitem.
  revert s m. induction k as [|k IH]; intros s m H; simpl in H;
    repeat read_step; [done|].
  match goal with
  | H : decode_pairs _ _ _ = Ok _ |- _ => apply IH in H as [H <-]; simpl;
      by erewrite !Hitem, H
  end.
Qed.

Lemma decode_array_wf a s l rest :
  decode_array item a s = Ok (l, rest) → forallb wf_data l = true.
Proof using Hitem.
  unfold decode_array. intros H. repeat read_step;
    eauto using decode_n_wf, decode_until_break_wf.
Qed.

Lemma decode_list_wf s l rest :
  decode_list item s = Ok (l, rest) → forallb wf_data l = true.
Proof using Hitem.
  intros (a & s' & _ & H)%decode_list_inv. by eapply decode_array_wf.
Qed.

Lemma decode_map_wf s major n s' m rest :
  read_head s = Ok (major, Arg n, s') →
  decode_map item (Arg n) s' = Ok (m, rest) →
  wf_data (DMap m) = true.
Proof using Hitem.
  intros Hn%read_head_bound H. unfold decode_map in H. repeat read_step.
  apply decode_pairs_wf in H as [H Hlen]. simpl. rewrite H, andb_true_r.
  apply Z.ltb_lt. lia.
Qed.

End wf.

(** What the reader returns is well formed: it can be written again. *)
Theorem decode_wf fuel s d rest :
  decode fuel s = Ok (d, rest) → wf_data d = true.
Proof.
  revert s d rest. induction fuel as [|fuel IH]; intros s d rest H; [done|].
  cbn [decode] in H. apply result_bind_Ok in H as ([[major a] s'] & Hh & H).
  repeat read_step; simpl.
  - apply is_hex_toHex.
  - by eapply decode_array_wf.
  - destruct a as [n|]; [by eapply decode_map_wf | done].
  - erewrite decode_list_wf by done.
    by erewrite (proj2 (Z.leb_le 0 _)) by by eapply decode_constr_nonneg.
  - done.
Qed.

(** The encoding is at least as long as the data is deep, so the length
    of the input is fuel enough. *)
Lemma items_depth (l : list Data) :
  Forall (λ d, wf_data d = true → (depth d ≤ length (encode d))%nat) l →
  forallb wf_data l = true →
  (foldr (λ d, max (depth d)) 0 l < length (encode_array (encode <$> l)))%nat.
Proof.
  intros Hl Hwf.
  assert (foldr (λ d, max (depth d)) 0 l ≤ length (concat (encode <$> l)))%nat.
  { induction Hl as [|d l Hd _ IH]; csimpl in *; [done|].
    apply andb_true_iff in Hwf as [Hw Hwf]. rewrite length_app.
    specialize (Hd Hw). specialize (IH Hwf). lia. }
  destruct l as [|d l].
  - pose proof (head_length 4 0). simpl. lia.
  - change (encode_array (encode <$> d :: l))
      with (head_indef 4 ++ concat (encode <$> d :: l) ++ [break]).
    rewrite !length_app. change (length (head_indef 4)) with 1%nat.
    change (length [break]) with 1%nat. lia.
Qed.

Lemma depth_encode d : wf_data d = true → (depth d ≤ length (encode d))%nat.
Proof.
  induction d as [n|h|l IH|m IH|i l IH] using Data_ind; intros Hwf;
    simpl in Hwf.
  - destruct (encode_integer_first n) as (a & t & E & _).
    simpl. rewrite E. simpl. lia.
  - destruct (encode_bytes_first (hex_bytes h)) as (a & t & E & _).
    simpl. rewrite E. simpl. lia.
  - pose proof (items_depth l IH Hwf). simpl. lia.
  - apply andb_true_iff in Hwf as [_ Hwf]. simpl. rewrite length_app.
    enough (foldr (λ e, max (max (depth e.1) (depth e.2))) 0 m
            ≤ length (concat ((λ e, encode e.1 ++ encode e.2) <$> m)))%nat
      by (pose proof (head_length 5 (Z.of_nat (length m))); lia).
    induction IH as [|[k v] m [Hk Hv] _ IHm]; csimpl in *; [done|].
    apply andb_true_iff in Hwf as [[Hwk Hwv]%andb_true_iff Hwf].
    rewrite !length_app. specialize (Hk Hwk). specialize (Hv Hwv).
    specialize (IHm Hwf). lia.
  - apply andb_true_iff in Hwf as [_ Hwf].
    pose proof (items_depth l IH Hwf). simpl. rewrite length_app. lia.
Qed.

(** ** Theorems: [Data.to] and [Data.from] *)

(** The length of the input is fuel enough to read it. *)
Lemma decode_all d :
  wf_data d = true → decode (S (length (encode d))) (encode d) = Ok (d, []).
Proof.
  intros Hwf. rewrite <- (app_nil_r (encode d)) at 2.
  apply decode_encode; [done|]. pose proof (depth_encode d Hwf). lia.
Qed.

(** [Data.from] reads back what [Data.to] wrote. *)
Theorem cbor_from_to d : wf_data d = true → cbor_from (cbor_to d) = Ok d.
Proof.
  intros Hwf. unfold cbor_from, cbor_to, bytes_hex.
  rewrite fromHex_toHex. unfold or_throw. rewrite result_Ok_bind.
  rewrite String.list_ascii_of_string_of_list_ascii, decode_all by done.
  by rewrite result_Ok_bind.
Qed.

Lemma cbor_from_wf raw d : cbor_from raw = Ok d → wf_data d = true.
Proof.
  unfold cbor_from. intros H. repeat read_step. by eapply decode_wf.
Qed.

(** The writer writes at least one byte, of any data. *)
Lemma encode_length d : (1 ≤ length (encode d))%nat.
Proof.
  destruct d as [n|h|l|m|i l]; simpl;
    unfold encode_integer, encode_bytes, encode_chunk, encode_constr,
      encode_array;
    repeat case_match; rewrite ?length_app; simpl;
    try match goal with
      | |- context [length (head ?m ?n)] => pose proof (head_length m n)
      end; lia.
Qed.

Lemma cbor_to_nonempty d : cbor_to d ≠ "".
Proof.
  pose proof (encode_length d). unfold cbor_to, bytes_hex.
  destruct (encode d); [simpl in *; lia | done].
Qed.
