(* ===== verification/LucidRef.v ===== *)
(** * LucidRef: a reference implementation of the library interface

    An instance of [LucidLib] that computes, and the proof that it
    satisfies [LucidLaws].  [fromText] is the hex of the bytes of the
    text; [toUnit] concatenates a policy id of 28 bytes and a name of at
    most 32 bytes and refuses anything else; [Data.to] and [Data.from]
    are the CBOR codec of [Cbor].  The two hashes of scripts are stand-ins
    of the right size (28 bytes), not Blake2b: the laws ask nothing of
    them, and no theorem depends on which function they are.

    The instance shows that the laws the theorems of [CreateShip] assume
    can be met, and lets them be applied to concrete runs. *)

From stdpp Require Import base tactics numbers option list strings pretty.
From Stdlib Require Import ZArith Lia.
From S2P Require Import Prelude Lucid Types Hex Cbor CreateShip.

(** ** The functions *)

Definition name_too_long : error := Error "Asset name size exceeds 32 bytes.".

Definition policy_invalid (policyId : string) : error :=
  Error ("Policy id invalid: " +:+ policyId +:+ ".").

(** [toUnit(policyId, name)]: lengths are counted in hex digits. *)
Definition toUnit_ref (policyId name : string) : result string :=
  if decide (64 < String.length name)%nat then Err name_too_long
  else if decide (String.length policyId ≠ 56%nat) then
    Err (policy_invalid policyId)
  else Ok (policyId +:+ name).

(** [n] characters of [s], padded with zeros. *)
Fixpoint pad (n : nat) (s : string) : string :=
  match n with
  | O => ""
  | S n =>
      match s with
      | "" => String Ascii.zero (pad n "")
      | String a s => String a (pad n s)
      end
  end.

(** A stand-in for the hash of a script: 28 bytes in hex. *)
Definition digest28 (s : Script) : string := toHex (pad 28 (script s)).

Definition address_ref (s : Script) : string := "addr_test1" +:+ digest28 s.

#[export] Instance lucid_ref : LucidLib := {|
  fromText := toHex;
  toUnit := toUnit_ref;
  validatorToAddress := address_ref;
  mintingPolicyToId := digest28;
  Data_to := cbor_to;
  Data_from := cbor_from;
|}.

(** ** Theorems *)

Lemma toUnit_ref_Ok policyId name u :
  toUnit_ref policyId name = Ok u ↔
    String.length policyId = 56%nat ∧ (String.length name ≤ 64)%nat
    ∧ u = policyId +:+ name.
Proof.
  unfold toUnit_ref. repeat case_decide; split;
    first [done | by intros (? & ? & ?); lia | intros [= <-]
          | intros (? & ? & ->)];
    first [done | split_and!; [lia | lia | done]].
Qed.

Lemma pad_length n s : String.length (pad n s) = n.
Proof.
  revert s. induction n as [|n IH]; intros [|a s]; simpl; by rewrite ?IH.
Qed.

(** The stand-in for the policy id has the size [toUnit] asks for. *)
Lemma digest28_length s : String.length (digest28 s) = 56%nat.
Proof. unfold digest28. by rewrite toHex_length, pad_length. Qed.

Lemma digest28_hex s : is_hex (digest28 s) = true.
Proof. apply is_hex_toHex. Qed.

#[export] Instance lucid_ref_laws : LucidLaws lucid_ref.
Proof.
  split; simpl.
  - apply toHex_inj.
  - apply is_hex_toHex.
  - intros p n p' n' u (Hp & _ & ->)%toUnit_ref_Ok (Hp' & _ & E)%toUnit_ref_Ok.
    apply string_app_inj_length in E; [done | congruence].
  - intros p n (Hp & _ & E)%toUnit_ref_Ok.
    apply (f_equal String.length) in E. rewrite string_app_length in E.
    simpl in E. lia.
  - apply cbor_from_to.
  - apply cbor_from_wf.
  - apply cbor_to_nonempty.
Qed.

(** ** The values of the builder under the reference library *)

Section builder.
Implicit Types (d : AsteriaDatumT) (p u : string).

Lemma bytes_hex_app (b1 b2 : bytes) :
  bytes_hex (b1 ++ b2) = bytes_hex b1 +:+ bytes_hex b2.
Proof.
  unfold bytes_hex. rewrite <- toHex_app. f_equal.
  induction b1 as [|a b1 IH]; [done|]. simpl. by rewrite IH.
Qed.

(** The hex digits of a token name: ten for [PILOT] (eight for [SHIP])
    and two for each digit of the counter. *)
Lemma name_length (prefix : string) (n : Z) :
  String.length (toHex (prefix +:+ pretty n))
  = (2 * String.length prefix + 2 * String.length (pretty n))%nat.
Proof. rewrite toHex_length, string_app_length. lia. Qed.

(** The ship unit exists exactly when the policy id has 28 bytes and
    the counter has at most 28 decimal digits (sign included): the name
    [SHIP<n>] must fit the 32 bytes of an asset name.  The unit is then
    the policy id followed by the hex of the name. *)
Theorem shipTokenUnit_ref d p u :
  shipTokenUnit (L:=lucid_ref) d p = Ok u ↔
    String.length p = 56%nat
    ∧ (String.length (pretty (ship_counter d)) ≤ 28)%nat
    ∧ u = p +:+ toHex ("SHIP" +:+ pretty (ship_counter d)).
Proof.
  unfold shipTokenUnit, shipTokenName. cbn [toUnit fromText lucid_ref].
  rewrite toUnit_ref_Ok, name_length. simpl. intuition lia.
Qed.

(** C35: the pilot unit exists exactly when the policy id has 28 bytes
    and the counter has at most 27 decimal digits: one fewer than for the
    ship, so from [10^27] on the builder throws after the ship unit was
    made, and no ship can be created any more. *)
Theorem pilotTokenUnit_ref d p u :
  pilotTokenUnit (L:=lucid_ref) d p = Ok u ↔
    String.length p = 56%nat
    ∧ (String.length (pretty (ship_counter d)) ≤ 27)%nat
    ∧ u = p +:+ toHex ("PILOT" +:+ pretty (ship_counter d)).
Proof.
  unfold pilotTokenUnit, pilotTokenName. cbn [toUnit fromText lucid_ref].
  rewrite toUnit_ref_Ok, name_length. simpl. intuition lia.
Qed.

(** C36: the datum the builder writes for the Asteria output, byte for
    byte: the tag of constructor 0, an indefinite array of the counter
    plus one and the policy id as a byte string, and the break. *)
Theorem asteriaOutputDatum_ref d (b : bytes) :
  shipyard_policy d = bytes_hex b → (length b ≤ 64)%nat →
  asteriaOutputDatum (L:=lucid_ref) d
  = "d8799f" +:+ bytes_hex (encode_integer (ship_counter d + 1))
    +:+ bytes_hex (head 2 (Z.of_nat (length b))) +:+ shipyard_policy d +:+ "ff".
Proof.
  intros Hp Hb. unfold asteriaOutputDatum, Data_to_as. simpl.
  unfold cbor_to. cbn [encode fmap list_fmap asteriaInfo ship_counter
                       Types.shipyard_policy].
  rewrite Hp, hex_bytes_bytes_hex. unfold encode_bytes, encode_chunk.
  rewrite decide_True by done.
  change (encode_constr 0) with (hex_bytes "d879").
  change (encode_array ?l) with (hex_bytes "9f" ++ concat l ++ hex_bytes "ff").
  simpl concat. rewrite app_nil_r, !bytes_hex_app.
  by rewrite !string_app_assoc.
Qed.

End builder.
