(* ===== verification/Chain.v ===== *)
(** * Chain: a ledger that answers the calls

    The provider and the chain behind it, as far as the sources can tell
    them apart: a set of unspent outputs that the lookups read and that
    [submit] changes.  A submitted transaction is applied atomically or
    not at all: if everything it spends or refers to is unspent, its
    inputs leave the set and its outputs enter it under a fresh
    transaction id; if not, it is rejected and the set is unchanged,
    which is how a double spend ends.  What a node checks beyond that
    (signatures, fees, balance, the validators) is not modelled:
    [complete] returns the transaction as built.

    [node] is the handler that answers the calls of a program from a
    [World]; [serves] says that a list of calls was answered by it.  The
    theorems: a program's run against the handler is the execution the
    handler serves ([run_serves]); a transaction applies exactly when
    its inputs are unspent; applying keeps output references unique and
    never reuses one ([apply_tx_wf]). *)

From stdpp Require Import base tactics numbers option list strings gmap pretty.
From Stdlib Require Import ZArith Lia.
From S2P Require Import Prelude Lucid.

(** ** The world *)

Record World := {
  (** The variables of the process environment. *)
  env : gmap string string;
  (** The unspent outputs of the chain. *)
  utxos : list UTxO;
  (** The number of transactions applied so far. *)
  height : nat;
  (** The provider is down: it rejects every request. *)
  down : bool;
}.

#[export] Instance World_eq_dec : EqDecision World.
Proof. solve_decision. Defined.

(** The identifier of the [n]-th transaction applied. *)
Definition tx_id (n : nat) : string := "tx" +:+ pretty n.

Definition unavailable : error := Remote "503 Service Unavailable".
Definition bad_inputs : error := Remote "BadInputsUTxO".

(** [u] is unspent in [w]: the chain knows outputs by their reference. *)
Definition unspent (w : World) (u : UTxO) : Prop :=
  outRef u ∈ outRef <$> utxos w.

(** [u] is one of the inputs [tx] spends. *)
Definition spent_by (tx : Tx) (u : UTxO) : Prop :=
  outRef u ∈ outRef <$> tx_inputs tx.

#[export] Instance unspent_dec w u : Decision (unspent w u).
Proof. unfold unspent. apply _. Defined.
#[export] Instance spent_by_dec tx u : Decision (spent_by tx u).
Proof. unfold spent_by. apply _. Defined.

(** The [i]-th output of the transaction [id], as an unspent output. *)
Definition created (id : string) (i : nat)
    (o : string * OutputData * gmap string Z) : UTxO :=
  {| outRef := {| txHash := id; outputIndex := Z.of_nat i |};
     address := o.1.1; assets := o.2;
     datumHash := hash o.1.2; datum := inline o.1.2;
     scriptRef := od_scriptRef o.1.2 |}.

Definition produced (id : string) (tx : Tx) : list UTxO :=
  imap (created id) (tx_outputs tx).

(** The chain after [tx]: without what it spends, with what it pays. *)
Definition after (tx : Tx) (w : World) : World :=
  {| env := env w;
     utxos := filter (λ u, ¬ spent_by tx u) (utxos w)
              ++ produced (tx_id (height w)) tx;
     height := S (height w);
     down := down w |}.

(** A transaction is applied when all it spends and refers to is
    unspent, and rejected otherwise. *)
Definition apply_tx (tx : Tx) (w : World) : result World :=
  if decide (Forall (unspent w) (tx_inputs tx ++ tx_references tx))
  then Ok (after tx w)
  else Err bad_inputs.

(** What the provider answers: [x], or its rejection when it is down. *)
Definition provider_says {A} (w : World) (x : A) : result A :=
  if down w then Err unavailable else Ok x.

(** The unspent outputs at an address, and those with one of the
    references [refs], in the order of the chain. *)
Definition at_address (addr : string) (w : World) : list UTxO :=
  filter (λ u, address u = addr) (utxos w).

Definition by_outRef (refs : list OutRef) (w : World) : list UTxO :=
  filter (λ u, outRef u ∈ refs) (utxos w).

(** The world answers every call; only [submit] changes it. *)
Definition node : handler World :=
  λ r,
    match r as r return World → result (response r) * World with
    | EnvGet name => λ w, (Ok (env w !! name), w)
    | LucidNew _ _ => λ w, (provider_says w (), w)
    | SelectWalletFromSeed _ _ => λ w, (Ok (), w)
    | UtxosByOutRef _ refs =>
        λ w, (provider_says w (by_outRef refs w), w)
    | UtxosAt _ addr =>
        λ w, (provider_says w (at_address addr w), w)
    | Complete _ tx => λ w, (provider_says w {| tc_tx := tx; tc_cbor := "" |}, w)
    | Sign l tx =>
        λ w, (Ok {| ts_tx := tx; ts_witnesses := option_list (wallet l) |}, w)
    | Submit _ tx =>
        λ w, match provider_says w () ≫= λ _, apply_tx (tc_tx (ts_tx tx)) w with
             | Ok w' => (Ok (tx_id (height w)), w')
             | Err e => (Err e, w)
             end
    | WriteTextFileSync _ _ => λ w, (Ok (), w)
    end.

(** [serves h w t w']: the calls of [t] were answered by [h], one after
    the other, starting in [w] and ending in [w']. *)
Fixpoint serves {W} (h : handler W) (w : W) (t : list call) (w' : W) : Prop :=
  match t with
  | [] => w' = w
  | Call r x :: t => (h r w).1 = x ∧ serves h (h r w).2 t w'
  end.

#[export] Instance serves_dec `{EqDecision W} (h : handler W) w t w' :
  Decision (serves h w t w').
Proof. revert w. induction t as [|[r x] t IH]; intros w; simpl; apply _. Defined.

(** Every output reference of the chain is unique, and none has the id
    of a transaction to come. *)
Definition wf (w : World) : Prop :=
  NoDup (outRef <$> utxos w)
  ∧ ∀ u k, u ∈ utxos w → (height w ≤ k)%nat → txHash (outRef u) ≠ tx_id k.

(** The chain moves by applying transactions: [evolves w w'] when [w']
    is [w] after some transactions. *)
Definition evolves : relation World := rtc (λ w w', ∃ tx, w' = after tx w).

(** ** Theorems: handlers *)

Section serves.
Context {W : Type} (h : handler W).
Implicit Types (w : W) (t : list call).

(** A run against the handler is the execution the handler serves. *)
Lemma run_serves {A} (p : prog A) w t res w' :
  runs p t res → serves h w t w' → run h p w = (res, w', t).
Proof.
  revert w t. induction p as [a|e|r k IH]; intros w t; simpl.
  - by intros [-> ->] ->.
  - by intros [-> ->] ->.
  - intros (x & t' & -> & Hk) [Hx Ht]. simpl in *.
    destruct (h r w) as [y w1]. simpl in *. subst y.
    by rewrite (IH _ _ _ Hk Ht).
Qed.

Lemma serves_run {A} (p : prog A) w :
  serves h w (run h p w).2 (run h p w).1.2.
Proof.
  revert w. induction p as [a|e|r k IH]; intros w; simpl; [done..|].
  destruct (h r w) as [x w1] eqn:E. specialize (IH x w1).
  destruct (run h (k x) w1) as [[res w2] t]. simpl in *. by rewrite E.
Qed.

Lemma serves_app w t1 t2 w' :
  serves h w (t1 ++ t2) w' ↔ ∃ w1, serves h w t1 w1 ∧ serves h w1 t2 w'.
Proof.
  revert w. induction t1 as [|[r x] t1 IH]; intros w; simpl.
  - split; [by exists w | by intros (? & -> & ?)].
  - rewrite IH. split.
    + intros [Hx (w1 & H1 & H2)]. by exists w1.
    + intros (w1 & [Hx H1] & H2). split; [done|]. by exists w1.
Qed.

(** The handler is a function: what it serves determines the end. *)
Lemma serves_det w t w1 w2 : serves h w t w1 → serves h w t w2 → w1 = w2.
Proof.
  revert w. induction t as [|[r x] t IH]; intros w; simpl.
  - by intros -> ->.
  - intros [_ H1] [_ H2]. eauto.
Qed.

End serves.

(** ** Theorems: transactions *)

Section apply_tx.
Implicit Types (w : World) (tx : Tx) (u : UTxO).

Lemma tx_id_inj : Inj (=) (=) tx_id.
Proof. intros n m E. apply String.app_inj in E. by apply (inj pretty). Qed.

Lemma apply_tx_Ok tx w w' :
  apply_tx tx w = Ok w' ↔
    Forall (unspent w) (tx_inputs tx ++ tx_references tx) ∧ w' = after tx w.
Proof.
  unfold apply_tx. case_decide; split; try done.
  - by intros [= <-].
  - by intros [_ ->].
  - by intros [].
Qed.

(** A transaction that spends an output already spent is rejected, and
    only such a transaction is. *)
Lemma apply_tx_Err tx w e :
  apply_tx tx w = Err e ↔
    e = bad_inputs ∧ Exists (λ u, ¬ unspent w u) (tx_inputs tx ++ tx_references tx).
Proof.
  unfold apply_tx. case_decide as H; split; try done.
  - by intros [_ ?%Exists_not_Forall].
  - intros [= <-]. split; [done|]. by apply not_Forall_Exists; [apply _|].
  - by intros [-> _].
Qed.

Lemma produced_lookup id tx i u :
  produced id tx !! i = Some u ↔
    ∃ o, tx_outputs tx !! i = Some o ∧ u = created id i o.
Proof. apply list_lookup_imap_Some. Qed.

Lemma produced_txHash id tx u : u ∈ produced id tx → txHash (outRef u) = id.
Proof.
  intros [i (o & _ & ->)%produced_lookup]%list_elem_of_lookup. done.
Qed.

Lemma produced_NoDup id tx : NoDup (outRef <$> produced id tx).
Proof.
  apply NoDup_alt. intros i j r.
  rewrite !list_lookup_fmap, !fmap_Some.
  intros (u & (o & _ & ->)%produced_lookup & ->)
         (u' & (o' & _ & ->)%produced_lookup & [= E]). lia.
Qed.

(** Applying a transaction keeps the chain well formed. *)
Lemma after_wf tx w : wf w → wf (after tx w).
Proof.
  intros [Hnd Hfresh]. split; simpl.
  - rewrite fmap_app. apply NoDup_app. split_and!.
    + apply (NoDup_fmap_2_strong _); [|by eapply NoDup_filter, NoDup_fmap_1].
      intros u u' [_ Hu]%list_elem_of_filter [_ Hu']%list_elem_of_filter E.
      by apply (NoDup_fmap_inj outRef (utxos w)).
    + intros r (u & -> & [_ Hu]%list_elem_of_filter)%list_elem_of_fmap
               (u' & E & Hu'%produced_txHash)%list_elem_of_fmap.
      apply (Hfresh u (height w) Hu); [done|]. by rewrite E.
    + apply produced_NoDup.
  - intros u k [[_ Hu]%list_elem_of_filter | Hu%produced_txHash]%elem_of_app Hk.
    + apply Hfresh; [done | lia].
    + rewrite Hu. intros E%tx_id_inj. lia.
Qed.

Lemma apply_tx_wf tx w w' : wf w → apply_tx tx w = Ok w' → wf w'.
Proof. intros Hw [_ ->]%apply_tx_Ok. by apply after_wf. Qed.

(** In a well-formed chain an unspent output is known by its reference. *)
Lemma wf_outRef_inj w u u' :
  wf w → u ∈ utxos w → u' ∈ utxos w → outRef u = outRef u' → u = u'.
Proof. intros [Hnd _]. by apply NoDup_fmap_inj. Qed.

(** The reference of an unspent output finds it, and nothing else. *)
Lemma by_outRef_unspent w u :
  wf w → u ∈ utxos w → by_outRef [outRef u] w = [u].
Proof. intros [Hnd _] Hu. by apply filter_key. Qed.

(** What is unspent at an address after a transaction: what was there
    and is not spent, then what the transaction pays there. *)
Lemma at_address_after addr tx w :
  at_address addr (after tx w)
  = filter (λ u, ¬ spent_by tx u) (at_address addr w)
    ++ filter (λ u, address u = addr) (produced (tx_id (height w)) tx).
Proof. unfold at_address. simpl. by rewrite filter_app, filter_comm. Qed.

(** An unspent output stays until a transaction spends it. *)
Lemma after_unspent tx w u :
  u ∈ utxos w → ¬ spent_by tx u → u ∈ utxos (after tx w).
Proof. intros Hu Hs. apply elem_of_app. left. by apply list_elem_of_filter. Qed.

(** In a well-formed chain a transaction spends what it collects from
    the chain, and nothing else. *)
Lemma spent_by_inputs w tx u :
  wf w → u ∈ utxos w → Forall (λ i, i ∈ utxos w) (tx_inputs tx) →
  spent_by tx u ↔ u ∈ tx_inputs tx.
Proof.
  intros Hw Hu Hin. unfold spent_by. rewrite list_elem_of_fmap. split.
  - intros (i & E & Hi). rewrite Forall_forall in Hin.
    by rewrite (wf_outRef_inj w u i Hw Hu (Hin i Hi) E).
  - intros Hi. by exists u.
Qed.

(** What a transaction spends is gone once it is applied: no output of
    the chain has its reference any more. *)
Lemma spent_gone w tx u :
  wf w → unspent w u → u ∈ tx_inputs tx → ¬ unspent (after tx w) u.
Proof.
  intros [_ Hfresh] (u0 & E0 & Hu0)%list_elem_of_fmap Hin.
  unfold unspent. simpl. rewrite fmap_app, elem_of_app.
  intros [(u' & E & [Hs _]%list_elem_of_filter)%list_elem_of_fmap
         |(u' & E & Hu'%produced_txHash)%list_elem_of_fmap].
  - apply Hs. unfold spent_by. rewrite <- E. by apply list_elem_of_fmap_2.
  - apply (Hfresh u0 (height w) Hu0); [done|]. by rewrite <- E0, E.
Qed.

(** Of two transactions that spend the same output, the second to reach
    the chain is rejected. *)
Lemma double_spend w w1 tx1 tx2 u :
  wf w → apply_tx tx1 w = Ok w1 → u ∈ tx_inputs tx1 → u ∈ tx_inputs tx2 →
  apply_tx tx2 w1 = Err bad_inputs.
Proof.
  intros Hw [Hall ->]%apply_tx_Ok H1 H2. apply apply_tx_Err. split; [done|].
  apply Exists_exists. exists u. split; [apply elem_of_app; by left|].
  apply spent_gone; [done| |done].
  rewrite Forall_forall in Hall. apply Hall, elem_of_app. by left.
Qed.

(** ** Theorems: the chain over time *)

(** As the chain evolves it stays well formed and grows, and each of
    its outputs is one it had or one of a transaction applied since. *)
Lemma evolves_old w0 w :
  wf w0 → evolves w0 w →
  wf w ∧ (height w0 ≤ height w)%nat
  ∧ ∀ u, u ∈ utxos w →
      u ∈ utxos w0
      ∨ ∃ k, (height w0 ≤ k)%nat ∧ txHash (outRef u) = tx_id k.
Proof.
  intros Hw0. revert w. apply rtc_ind_r; [|intros w1 w _ [tx ->] IH].
  - split_and!; [done..|]. by left.
  - destruct IH as (Hw1 & Hle & Hold). split_and!.
    + by apply after_wf.
    + simpl. lia.
    + intros u [[_ Hu]%list_elem_of_filter | Hu%produced_txHash]%elem_of_app.
      * by apply Hold.
      * right. by exists (height w1).
Qed.

(** An output that is still unspent later is the output it was. *)
Lemma evolves_unspent w0 w u :
  wf w0 → evolves w0 w → u ∈ utxos w0 → unspent w u → u ∈ utxos w.
Proof.
  intros Hw0 Hev Hu (u' & E & Hu')%list_elem_of_fmap.
  destruct (evolves_old w0 w Hw0 Hev) as (_ & _ & Hold).
  destruct (Hold u' Hu') as [Hu0 | (k & Hk & Hid)].
  - by rewrite (wf_outRef_inj w0 u u' Hw0 Hu Hu0 E).
  - destruct Hw0 as [_ Hfresh]. destruct (Hfresh u k Hu Hk). by rewrite E.
Qed.

(** ** Theorems: the node *)

Lemma provider_says_Ok {A} w (x y : A) :
  provider_says w x = Ok y ↔ down w = false ∧ y = x.
Proof.
  unfold provider_says. destruct (down w); split.
  - done.
  - by intros [? _].
  - by intros [= ->].
  - by intros [_ ->].
Qed.

(** A [submit] the node accepts applies its transaction, under the
    identifier the node returns. *)
Lemma node_submit l (signed : TxSigned) w h :
  (node (Submit l signed) w).1 = Ok h →
  h = tx_id (height w)
  ∧ apply_tx (tc_tx (ts_tx signed)) w = Ok (node (Submit l signed) w).2.
Proof.
  unfold node, provider_says. destruct (down w); [done|].
  rewrite result_Ok_bind. destruct (apply_tx _ w); [|done].
  by intros [= <-].
Qed.

(** Every other call, and a [submit] the node rejects, leaves the chain
    as it was. *)
Lemma node_quiet r x w :
  (node r w).1 = x → submitted (Call r x) = false → (node r w).2 = w.
Proof.
  destruct r; try done. unfold node, provider_says.
  destruct (down w); [done|]. rewrite result_Ok_bind.
  destruct (apply_tx _ w); [|done]. by intros <-.
Qed.

Lemma serves_quiet w t w' :
  serves node w t w' → existsb submitted t = false → w' = w.
Proof.
  revert w. induction t as [|[r x] t IH]; intros w; [done|].
  cbn [serves existsb]. intros [Hx Ht] [Hr Hq]%orb_false_iff.
  rewrite (node_quiet r x w Hx Hr) in Ht. by apply IH.
Qed.

End apply_tx.
