(* ===== verification/Pool.v ===== *)
(** * Pool: several programs against one handler

    The sources run one program per process, and several processes can
    talk to the same provider at once.  A pool is a list of programs; a
    schedule says which program makes its next call, one entry per
    turn; [run_pool] executes the pool under a schedule and records the
    calls, each tagged with the index of the program that made it (an
    [event]).  [thread i g] is what program [i] saw of the global
    execution [g].

    The theorems connect the execution of a pool to the executions of
    its programs: the handler served the recorded calls in their order
    ([run_pool_serves]), the calls of each program are a prefix of an
    execution of it ([run_pool_follows]) and a complete one when it has
    finished ([follows_runs]), a program whose executions have at
    most [n] calls has finished once it had [n] turns
    ([run_pool_finished]), and [n] turns in a row run it as [run] does
    ([run_pool_turns]).  For executions that are not complete: one more
    turn extends what a program has made of its calls
    ([follows_advance]), what it has made can be completed
    ([follows_completes]) and is no longer than its longest execution
    ([follows_length]), and the calls of a pool are the calls of its
    programs ([threads_length]). *)

From stdpp Require Import base tactics numbers option list.
From S2P Require Import Prelude Lucid Chain.

(** ** Definitions *)

(** A call of a global execution, with the program that made it. *)
Definition event : Type := nat * call.

(** The calls of program [i], in order. *)
Definition thread (i : nat) (g : list event) : list call :=
  (filter (λ e, e.1 = i) g).*2.

(** The number of turns the schedule gives to program [i]. *)
Definition turns (i : nat) (sched : list nat) : nat :=
  length (filter (λ j, j = i) sched).

(** What a program has ended with, if it has ended. *)
Definition outcome {A} (p : prog A) : option (result A) :=
  match p with
  | Ret a => Some (Ok a)
  | Throw e => Some (Err e)
  | Vis _ _ => None
  end.

Definition finished {A} (p : prog A) : bool :=
  match p with Vis _ _ => false | _ => true end.

(** One turn: the program makes its next call, if it has one. *)
Definition advance {W A} (h : handler W) (p : prog A) (w : W)
    : prog A * W * list call :=
  match p with
  | Vis r k => let '(x, w') := h r w in (k x, w', [Call r x])
  | _ => (p, w, [])
  end.

(** The pool under a schedule: the programs left, the state of the
    handler, and the calls made.  A turn given to a program that is not
    there or has finished is lost. *)
Fixpoint run_pool {W A} (h : handler W) (sched : list nat)
    (ps : list (prog A)) (w : W) : list (prog A) * W * list event :=
  match sched with
  | [] => (ps, w, [])
  | i :: sched =>
      match ps !! i with
      | Some p =>
          let '(p', w1, c) := advance h p w in
          let '(ps', w', g) := run_pool h sched (<[i := p']> ps) w1 in
          (ps', w', (pair i <$> c) ++ g)
      | None => run_pool h sched ps w
      end
  end.

(** The program that has ended with [res]. *)
Definition ended {A} (res : result A) : prog A :=
  match res with Ok a => Ret a | Err e => Throw e end.

(** The schedule that gives [k] turns to each of the [n] programs from
    program [i] on, one program after the other. *)
Definition in_turn (k i n : nat) : list nat :=
  mjoin (replicate k <$> seq i n).

(** [follows p t p']: [p] makes the calls of [t], receives the answers
    recorded there, and is then [p']. *)
Fixpoint follows {A} (p : prog A) (t : list call) (p' : prog A) : Prop :=
  match p with
  | Vis r k =>
      (t = [] ∧ p' = p) ∨ ∃ x t', t = Call r x :: t' ∧ follows (k x) t' p'
  | _ => t = [] ∧ p' = p
  end.

(** [ends_within n p]: no execution of [p] has more than [n] calls. *)
Fixpoint ends_within {A} (n : nat) (p : prog A) {struct p} : Prop :=
  match p with
  | Vis r k =>
      match n with O => False | S n => ∀ x, ends_within n (k x) end
  | _ => True
  end.

(** ** Theorems: threads *)

Section threads.
Implicit Types (g : list event) (i : nat) (c : call).

Lemma thread_app i g1 g2 : thread i (g1 ++ g2) = thread i g1 ++ thread i g2.
Proof. unfold thread. by rewrite filter_app, fmap_app. Qed.

Lemma thread_cons i c g : thread i ((i, c) :: g) = c :: thread i g.
Proof. unfold thread. by rewrite filter_cons_True. Qed.

Lemma thread_cons_ne i j c g : j ≠ i → thread i ((j, c) :: g) = thread i g.
Proof. intros. unfold thread. by rewrite filter_cons_False. Qed.

Lemma thread_elem i c g : c ∈ thread i g → c ∈ g.*2.
Proof.
  intros (e & -> & [_ He]%list_elem_of_filter)%list_elem_of_fmap.
  by apply list_elem_of_fmap_2.
Qed.

Lemma thread_notin i g : i ∉ g.*1 → thread i g = [].
Proof.
  induction g as [|[j c] g IH]; [done|].
  rewrite fmap_cons, not_elem_of_cons. intros [Hj Hg].
  rewrite thread_cons_ne by done. by apply IH.
Qed.

Lemma thread_length i g :
  length (thread i g) = length (filter (λ e : event, e.1 = i) g).
Proof. unfold thread. by rewrite length_fmap. Qed.

(** The calls of the other programs, without those of program [n]. *)
Lemma thread_filter_ne i n g :
  i ≠ n → thread i (filter (λ e : event, e.1 ≠ n) g) = thread i g.
Proof.
  intros Hne. induction g as [|[j c] g IH]; [done|].
  destruct (decide (j = n)) as [->|Hj].
  - rewrite filter_cons_False by (simpl; tauto). by rewrite thread_cons_ne.
  - rewrite filter_cons_True by done. destruct (decide (j = i)) as [->|Hi].
    + by rewrite !thread_cons, IH.
    + by rewrite !thread_cons_ne, IH.
Qed.

(** [n] programs that make at most [k] calls each make at most [k * n]
    calls together. *)
Lemma threads_length k n (g : list event) :
  (∀ i, i ∈ g.*1 → i < n) → (∀ i, i < n → length (thread i g) ≤ k) →
  length g ≤ k * n.
Proof.
  revert g. induction n as [|n IH]; intros g Htags Hk.
  { destruct g as [|e g]; [simpl; lia|].
    specialize (Htags e.1). rewrite fmap_cons in Htags.
    pose proof (Htags (list_elem_of_here _ _)). lia. }
  pose proof (filter_app_complement (λ e : event, e.1 = n) g) as Hp.
  apply Permutation_length in Hp. rewrite length_app, <- thread_length in Hp.
  specialize (IH (filter (λ e : event, e.1 ≠ n) g)).
  specialize (Hk n) as Hn.
  assert (length (filter (λ e : event, e.1 ≠ n) g) ≤ k * n); [|lia].
  apply IH.
  - intros i (e & -> & [He Hin]%list_elem_of_filter)%list_elem_of_fmap.
    assert (e.1 < S n) by (by apply Htags, list_elem_of_fmap_2). lia.
  - intros i Hi. rewrite thread_filter_ne by lia. apply Hk. lia.
Qed.

Lemma thread_nil i g : thread i g = [] → i ∉ g.*1.
Proof.
  intros Hnil (e & Ei & He)%list_elem_of_fmap.
  assert (e.2 ∈ thread i g) as Hin
    by by apply list_elem_of_fmap_2, list_elem_of_filter.
  rewrite Hnil in Hin. by apply elem_of_nil in Hin.
Qed.

End threads.

(** ** Theorems: programs step by step *)

Section follows.
Context {A : Type}.
Implicit Types (p : prog A) (t : list call).

Lemma follows_refl p : follows p [] p.
Proof. destruct p; simpl; auto. Qed.

Lemma follows_nil p p' : follows p [] p' → p' = p.
Proof. destruct p; simpl; [by intros [_ ->]..|]. by intros [[_ ->]|(? & ? & [=] & _)]. Qed.

Lemma follows_step r (k : result (response r) → prog A) x t p' :
  follows (k x) t p' → follows (Vis r k) (Call r x :: t) p'.
Proof. intros H. right. by exists x, t. Qed.

(** The calls a program made until it ended are an execution of it. *)
Lemma follows_runs p t p' res :
  follows p t p' → outcome p' = Some res → runs p t res.
Proof.
  revert t. induction p as [a|e|r k IH]; intros t; simpl.
  - by intros [-> ->] [= <-].
  - by intros [-> ->] [= <-].
  - intros [[-> ->] | (x & t' & -> & H)] Hres; [done|].
    exists x, t'. split; [done|]. by apply IH.
Qed.

(** A program that has made some of its calls can make the others. *)
Lemma follows_completes p t p' : follows p t p' → ∃ t' res, runs p (t ++ t') res.
Proof.
  revert t. induction p as [a|e|r k IH]; intros t; simpl.
  - intros [-> _]. by exists [], (Ok a).
  - intros [-> _]. by exists [], (Err e).
  - intros [[-> _] | (x & t1 & -> & H)]; [apply (runs_exists (Vis r k))|].
    destruct (IH x t1 H) as (t' & res & Hr). by exists t', res, x, (t1 ++ t').
Qed.

Lemma advance_Vis {W} (h : handler W) r (k : result (response r) → prog A) w :
  advance h (Vis r k) w = (k (h r w).1, (h r w).2, [Call r (h r w).1]).
Proof. simpl. by destruct (h r w). Qed.

(** One more turn extends what the program has made of its calls. *)
Lemma follows_advance {W} (h : handler W) p t p' w :
  follows p t p' →
  follows p (t ++ (advance h p' w).2) (advance h p' w).1.1.
Proof.
  revert t. induction p as [a|e|r k IH]; intros t.
  1,2: by intros [-> ->].
  intros [[-> ->] | (x & t' & -> & H)].
  - rewrite advance_Vis. right. exists (h r w).1, []. split; [done|].
    apply follows_refl.
  - right. exists x, (t' ++ (advance h p' w).2). split; [done|]. by apply IH.
Qed.

(** A program that ends within [k] calls never made more. *)
Lemma follows_length k p t p' :
  ends_within k p → follows p t p' → length t ≤ k.
Proof.
  revert k t. induction p as [a|e|r c IH]; intros k t Hk; simpl.
  1,2: intros [-> _]; simpl; lia.
  intros [[-> _] | (x & t' & -> & H)]; [simpl; lia|].
  destruct k as [|k]; [done|]. simpl. apply le_n_S. by eapply IH.
Qed.

(** What is left of a program ends within the bound of the program. *)
Lemma follows_ends_within k p t p' :
  ends_within k p → follows p t p' → ends_within (k - length t) p'.
Proof.
  revert k t. induction p as [a|e|r c IH]; intros k t Hk; simpl.
  1,2: by intros [_ ->].
  intros [[-> ->] | (x & t' & -> & H)]; [by rewrite Nat.sub_0_r|].
  destruct k as [|k]; [done|]. simpl. by eapply IH.
Qed.

Lemma ends_within_mono n m p : (n ≤ m)%nat → ends_within n p → ends_within m p.
Proof.
  revert n m. induction p as [a|e|r k IH]; intros n m Hnm; simpl; [done..|].
  destruct n as [|n]; [done|]. destruct m as [|m]; [lia|].
  intros H x. apply (IH x n); [lia | done].
Qed.

Lemma ends_within_0 p : ends_within 0 p → finished p = true.
Proof. by destruct p. Qed.

Lemma finished_outcome p : finished p = true → is_Some (outcome p).
Proof. destruct p; by eauto. Qed.

End follows.

(** ** Theorems: the pool *)

Section pool.
Context {W A : Type} (h : handler W).
Implicit Types (ps : list (prog A)) (w : W) (sched : list nat)
  (g : list event).

(** What a turn of program [i] does to the pool and to the execution. *)
Lemma run_pool_cons i sched ps w p :
  ps !! i = Some p →
  run_pool h (i :: sched) ps w
  = let '(ps', w', g) :=
      run_pool h sched (<[i := (advance h p w).1.1]> ps) (advance h p w).1.2 in
    (ps', w', (pair i <$> (advance h p w).2) ++ g).
Proof. intros Hp. simpl. rewrite Hp. by destruct (advance h p w) as [[? ?] ?]. Qed.

(** The handler served the calls of the pool, in their order. *)
Lemma run_pool_serves sched ps w :
  serves h w (run_pool h sched ps w).2.*2 (run_pool h sched ps w).1.2.
Proof.
  revert ps w. induction sched as [|i sched IH]; intros ps w; [done|].
  destruct (ps !! i) as [p|] eqn:Hp; [|simpl; rewrite Hp; apply IH].
  rewrite (run_pool_cons i sched ps w p Hp).
  specialize (IH (<[i := (advance h p w).1.1]> ps) (advance h p w).1.2).
  destruct (run_pool h sched _ _) as [[ps' w'] g]. simpl in *.
  destruct p as [a|e|r k]; simpl in *; [done..|].
  destruct (h r w) as [x w1] eqn:E. simpl in *. by rewrite E.
Qed.

(** The calls of each program are calls of it, in order. *)
Lemma run_pool_follows sched ps w i p :
  ps !! i = Some p →
  ∃ p', (run_pool h sched ps w).1.1 !! i = Some p'
        ∧ follows p (thread i (run_pool h sched ps w).2) p'.
Proof.
  revert ps w p. induction sched as [|j sched IH]; intros ps w p Hi.
  { exists p. split; [done | apply follows_refl]. }
  destruct (ps !! j) as [q|] eqn:Hq; [|simpl; rewrite Hq; by apply IH].
  rewrite (run_pool_cons j sched ps w q Hq).
  pose proof (lookup_lt_Some _ _ _ Hq) as Hlt.
  destruct (decide (j = i)) as [->|Hne].
  - assert (q = p) as -> by congruence.
    destruct (IH (<[i := (advance h p w).1.1]> ps) (advance h p w).1.2
                (advance h p w).1.1) as (p' & Hp' & Hf);
      [by apply list_lookup_insert_eq|].
    destruct (run_pool h sched _ _) as [[ps' w'] g]. simpl in *.
    exists p'. split; [done|].
    destruct p as [a|e|r k]; simpl in *; [done..|].
    destruct (h r w) as [x w1]. simpl in *. rewrite thread_cons.
    by apply follows_step.
  - destruct (IH (<[j := (advance h q w).1.1]> ps) (advance h q w).1.2 p)
      as (p' & Hp' & Hf); [by rewrite list_lookup_insert_ne|].
    destruct (run_pool h sched _ _) as [[ps' w'] g]. simpl in *.
    exists p'. split; [done|]. rewrite thread_app.
    replace (thread i (pair j <$> (advance h q w).2)) with (@nil call); [done|].
    destruct q as [a|e|r k]; simpl; [done..|].
    destruct (h r w). simpl. by rewrite thread_cons_ne.
Qed.

Lemma run_pool_length sched ps w :
  length (run_pool h sched ps w).1.1 = length ps.
Proof.
  revert ps w. induction sched as [|j sched IH]; intros ps w; [done|].
  destruct (ps !! j) as [q|] eqn:Hq; [|simpl; rewrite Hq; by apply IH].
  rewrite (run_pool_cons j sched ps w q Hq).
  specialize (IH (<[j := (advance h q w).1.1]> ps) (advance h q w).1.2).
  destruct (run_pool h sched _ _) as [[ps' w'] g]. simpl in *.
  by rewrite IH, length_insert.
Qed.

(** Only programs of the pool make calls. *)
Lemma run_pool_tags sched ps w i :
  i ∈ (run_pool h sched ps w).2.*1 → is_Some (ps !! i).
Proof.
  revert ps w. induction sched as [|j sched IH]; intros ps w.
  { by intros ?%elem_of_nil. }
  destruct (ps !! j) as [q|] eqn:Hq; [|simpl; rewrite Hq; by apply IH].
  rewrite (run_pool_cons j sched ps w q Hq).
  specialize (IH (<[j := (advance h q w).1.1]> ps) (advance h q w).1.2).
  destruct (run_pool h sched _ _) as [[ps' w'] g]. simpl in *.
  rewrite fmap_app, elem_of_app, <- list_fmap_compose.
  intros [(c & -> & _)%list_elem_of_fmap | Hi]; [by eexists|].
  apply IH in Hi. apply lookup_lt_is_Some. apply lookup_lt_is_Some in Hi.
  by rewrite length_insert in Hi.
Qed.

(** A program with at most [n] calls has finished after [n] turns. *)
Lemma run_pool_finished sched ps w i p :
  ps !! i = Some p → ends_within (turns i sched) p →
  ∃ p', (run_pool h sched ps w).1.1 !! i = Some p' ∧ finished p' = true.
Proof.
  revert ps w p. induction sched as [|j sched IH]; intros ps w p Hi He.
  { exists p. split; [done | by apply ends_within_0]. }
  destruct (ps !! j) as [q|] eqn:Hq.
  2: { simpl. rewrite Hq. apply (IH _ _ p Hi).
       unfold turns in *. rewrite filter_cons_False in He; [done|].
       intros ->. congruence. }
  rewrite (run_pool_cons j sched ps w q Hq). unfold turns in He.
  destruct (decide (j = i)) as [->|Hne].
  - assert (q = p) as -> by congruence. rewrite filter_cons_True in He by done.
    destruct (IH (<[i := (advance h p w).1.1]> ps) (advance h p w).1.2
                (advance h p w).1.1) as (p' & Hp' & Hf).
    + apply list_lookup_insert_eq. by eapply lookup_lt_Some.
    + destruct p as [a|e|r k]; simpl in *; [done..|].
      destruct (h r w) as [x w1]. apply He.
    + destruct (run_pool h sched _ _) as [[ps' w'] g]. by exists p'.
  - rewrite filter_cons_False in He by done.
    destruct (IH (<[j := (advance h q w).1.1]> ps) (advance h q w).1.2 p)
      as (p' & Hp' & Hf); [by rewrite list_lookup_insert_ne | done |].
    destruct (run_pool h sched _ _) as [[ps' w'] g]. by exists p'.
Qed.

(** Enough turns in a row run a program to its end, as [run] does. *)
Lemma run_pool_turns k i sched ps w p :
  ps !! i = Some p → ends_within k p →
  run_pool h (replicate k i ++ sched) ps w
  = let '(res, w1, t) := run h p w in
    let '(ps', w', g) := run_pool h sched (<[i := ended res]> ps) w1 in
    (ps', w', (pair i <$> t) ++ g).
Proof.
  revert ps w p. induction k as [|k IH]; intros ps w p Hp He.
  { destruct p as [a|e|r c]; [..|done]; simpl;
      rewrite list_insert_id by done;
      by destruct (run_pool h sched ps w) as [[??]?]. }
  cbn [replicate app]. rewrite (run_pool_cons i _ ps w p Hp).
  destruct p as [a|e|r c]; cbn [advance fst snd run].
  1,2: rewrite list_insert_id, (IH ps w _ Hp) by done; cbn [run];
    by destruct (run_pool h sched _ w) as [[??]?].
  destruct (h r w) as [x w1]. cbn [fst snd].
  rewrite (IH _ w1 (c x));
    [|by eapply list_lookup_insert_eq, lookup_lt_Some|done].
  destruct (run h (c x) w1) as [[res w2] t]. rewrite list_insert_insert_eq.
  by destruct (run_pool h sched _ w2) as [[??]?].
Qed.

End pool.
