(* ===== verification/Asteria.v ===== *)
(** * Asteria: the protocol [createShip] takes a step of

    What the builder is for, stated without the builder: the Asteria
    state is a counter and a balance, and creating a ship gives the ship
    the counter as its number, increments the counter and adds the fee
    to the balance ([create]).  [represents] says when a chain holds
    such a state for a deployment: one UTxO at the Asteria address with
    the counter in its datum and the balance in its lovelace, one UTxO
    at the Spacetime address for each ship, the two reference UTxOs, a
    seed in the environment.

    The theorems relate the two: in a chain that represents [s], a run
    of [createShip] against the node returns the identifier of its
    transaction and leaves a chain that represents [create ... s]
    ([createShip_refines]); repeated, the runs count the counter up and
    leave one ship each ([createShip_iterates]), and the ships hold
    different tokens ([ships_distinct]).  The chain determines the
    state it holds ([represents_unique]).  On any chain a run changes the
    chain at most once and as a whole ([createShip_atomic]), and of two
    runs that read the same Asteria UTxO the first to submit wins and
    the other is rejected as a double spend ([createShip_race]). *)

From stdpp Require Import base tactics numbers option list strings gmap pretty.
From Stdlib Require Import ZArith Lia.
From S2P Require Import Prelude Lucid Types Utils CreateShip Chain.

#[local] Open Scope Z_scope.

(** ** The protocol *)

(** A ship: its number, its fuel and its position. *)
Record Ship := { number : Z; tank : Z; at_x : Z; at_y : Z }.

(** The state of Asteria: the number of the next ship, the lovelace it
    holds, and the ships created, oldest first. *)
Record State := { counter : Z; balance : Z; fleet : list Ship }.

#[export] Instance Ship_eq_dec : EqDecision Ship.
Proof. solve_decision. Defined.
#[export] Instance State_eq_dec : EqDecision State.
Proof. solve_decision. Defined.

(** Creating a ship for [fee] lovelace, with [initial_fuel], at
    [(pos_x, pos_y)]. *)
Definition create (fee initial_fuel pos_x pos_y : Z) (s : State) : State :=
  {| counter := counter s + 1;
     balance := balance s + fee;
     fleet := fleet s
              ++ [{| number := counter s; tank := initial_fuel;
                     at_x := pos_x; at_y := pos_y |}] |}.

(** The ships are numbered apart, below the counter. *)
Definition numbered (s : State) : Prop :=
  NoDup (number <$> fleet s) ∧ Forall (λ sh, number sh < counter s) (fleet s).

(** ** The deployment *)

(** What is fixed when Asteria is deployed: the transactions that hold
    the two scripts, the scripts, and the admin token. *)
Record Deployment := {
  d_asteriaTx : string;
  d_spacetimeTx : string;
  d_asteria : Script;
  d_spacetime : Script;
  d_admin : AssetClassT;
}.

Section deployment.
Context {L : LucidLib} (D : Deployment).

Definition asteria_address : string := validatorToAddress (d_asteria D).
Definition spacetime_address : string := validatorToAddress (d_spacetime D).
Definition shipyard_id : string := mintingPolicyToId (d_spacetime D).

(** The Asteria datum with the counter at [n]. *)
Definition datum_at (n : Z) : AsteriaDatumT :=
  {| ship_counter := n; shipyard_policy := shipyard_id |}.

(** [u] holds the Asteria state [s]. *)
Definition holds_asteria (s : State) (u : UTxO) : Prop :=
  datum u = Some (Data_to_as AsteriaDatum (datum_at (counter s)))
  ∧ ∃ ua, adminTokenUnit (d_admin D) = Ok ua
          ∧ assets u = obj2 ua 1 "lovelace" (balance s).

(** [u] holds the ship [sh]. *)
Definition holds_ship (sh : Ship) (u : UTxO) : Prop :=
  datum u
  = Some (shipDatum (tank sh) (at_x sh) (at_y sh) (datum_at (number sh)))
  ∧ ∃ us, shipTokenUnit (datum_at (number sh)) shipyard_id = Ok us
          ∧ assets u = obj2 us 1 "lovelace" 2000000.

(** [u] is the reference output of [txhash], with [scr] on it, away from
    the two script addresses. *)
Definition holds_script (txhash : string) (scr : Script) (u : UTxO) : Prop :=
  outRef u = ref_of txhash ∧ scriptRef u = Some scr
  ∧ address u ≠ asteria_address ∧ address u ≠ spacetime_address.

(** The chain [w] holds the state [s] of this deployment. *)
Record represents (w : World) (s : State) : Prop := {
  rep_wf : wf w;
  rep_up : down w = false;
  rep_seed : ∃ seed, env w !! "SEED" = Some seed ∧ seed ≠ "";
  rep_asteriaRef :
    ∃ u, u ∈ utxos w ∧ holds_script (d_asteriaTx D) (d_asteria D) u;
  rep_spacetimeRef :
    ∃ u, u ∈ utxos w ∧ holds_script (d_spacetimeTx D) (d_spacetime D) u;
  rep_asteria :
    ∃ u, at_address asteria_address w = [u] ∧ holds_asteria s u;
  rep_fleet : Forall2 holds_ship (fleet s) (at_address spacetime_address w);
  rep_addresses : asteria_address ≠ spacetime_address;
  rep_policy : is_hex shipyard_id = true;
}.

(** What the node answers to a run in [w] that reads the seed [seed] and
    the UTxOs [aref], [sref] and [u], and builds [tx]. *)
Definition node_answers (w : World) (seed : string) (aref sref u : UTxO)
    (tx : Tx) : Answers :=
  {| a_projectId := env w !! "BLOCKFROST_PROJECT_ID";
     a_seed := seed;
     a_asteriaRef := aref; a_asteriaRef_more := [];
     a_asteriaScript := d_asteria D;
     a_spacetimeRef := sref; a_spacetimeRef_more := [];
     a_spacetimeScript := d_spacetime D;
     a_asteria := u; a_asteria_more := [];
     a_completed := {| tc_tx := tx; tc_cbor := "" |};
     a_signed := {| ts_tx := {| tc_tx := tx; tc_cbor := "" |};
                    ts_witnesses := [seed] |};
     a_hash := tx_id (height w) |}.

End deployment.

(** The calls of a run that went through up to [sign]: everything
    before [submit]. *)
Definition read_phase {L : LucidLib} (asteriaRefTxHash spacetimeRefTxHash : string)
    (a : Answers) (tx : Tx) : list call :=
  take 9 (success_trace asteriaRefTxHash spacetimeRefTxHash a tx).

(** The node applied [tx] in [w] under the identifier [h], and left
    [w']. *)
Definition commits (tx : Tx) (w : World) (h : string) (w' : World) : Prop :=
  h = tx_id (height w) ∧ apply_tx tx w = Ok w'.

(** [n] ships created one after the other, all with the same arguments. *)
Fixpoint creates (fee initial_fuel pos_x pos_y : Z) (n : nat) (s : State)
    : State :=
  match n with
  | O => s
  | S n => create fee initial_fuel pos_x pos_y
             (creates fee initial_fuel pos_x pos_y n s)
  end.

(** The programs [ps] run against the handler [h], one after the other:
    the results, in order, and the world they leave. *)
Fixpoint run_all {W A} (h : handler W) (ps : list (prog A)) (w : W)
    : list (result A) * W :=
  match ps with
  | [] => ([], w)
  | p :: ps => let '(res, w1, _) := run h p w in
               let '(rs, w2) := run_all h ps w1 in
               (res :: rs, w2)
  end.

(** [n] runs of [p] against the handler [h], one after the other; the
    results, oldest first, and the world they leave. *)
Fixpoint run_times {W A} (h : handler W) (p : prog A) (n : nat) (w : W)
    : list (result A) * W :=
  match n with
  | O => ([], w)
  | S n => let '(res, w1, _) := run h p w in
           let '(rs, w2) := run_times h p n w1 in
           (res :: rs, w2)
  end.

(** ** Theorems: the protocol *)

Section protocol.
Context (fee initial_fuel pos_x pos_y : Z).
Implicit Types (s : State) (n : nat).

Lemma create_numbered s :
  numbered s → numbered (create fee initial_fuel pos_x pos_y s).
Proof.
  intros [Hnd Hlt]. split; simpl.
  - rewrite fmap_app. apply NoDup_app. split_and!; [done| |apply NoDup_singleton].
    intros n (sh & -> & Hsh)%list_elem_of_fmap E%list_elem_of_singleton.
    rewrite Forall_forall in Hlt. specialize (Hlt _ Hsh). simpl in E. lia.
  - apply Forall_app. split.
    + eapply Forall_impl; [done|]. simpl. intros. lia.
    + apply Forall_singleton. simpl. lia.
Qed.

Lemma creates_counter n s :
  counter (creates fee initial_fuel pos_x pos_y n s) = counter s + Z.of_nat n.
Proof.
  induction n as [|n IH]; simpl; lia.
Qed.

Lemma creates_balance n s :
  balance (creates fee initial_fuel pos_x pos_y n s)
  = balance s + Z.of_nat n * fee.
Proof.
  induction n as [|n IH]; simpl; lia.
Qed.

Lemma creates_fleet n s :
  fleet (creates fee initial_fuel pos_x pos_y n s)
  = fleet s
    ++ ((λ i : nat, {| number := counter s + Z.of_nat i; tank := initial_fuel;
                       at_x := pos_x; at_y := pos_y |}) <$> seq 0 n).
Proof.
  induction n as [|n IH]; [by rewrite app_nil_r|].
  cbn [creates create fleet].
  by rewrite IH, creates_counter, seq_S, fmap_app, <- app_assoc.
Qed.

Lemma creates_create n s :
  creates fee initial_fuel pos_x pos_y n (create fee initial_fuel pos_x pos_y s)
  = create fee initial_fuel pos_x pos_y (creates fee initial_fuel pos_x pos_y n s).
Proof. induction n as [|n IH]; simpl; [done|]. by rewrite IH. Qed.

Lemma creates_numbered n s :
  numbered s → numbered (creates fee initial_fuel pos_x pos_y n s).
Proof. intros Hs. induction n; [done|]. by apply create_numbered. Qed.

End protocol.

(** ** Theorems: one run, one step *)

Section step.
Context {L : LucidLib} {LL : LucidLaws L} (D : Deployment).
Context (fee initial_fuel pos_x pos_y : Z).

(** A chain that represents [s], what a run reads in it, and the units
    of the next ship. *)
Context (w : World) (s : State) (seed : string) (aref sref au : UTxO)
  (ua us up : string).
Context (Hrep : represents D w s)
  (Hseed : env w !! "SEED" = Some seed) (Hseed' : seed ≠ "")
  (Haref : aref ∈ utxos w)
  (Haref' : holds_script D (d_asteriaTx D) (d_asteria D) aref)
  (Hsref : sref ∈ utxos w)
  (Hsref' : holds_script D (d_spacetimeTx D) (d_spacetime D) sref)
  (Hau : at_address (asteria_address D) w = [au])
  (Hdatum : datum au = Some (Data_to_as AsteriaDatum (datum_at D (counter s))))
  (Hua : adminTokenUnit (d_admin D) = Ok ua)
  (Hassets : assets au = obj2 ua 1 "lovelace" (balance s))
  (Hus : shipTokenUnit (datum_at D (counter s)) (shipyard_id D) = Ok us)
  (Hup : pilotTokenUnit (datum_at D (counter s)) (shipyard_id D) = Ok up).

(** The transaction of the step, and the answers of the node. *)
Definition step_tx : Tx :=
  ship_tx fee initial_fuel pos_x pos_y aref sref au
    (asteria_address D) (spacetime_address D) (balance s)
    (datum_at D (counter s)) ua us up.

#[local] Abbreviation a := (node_answers D w seed aref sref au step_tx).

Lemma au_unspent : au ∈ utxos w ∧ address au = asteria_address D.
Proof.
  assert (H : au ∈ at_address (asteria_address D) w)
    by (rewrite Hau; apply list_elem_of_singleton, eq_refl).
  apply list_elem_of_filter in H as [? ?]. done.
Qed.

Lemma step_transition :
  transition (d_admin D) fee initial_fuel pos_x pos_y a = Ok step_tx.
Proof using LL Hrep Hdatum Hua Hassets Hus Hup.
  apply transition_Ok. eexists _, _, ua, us, up. simpl.
  split_and!; [exact Hdatum | | | done..| ].
  - pose proof (Data_to_as_nonempty (datum_at D (counter s))) as H.
    by rewrite falsy_Some in H.
  - apply Data_from_as_to. rewrite wf_data_AsteriaDatum. apply Hrep.
  - apply createShipTx_Ok. exists (balance s). split; [|done].
    rewrite Hassets. apply obj2_lookup_2.
Qed.

Lemma step_answers_ok : answers_ok a.
Proof using Hseed' Haref' Hsref'.
  unfold answers_ok. simpl. split_and!.
  - by apply falsy_Some_nonempty in Hseed'.
  - apply Haref'.
  - apply Hsref'.
Qed.

(** The node serves the ten calls, and applies the transaction. *)
Lemma step_served :
  serves node w (success_trace (d_asteriaTx D) (d_spacetimeTx D) a step_tx)
    (after step_tx w).
Proof using Hrep Hseed Haref Haref' Hsref Hsref' Hau.
  destruct Haref' as (Ea & _), Hsref' as (Es & _), au_unspent as [Hin _].
  pose proof (rep_wf _ _ _ Hrep) as Hw.
  unfold success_trace. cbn [serves node fst snd a_hash a_signed a_completed
    a_asteria a_asteria_more a_asteriaRef a_asteriaRef_more a_spacetimeRef
    a_spacetimeRef_more a_seed a_projectId a_asteriaScript node_answers
    lucid1 with_wallet wallet option_list].
  unfold provider_says. rewrite (rep_up _ _ _ Hrep).
  rewrite <- Ea, <- Es, !by_outRef_unspent by done.
  fold (asteria_address D). rewrite Hau, Hseed. cbn [mbind result_bind].
  unfold apply_tx. rewrite decide_True; [done|].
  repeat apply Forall_cons_2; [..|apply Forall_nil_2];
    by apply list_elem_of_fmap_2.
Qed.

(** The run against the node: it returns the identifier of the
    transaction, which the node has applied. *)
Lemma step_run :
  run node (createShip (d_asteriaTx D) (d_spacetimeTx D) (d_admin D) fee
              initial_fuel pos_x pos_y) w
  = (Ok (tx_id (height w)), after step_tx w,
     success_trace (d_asteriaTx D) (d_spacetimeTx D) a step_tx).
Proof using LL Hrep Hseed Hseed' Haref Haref' Hsref Hsref' Hau Hdatum Hua
  Hassets Hus Hup.
  apply run_serves; [|apply step_served].
  apply (createShip_Ok_bwd _ _ _ _ _ _ _ a);
    [apply step_answers_ok | apply step_transition].
Qed.

(** The transaction spends the Asteria UTxO, and nothing else. *)
Lemma step_spends u : u ∈ utxos w → spent_by step_tx u ↔ u = au.
Proof using Hrep Hau.
  intros Hu. destruct au_unspent as [Hin _].
  rewrite (spent_by_inputs w) by
    first [apply Hrep | done | by apply Forall_singleton].
  apply list_elem_of_singleton.
Qed.

Lemma step_keeps u :
  u ∈ utxos w → address u ≠ asteria_address D → u ∈ utxos (after step_tx w).
Proof using Hrep Hau.
  intros Hu Ha. apply after_unspent; [done|]. rewrite step_spends by done.
  intros ->. by destruct au_unspent.
Qed.

(** What the transaction leaves at the two script addresses. *)
Lemma step_asteria :
  at_address (asteria_address D) (after step_tx w)
  = [created (tx_id (height w)) 1
       (asteria_address D,
        inline_datum (Data_to_as AsteriaDatum (datum_at D (counter s + 1))),
        obj2 ua 1 "lovelace" (balance s + fee))].
Proof using Hrep Hau.
  destruct au_unspent as [Hin _]. rewrite at_address_after, Hau.
  rewrite filter_none; [|by intros u ->%list_elem_of_singleton H;
                            apply H, step_spends].
  cbn. rewrite decide_False by apply not_eq_sym, (rep_addresses _ _ _ Hrep).
  by rewrite decide_True.
Qed.

Lemma step_spacetime :
  at_address (spacetime_address D) (after step_tx w)
  = at_address (spacetime_address D) w
    ++ [created (tx_id (height w)) 0
          (spacetime_address D,
           inline_datum (shipDatum initial_fuel pos_x pos_y
                           (datum_at D (counter s))),
           obj2 us 1 "lovelace" 2000000)].
Proof using Hrep Hau.
  rewrite at_address_after. f_equal.
  - apply filter_all. intros u [Ea Hu]%list_elem_of_filter.
    rewrite step_spends by done. intros ->. destruct au_unspent as [_ E].
    apply (rep_addresses _ _ _ Hrep). congruence.
  - cbn. rewrite decide_True by done.
    by rewrite decide_False by apply (rep_addresses _ _ _ Hrep).
Qed.

(** The chain after the step holds the state after [create]. *)
Lemma step_represents :
  represents D (after step_tx w) (create fee initial_fuel pos_x pos_y s).
Proof using Hrep Haref Haref' Hsref Hsref' Hau Hua Hus.
  split; try apply Hrep.
  - apply after_wf, Hrep.
  - exists aref. split; [apply step_keeps|]; first [done | apply Haref'].
  - exists sref. split; [apply step_keeps|]; first [done | apply Hsref'].
  - eexists. split; [apply step_asteria|]. split; [done|]. by exists ua.
  - rewrite step_spacetime. apply Forall2_app; [apply Hrep|].
    apply Forall2_cons_2; [|apply Forall2_nil_2]. split; [done|]. by exists us.
Qed.

End step.

(** ** Theorems: the builder refines the protocol *)

Section refinement.
Context {L : LucidLib} {LL : LucidLaws L} (D : Deployment).
Context (fee initial_fuel pos_x pos_y : Z).
Implicit Types (w : World) (s : State).

(** The units of ship [n] and of its pilot exist. *)
Definition mintable (n : Z) : bool :=
  is_ok (shipTokenUnit (datum_at D n) (shipyard_id D))
  && is_ok (pilotTokenUnit (datum_at D n) (shipyard_id D)).

#[local] Abbreviation createShip_D := (createShip (d_asteriaTx D)
  (d_spacetimeTx D) (d_admin D) fee initial_fuel pos_x pos_y).

(** One run in a chain that holds [s]: the transaction is applied, and
    the chain holds [create s]. *)
Lemma createShip_step w s :
  represents D w s → mintable (counter s) = true →
  ∃ tx t,
    run node createShip_D w = (Ok (tx_id (height w)), after tx w, t)
    ∧ represents D (after tx w) (create fee initial_fuel pos_x pos_y s).
Proof.
  intros Hrep [[us Hus]%is_ok_true [up Hup]%is_ok_true]%andb_true_iff.
  destruct (rep_seed _ _ _ Hrep) as (seed & Hseed & Hseed').
  destruct (rep_asteriaRef _ _ _ Hrep) as (aref & Haref & Haref').
  destruct (rep_spacetimeRef _ _ _ Hrep) as (sref & Hsref & Hsref').
  destruct (rep_asteria _ _ _ Hrep) as (au & Hau & Hd & ua & Hua & Hassets).
  exists (step_tx D fee initial_fuel pos_x pos_y s aref sref au ua us up).
  eexists. split; [by eapply (step_run D) | by eapply step_represents].
Qed.

(** C6: in a chain that holds the Asteria state [s], with the units of
    the next ship mintable, a run of [createShip] against the node
    returns the identifier of a transaction the node applied, and the
    chain then holds the state after [create]: the counter one higher,
    the balance higher by the fee, one more ship, numbered with the old
    counter. *)
Theorem createShip_refines w s :
  represents D w s → mintable (counter s) = true →
  ∃ w' t,
    run node (createShip (d_asteriaTx D) (d_spacetimeTx D) (d_admin D) fee
                initial_fuel pos_x pos_y) w
    = (Ok (tx_id (height w)), w', t)
    ∧ represents D w' (create fee initial_fuel pos_x pos_y s).
Proof.
  intros Hrep Hm. destruct (createShip_step w s Hrep Hm) as (tx & t & ? & ?).
  by exists (after tx w), t.
Qed.

(** [n] runs, [n] steps. *)
Lemma createShip_steps n w s :
  represents D w s →
  (∀ i : nat, (i < n)%nat → mintable (counter s + Z.of_nat i) = true) →
  ∃ w',
    run_times node createShip_D n w = ((λ i, Ok (tx_id i)) <$> seq (height w) n, w')
    ∧ represents D w' (creates fee initial_fuel pos_x pos_y n s).
Proof.
  revert w s. induction n as [|n IH]; intros w s Hrep Hm; [by exists w|].
  destruct (createShip_step w s Hrep) as (tx & t & Hrun & Hrep').
  { rewrite <- (Z.add_0_r (counter s)). apply (Hm 0%nat). lia. }
  destruct (IH _ _ Hrep') as (w' & Hruns & Hrep'').
  { intros i Hi. simpl. rewrite <- Z.add_assoc, <- (Nat2Z.inj_add 1).
    apply Hm. lia. }
  exists w'. cbn [run_times creates]. rewrite Hrun. simpl in Hruns. rewrite Hruns.
  split; [done|]. by rewrite <- creates_create.
Qed.

(** In a chain that holds a numbered state, no two ship UTxOs hold the
    same token. *)
Lemma represents_distinct w s (i j : nat) u u' unit :
  represents D w s → numbered s →
  at_address (spacetime_address D) w !! i = Some u →
  at_address (spacetime_address D) w !! j = Some u' →
  i ≠ j → unit ≠ "lovelace" →
  quantity unit (assets u) = 0 ∨ quantity unit (assets u') = 0.
Proof.
  intros Hrep [Hnd _] Hi Hj Hij Hunit.
  destruct (Forall2_lookup_r _ _ _ _ _ (rep_fleet _ _ _ Hrep) Hi)
    as (sh & Hsh & _ & us & Hus & ->).
  destruct (Forall2_lookup_r _ _ _ _ _ (rep_fleet _ _ _ Hrep) Hj)
    as (sh' & Hsh' & _ & us' & Hus' & ->).
  destruct (decide (unit = us)) as [->|]; [right | left];
    apply quantity_obj2_other; try done.
  intros ->. destruct (shipTokenUnit_inj _ _ _ _ _ Hus Hus') as [_ E].
  apply Hij, (NoDup_lookup _ _ _ (number sh) Hnd);
    rewrite list_lookup_fmap; [by rewrite Hsh | rewrite Hsh'; simpl in *; congruence].
Qed.

(** [n] runs of [createShip], one after the other, in a chain that
    holds [s], with the units of the ships mintable: every run returns,
    with the identifiers of [n] consecutive transactions, and then the
    one UTxO at the Asteria address has the counter of [s] plus [n] in
    its datum and the balance of [s] plus [n] fees, and [n] more UTxOs
    are at the Spacetime address. *)
Theorem createShip_iterates n w s :
  represents D w s →
  (∀ i : nat, (i < n)%nat → mintable (counter s + Z.of_nat i) = true) →
  ∃ w' u,
    run_times node (createShip (d_asteriaTx D) (d_spacetimeTx D) (d_admin D)
                      fee initial_fuel pos_x pos_y) n w
    = ((λ i, Ok (tx_id i)) <$> seq (height w) n, w')
    ∧ at_address (asteria_address D) w' = [u]
    ∧ datum u
      = Some (Data_to_as AsteriaDatum (datum_at D (counter s + Z.of_nat n)))
    ∧ quantity "lovelace" (assets u) = balance s + Z.of_nat n * fee
    ∧ length (at_address (spacetime_address D) w') = (length (fleet s) + n)%nat.
Proof.
  intros Hrep Hm.
  destruct (createShip_steps n w s Hrep Hm) as (w' & Hruns & Hrep').
  destruct (rep_asteria _ _ _ Hrep') as (u & Hu & Hd & ua & _ & Ha).
  exists w', u. rewrite creates_counter in Hd. split_and!; try done.
  - by rewrite Ha, quantity_obj2_2, creates_balance.
  - rewrite <- (Forall2_length _ _ _ (rep_fleet _ _ _ Hrep')), creates_fleet.
    by rewrite length_app, length_fmap, length_seq.
Qed.

(** C22: the ships stay apart.  After [n] runs of [createShip] in a
    chain that holds a state whose ships are numbered apart, no token
    but lovelace is held by two UTxOs at the Spacetime address: every
    ship has its own token. *)
Theorem ships_distinct n w s (i j : nat) u u' unit :
  represents D w s → numbered s →
  (∀ i : nat, (i < n)%nat → mintable (counter s + Z.of_nat i) = true) →
  at_address (spacetime_address D)
    (run_times node (createShip (d_asteriaTx D) (d_spacetimeTx D) (d_admin D)
                       fee initial_fuel pos_x pos_y) n w).2 !! i = Some u →
  at_address (spacetime_address D)
    (run_times node (createShip (d_asteriaTx D) (d_spacetimeTx D) (d_admin D)
                       fee initial_fuel pos_x pos_y) n w).2 !! j = Some u' →
  i ≠ j → unit ≠ "lovelace" →
  quantity unit (assets u) = 0 ∨ quantity unit (assets u') = 0.
Proof.
  intros Hrep Hnum Hm.
  destruct (createShip_steps n w s Hrep Hm) as (w' & -> & Hrep').
  apply (represents_distinct w' _ i j u u' unit Hrep').
  by apply creates_numbered.
Qed.

End refinement.

(** ** The chain determines the state *)

Section unique.
Context {L : LucidLib} {LL : LucidLaws L} (D : Deployment).
Implicit Types (w : World) (s : State) (u : UTxO).

Lemma holds_asteria_inj s s' u :
  is_hex (shipyard_id D) = true →
  holds_asteria D s u → holds_asteria D s' u →
  counter s = counter s' ∧ balance s = balance s'.
Proof.
  intros Hhex [Hd (ua & Hua & Ha)] [Hd' (ua' & Hua' & Ha')]. split.
  - rewrite Hd in Hd'. injection Hd' as E.
    apply Data_to_as_inj in E; [by injection E|by rewrite wf_data_AsteriaDatum..].
  - apply (f_equal (λ m, m !! "lovelace")) in Ha, Ha'.
    rewrite obj2_lookup_2 in Ha, Ha'. congruence.
Qed.

Lemma shipDatum_wf sh :
  wf_data (castTo (shipInfo (tank sh) (at_x sh) (at_y sh)
                     (datum_at D (number sh)))) = true.
Proof.
  rewrite wf_data_ShipDatum. simpl.
  by rewrite shipTokenName_hex, pilotTokenName_hex.
Qed.

Lemma holds_ship_inj sh sh' u :
  holds_ship D sh u → holds_ship D sh' u → sh = sh'.
Proof.
  intros [Hd _] [Hd' _]. rewrite Hd in Hd'. injection Hd' as E.
  apply Data_to_as_inj in E; [|apply shipDatum_wf..].
  destruct sh, sh'. injection E as -> -> -> E _. simpl in *.
  apply shipTokenName_inj in E. simpl in E. by subst.
Qed.

Lemma holds_fleet_inj l l' us :
  Forall2 (holds_ship D) l us → Forall2 (holds_ship D) l' us → l = l'.
Proof.
  intros H. revert l'. induction H as [|sh u l us Hsh _ IH]; intros l' H';
    inversion H' as [|sh' ? l'' ? Hsh' Hl']; subst; [done|].
  f_equal; [by eapply holds_ship_inj|by apply IH].
Qed.

(** The chain holds one state.  What the Asteria UTxO and the ship
    UTxOs say of the counter, the balance and the fleet is read off
    their datums and their lovelace, which the encoding of the datums
    keeps apart. *)
Lemma represents_unique w s s' :
  represents D w s → represents D w s' → s = s'.
Proof.
  intros H H'.
  destruct (rep_asteria _ _ _ H) as (u & Hu & Ha).
  destruct (rep_asteria _ _ _ H') as (u' & Hu' & Ha').
  rewrite Hu in Hu'. injection Hu' as <-.
  destruct (holds_asteria_inj s s' u (rep_policy _ _ _ H) Ha Ha') as [Ec Eb].
  pose proof (holds_fleet_inj _ _ _ (rep_fleet _ _ _ H) (rep_fleet _ _ _ H'))
    as Ef.
  destruct s, s'. simpl in *. by subst.
Qed.

End unique.

(** ** Theorems: a run is atomic *)

Section atomic.
Context {L : LucidLib}.
Context (asteriaRefTxHash spacetimeRefTxHash : string)
  (admin_token : AssetClassT)
  (ship_mint_lovelace_fee initial_fuel pos_x pos_y : Z).

(** What the node has served when it has served the first nine calls of
    a run that went through, everything up to [sign]: the provider was
    up, the three UTxOs the run read are unspent, the transaction signed
    is the one built, and the chain is as it was. *)
Lemma served_reads a tx (w w' : World) :
  serves node w (read_phase asteriaRefTxHash spacetimeRefTxHash a tx) w' →
  w' = w ∧ down w = false
  ∧ Forall (λ u, u ∈ utxos w) [a_asteria a; a_asteriaRef a; a_spacetimeRef a]
  ∧ tc_tx (ts_tx (a_signed a)) = tx.
Proof.
  unfold read_phase. intros H.
  pose proof (serves_quiet _ _ _ H eq_refl) as ->. simpl in H.
  destruct H as (_ & _ & _ & _ & [Hup Ha]%provider_says_Ok
                 & [_ Hs]%provider_says_Ok & [_ Hu]%provider_says_Ok
                 & [_ Hc]%provider_says_Ok & [= Hg] & _).
  split_and!; [done..| |by rewrite <- Hg, Hc].
  assert (a_asteria a ∈ at_address (validatorToAddress (a_asteriaScript a)) w)
    as [_ ?]%list_elem_of_filter by (rewrite <- Hu; left).
  assert (a_asteriaRef a ∈ by_outRef [ref_of asteriaRefTxHash] w)
    as [_ ?]%list_elem_of_filter by (rewrite <- Ha; left).
  assert (a_spacetimeRef a ∈ by_outRef [ref_of spacetimeRefTxHash] w)
    as [_ ?]%list_elem_of_filter by (rewrite <- Hs; left).
  by repeat apply Forall_cons_2.
Qed.

(** C20: whatever the chain holds, a run of [createShip] against the node
    changes it at most once and as a whole: a run that returns has had
    exactly the transaction it built applied, under the identifier it
    returns; a run that fails leaves the chain as it was. *)
Theorem createShip_atomic (w w' : World) res t :
  run node (createShip asteriaRefTxHash spacetimeRefTxHash admin_token
              ship_mint_lovelace_fee initial_fuel pos_x pos_y) w
  = (res, w', t) →
  match res with
  | Ok h => ∃ a tx,
      transition admin_token ship_mint_lovelace_fee initial_fuel pos_x pos_y a
      = Ok tx
      ∧ commits tx w h w'
  | Err _ => w' = w
  end.
Proof.
  intros Hrun.
  pose proof (run_runs node (createShip asteriaRefTxHash spacetimeRefTxHash
    admin_token ship_mint_lovelace_fee initial_fuel pos_x pos_y) w) as Hr.
  pose proof (serves_run node (createShip asteriaRefTxHash spacetimeRefTxHash
    admin_token ship_mint_lovelace_fee initial_fuel pos_x pos_y) w) as Hs.
  rewrite Hrun in Hr, Hs. cbn [fst snd] in Hr, Hs. destruct res as [h|e].
  - apply createShip_Ok_fwd in Hr as (a & tx & _ & Htx & -> & ->).
    rewrite <- (take_drop 9 (success_trace _ _ a tx)) in Hs.
    apply serves_app in Hs as (w1 & (-> & _ & _ & Hg)%served_reads & Hs).
    destruct Hs as [Hs Hw']. cbn [serves] in Hw'. subst w'.
    apply node_submit in Hs as [? Hs]. rewrite Hg in Hs. by exists a, tx.
  - eapply serves_quiet; [done|]. by eapply createShip_Err_quiet.
Qed.

End atomic.

(** ** Theorems: two runs that race *)

Section race.
Context {L : LucidLib} {LL : LucidLaws L}.

(** The arguments of the two runs. *)
Context (asteriaRefTxHash1 spacetimeRefTxHash1 : string)
  (admin_token1 : AssetClassT) (fee1 initial_fuel1 pos_x1 pos_y1 : Z).
Context (asteriaRefTxHash2 spacetimeRefTxHash2 : string)
  (admin_token2 : AssetClassT) (fee2 initial_fuel2 pos_x2 pos_y2 : Z).

(** C19: two runs of [createShip] that race for the same Asteria UTxO.
    Both have read the chain [w] and built and signed their transactions
    (their first nine calls, which leave the chain as it is, in any
    order).  Then the node accepts the [submit] that comes first and
    applies its transaction, and rejects the other as a double spend,
    leaving the chain as the first left it: exactly one ship is
    created. *)
Theorem createShip_race a1 tx1 a2 tx2 (w : World) :
  wf w →
  transition admin_token1 fee1 initial_fuel1 pos_x1 pos_y1 a1 = Ok tx1 →
  transition admin_token2 fee2 initial_fuel2 pos_x2 pos_y2 a2 = Ok tx2 →
  serves node w (read_phase asteriaRefTxHash1 spacetimeRefTxHash1 a1 tx1) w →
  serves node w (read_phase asteriaRefTxHash2 spacetimeRefTxHash2 a2 tx2) w →
  a_asteria a1 = a_asteria a2 →
  node (Submit (lucid1 a1) (a_signed a1)) w
  = (Ok (tx_id (height w)), after tx1 w)
  ∧ node (Submit (lucid1 a2) (a_signed a2)) (after tx1 w)
    = (Err bad_inputs, after tx1 w).
Proof.
  intros Hw [Hi1 Hr1]%transition_spends [Hi2 _]%transition_spends
    (_ & Hup & Hin & Hg1)%served_reads (_ & _ & _ & Hg2)%served_reads Hsame.
  assert (Happ : apply_tx tx1 w = Ok (after tx1 w)).
  { apply apply_tx_Ok. split; [|done]. rewrite Hi1, Hr1.
    eapply Forall_impl; [exact Hin|]. intros u Hu. by apply list_elem_of_fmap_2. }
  cbn [node]. unfold provider_says. cbn [after down]. rewrite Hup, Hg1, Hg2.
  rewrite !result_Ok_bind, Happ.
  rewrite (double_spend w _ tx1 tx2 (a_asteria a1) Hw Happ); [done|..].
  - rewrite Hi1. left.
  - rewrite Hi2, Hsame. left.
Qed.

End race.
