(* ===== verification/Interleave.v ===== *)
(** * Interleave: any number of runs on one chain

    Several runs of [createShip] against the same node, their calls in
    any order.  A global execution is the list of the calls the node
    served, each tagged with the run that made it; the calls of run [i]
    are [thread i g], and they are an execution of its program.  Each
    run has its own arguments, an [Order].

    The theorems hold whatever the order of the calls.  The chain ends
    up holding the state reached from the initial one by the [create]
    steps of exactly the runs whose [submit] the node accepted, in the
    order it accepted them ([createShip_interleaved],
    [interleaved_counter]); these runs alone, one after the other,
    return the same and leave the same chain
    ([interleaving_serializable]); a run returns exactly when it is one
    of them, at most once ([winners_returned]); the runs cannot all
    lose ([some_run_wins]); and a run that loses has lost to a double
    spend and to nothing else ([losers_double_spend]).  A run that read
    the Asteria UTxO before another run's transaction was applied has
    built a transaction on an output that is gone, and its [submit] is
    rejected; nothing it did changed the chain.

    The same for the pool of [Pool], which executes the runs call by
    call under a schedule: once all runs have ended the pool has done
    what the winners do in sequence ([pool_serializable]); ten turns
    each end every run ([pool_terminates]); under such a schedule some
    run wins, the chain holds the state after the winners' steps and
    every other run was rejected ([pool_outcome]); and when the runs
    take their turns one after the other the pool is the sequential
    execution ([run_pool_in_turn]) and every run wins ([pool_in_turn]).

    The proof is an induction along the global execution with what the
    past calls still say now ([past_ok]): each was served in a chain
    that held a state and from which the chain of now evolved, so an
    output read then and unspent now is the output of now
    ([evolves_unspent]).  The invariant [interleaved_inv] carries the
    three facts the theorems are read off. *)

From stdpp Require Import base tactics numbers option list strings gmap.
From stdpp Require Import relations.
From Stdlib Require Import ZArith Lia.
From S2P Require Import Prelude Lucid Types Utils CreateShip Chain Pool Asteria.

#[local] Open Scope Z_scope.

(** ** Runs and global executions *)

(** What a caller chooses: the fee, the fuel and the position. *)
Record Order := { o_fee : Z; o_fuel : Z; o_x : Z; o_y : Z }.

(** [createShip] for a deployment and an order, and its step. *)
Definition createShip_of {L : LucidLib} (D : Deployment) (o : Order)
    : prog string :=
  createShip (d_asteriaTx D) (d_spacetimeTx D) (d_admin D)
    (o_fee o) (o_fuel o) (o_x o) (o_y o).

Definition create_of (o : Order) (s : State) : State :=
  create (o_fee o) (o_fuel o) (o_x o) (o_y o) s.

(** The runs whose [submit] was accepted, in the order of acceptance. *)
Definition winners (g : list event) : list nat :=
  (filter (λ e, submitted e.2 = true) g).*1.

(** The state after the steps of the runs [ids], in order. *)
Definition after_runs (orders : nat → Order) (ids : list nat) (s : State)
    : State :=
  foldl (λ s i, create_of (orders i) s) s ids.

(** Every call of [g] is a call of one of the runs: the calls of run
    [i] are an execution of [createShip] for [orders i], ending in
    [res i]. *)
Definition run_by {L : LucidLib} (D : Deployment) (orders : nat → Order)
    (res : nat → result string) (g : list event) : Prop :=
  ∀ i, i ∈ g.*1 → runs (createShip_of D (orders i)) (thread i g) (res i).

(** The programs of the runs [ids]. *)
Definition programs {L : LucidLib} (D : Deployment) (orders : nat → Order)
    (ids : list nat) : list (prog string) :=
  (λ i, createShip_of D (orders i)) <$> ids.

(** What the programs of a pool have ended with; a program that has
    not ended has no result yet. *)
Definition pending : error := Error "the run has not ended".

Definition results (ps : list (prog string)) (i : nat) : result string :=
  default (Err pending) (ps !! i ≫= outcome).

(** [c] is what the node answers in [w]. *)
Definition served (c : call) (w : World) : Prop :=
  match c with Call r x => (node r w).1 = x end.

(** A call of the past: the node served it in a chain that held a state
    and from which the chain of now evolved. *)
Definition past_ok {L : LucidLib} (D : Deployment) (w : World)
    (e : event * World) : Prop :=
  served e.1.2 e.2 ∧ (∃ s, represents D e.2 s) ∧ evolves e.2 w.

(** A call the node served in a chain that held a state with its
    counter between that of [s] and [n] more. *)
Definition served_between {L : LucidLib} (D : Deployment) (s : State)
    (n : nat) (c : call) : Prop :=
  ∃ wj sj, served c wj ∧ represents D wj sj
           ∧ counter s ≤ counter sj ≤ counter s + Z.of_nat n.

(** A call the node served in a chain that held a state whose next
    ship can be minted. *)
Definition well_served {L : LucidLib} (D : Deployment) (c : call) : Prop :=
  ∃ w s, served c w ∧ represents D w s ∧ mintable D (counter s) = true.

(** ** Theorems: the shape of a run *)

Section shape.
Context {L : LucidLib}.
Context (asteriaRefTxHash spacetimeRefTxHash : string)
  (admin_token : AssetClassT)
  (ship_mint_lovelace_fee initial_fuel pos_x pos_y : Z).

(** A run with an accepted [submit] is a run that went through: what
    came before the [submit] is its read phase, and nothing follows. *)
Lemma submitted_last pre r x post res :
  runs (createShip asteriaRefTxHash spacetimeRefTxHash admin_token
          ship_mint_lovelace_fee initial_fuel pos_x pos_y)
    (pre ++ Call r x :: post) res →
  submitted (Call r x) = true →
  ∃ a tx,
    answers_ok a
    ∧ transition admin_token ship_mint_lovelace_fee initial_fuel pos_x pos_y a
      = Ok tx
    ∧ pre = read_phase asteriaRefTxHash spacetimeRefTxHash a tx
    ∧ Call r x = Call (Submit (lucid1 a) (a_signed a)) (Ok (a_hash a))
    ∧ post = [] ∧ res = Ok (a_hash a).
Proof.
  intros Hruns Hsub. destruct res as [h|e].
  - apply createShip_Ok_fwd in Hruns as (a & tx & Hok & Htx & Ht & ->).
    exists a, tx. split_and!; [done..| | | |done].
    all: by destruct (app_cons_unique submitted pre post
      (read_phase asteriaRefTxHash spacetimeRefTxHash a tx) (Call r x)
      (Call (Submit (lucid1 a) (a_signed a)) (Ok (a_hash a))) Ht Hsub eq_refl)
      as (? & ? & ?).
  - apply createShip_Err_quiet in Hruns.
    rewrite existsb_app in Hruns. cbn [existsb] in Hruns. rewrite Hsub in Hruns.
    by rewrite orb_true_r in Hruns.
Qed.

(** No run of [createShip] has more than ten calls. *)
Lemma createShip_ends_within :
  ends_within 10
    (createShip asteriaRefTxHash spacetimeRefTxHash admin_token
       ship_mint_lovelace_fee initial_fuel pos_x pos_y).
Proof.
  unfold createShip, lucidBase, fetchReferenceScript.
  repeat (cbn;
    lazymatch goal with
    | |- True => exact I
    | |- ∀ _, _ => intros [?|?]
    | |- context [lift ?r] => destruct r
    | |- context [match ?x with _ => _ end] => destruct x
    end).
Qed.

End shape.

(** ** Theorems: what a run has read *)

Section reads.
Context {L : LucidLib} {LL : LucidLaws L} (D : Deployment).
Implicit Types (w : World) (s : State) (u : UTxO) (past : list (event * World)).

(** The calls of a run are calls of the past. *)
Lemma thread_past i c past w :
  Forall (past_ok D w) past → c ∈ thread i past.*1 →
  ∃ wj, served c wj ∧ (∃ s, represents D wj s) ∧ evolves wj w.
Proof.
  intros Hall (e & -> & [_ He]%list_elem_of_filter)%list_elem_of_fmap.
  apply list_elem_of_fmap in He as ([e' wj] & -> & He).
  rewrite Forall_forall in Hall. exists wj. apply (Hall _ He).
Qed.

(** An output of an earlier chain with the reference of an output of
    the chain of now is that output. *)
Lemma evolves_same w0 w u0 u :
  wf w0 → evolves w0 w → u0 ∈ utxos w0 → u ∈ utxos w →
  outRef u0 = outRef u → u0 = u.
Proof.
  intros Hw0 Hev Hu0 Hu E. destruct (evolves_old w0 w Hw0 Hev) as (Hw & _).
  apply (wf_outRef_inj w); [done| |done..].
  apply (evolves_unspent w0); [done..|].
  unfold unspent. rewrite E. by apply list_elem_of_fmap_2.
Qed.

(** A lookup of a reference, served in a chain of the past, returned
    the reference output of the chain of now. *)
Lemma served_ref w0 w s0 l txh scr u0 u more :
  represents D w0 s0 → evolves w0 w →
  u0 ∈ utxos w → holds_script D txh scr u0 →
  served (Call (UtxosByOutRef l [ref_of txh]) (Ok (u :: more))) w0 →
  u = u0.
Proof.
  intros Hrep Hev Hu0 (Eu0 & _) [_ Hu]%provider_says_Ok.
  assert (u ∈ by_outRef [ref_of txh] w0) as [Eu Hin]%list_elem_of_filter
    by (rewrite <- Hu; left).
  apply list_elem_of_singleton in Eu.
  apply (evolves_same w0 w); [apply Hrep | done..| congruence].
Qed.

(** The Asteria UTxO a run read in a chain of the past, if it is still
    unspent, is the Asteria UTxO of now. *)
Lemma served_asteria w0 w s0 s l u more :
  represents D w0 s0 → evolves w0 w → represents D w s →
  served (Call (UtxosAt l (asteria_address D)) (Ok (u :: more))) w0 →
  unspent w u →
  at_address (asteria_address D) w = [u] ∧ holds_asteria D s u.
Proof.
  intros Hrep0 Hev Hrep [_ Hu]%provider_says_Ok Hun.
  assert (u ∈ at_address (asteria_address D) w0) as [Ea Hin]%list_elem_of_filter
    by (rewrite <- Hu; left).
  apply (evolves_unspent w0 w) in Hun; [|apply Hrep0|done..].
  destruct (rep_asteria _ _ _ Hrep) as (au & Hau & Hholds).
  assert (u ∈ at_address (asteria_address D) w) as Hin'
    by by apply list_elem_of_filter.
  rewrite Hau in Hin'. apply list_elem_of_singleton in Hin' as ->. done.
Qed.

(** What the calls of a read phase, all served in the past, say now:
    the two reference outputs are those of the chain of now, with the
    scripts of the deployment; the transaction signed is the one built;
    and the Asteria UTxO read, if still unspent, is the one of now. *)
Lemma reads_now a tx w s :
  represents D w s → answers_ok a →
  (∀ c, c ∈ read_phase (d_asteriaTx D) (d_spacetimeTx D) a tx →
        ∃ wj, served c wj ∧ (∃ sj, represents D wj sj) ∧ evolves wj w) →
  (a_asteriaRef a ∈ utxos w
   ∧ holds_script D (d_asteriaTx D) (d_asteria D) (a_asteriaRef a))
  ∧ (a_spacetimeRef a ∈ utxos w
     ∧ holds_script D (d_spacetimeTx D) (d_spacetime D) (a_spacetimeRef a))
  ∧ a_asteriaScript a = d_asteria D ∧ a_spacetimeScript a = d_spacetime D
  ∧ tc_tx (ts_tx (a_signed a)) = tx
  ∧ (unspent w (a_asteria a) →
     at_address (asteria_address D) w = [a_asteria a]
     ∧ holds_asteria D s (a_asteria a)).
Proof.
  intros Hrep (_ & Has & Hss) Hin.
  destruct (rep_asteriaRef _ _ _ Hrep) as (aref & Haref & Haref').
  destruct (rep_spacetimeRef _ _ _ Hrep) as (sref & Hsref & Hsref').
  destruct (Hin (Call (UtxosByOutRef (lucid1 a) [ref_of (d_asteriaTx D)])
                   (Ok (a_asteriaRef a :: a_asteriaRef_more a))))
    as (w5 & H5 & [s5 Hrep5] & Hev5); [do 4 right; left|].
  destruct (Hin (Call (UtxosByOutRef (lucid1 a) [ref_of (d_spacetimeTx D)])
                   (Ok (a_spacetimeRef a :: a_spacetimeRef_more a))))
    as (w6 & H6 & [s6 Hrep6] & Hev6); [do 5 right; left|].
  destruct (Hin (Call (UtxosAt (lucid1 a) (validatorToAddress (a_asteriaScript a)))
                   (Ok (a_asteria a :: a_asteria_more a))))
    as (w7 & H7 & [s7 Hrep7] & Hev7); [do 6 right; left|].
  destruct (Hin (Call (Complete (lucid1 a) tx) (Ok (a_completed a))))
    as (w8 & [_ H8]%provider_says_Ok & _); [do 7 right; left|].
  destruct (Hin (Call (Sign (lucid1 a) (a_completed a)) (Ok (a_signed a))))
    as (w9 & [= H9] & _); [do 8 right; left|].
  rewrite (served_ref _ _ _ _ _ _ _ _ _ Hrep5 Hev5 Haref Haref' H5) in *.
  rewrite (served_ref _ _ _ _ _ _ _ _ _ Hrep6 Hev6 Hsref Hsref' H6) in *.
  destruct Haref' as (? & Ea & ?), Hsref' as (? & Es & ?).
  assert (a_asteriaScript a = d_asteria D) as Ha by congruence.
  assert (a_spacetimeScript a = d_spacetime D) by congruence.
  rewrite Ha in H7. split_and!; try done.
  - by rewrite <- H9, H8.
  - by apply (served_asteria w7 w s7 s (lucid1 a) _ (a_asteria_more a)).
Qed.

End reads.

(** ** Theorems: an accepted submit is a step *)

Section accepted.
Context {L : LucidLib} {LL : LucidLaws L} (D : Deployment).
Implicit Types (w : World) (s : State) (o : Order)
  (past : list (event * World)).

(** The transaction a run has built on the Asteria UTxO of a chain that
    holds [s] is the transaction of the step from [s]. *)
Lemma built_on_state a tx s o :
  transition (d_admin D) (o_fee o) (o_fuel o) (o_x o) (o_y o) a = Ok tx →
  a_asteriaScript a = d_asteria D → a_spacetimeScript a = d_spacetime D →
  holds_asteria D s (a_asteria a) → is_hex (shipyard_id D) = true →
  ∃ ua us up,
    adminTokenUnit (d_admin D) = Ok ua
    ∧ assets (a_asteria a) = obj2 ua 1 "lovelace" (balance s)
    ∧ shipTokenUnit (datum_at D (counter s)) (shipyard_id D) = Ok us
    ∧ pilotTokenUnit (datum_at D (counter s)) (shipyard_id D) = Ok up
    ∧ tx = step_tx D (o_fee o) (o_fuel o) (o_x o) (o_y o) s
             (a_asteriaRef a) (a_spacetimeRef a) (a_asteria a) ua us up.
Proof.
  intros (raw & d & ua & us & up & Hraw & _ & Hd & Hua & Hus & Hup & Htx)
    %transition_Ok Ea Es (Hdatum & ua' & Hua' & Hassets) Hhex.
  rewrite Hdatum in Hraw. injection Hraw as <-.
  rewrite Data_from_as_to in Hd by by rewrite wf_data_AsteriaDatum.
  injection Hd as <-. rewrite Es in Hus, Hup.
  apply createShipTx_Ok in Htx as (lovelace & Hl & ->).
  rewrite Hassets, obj2_lookup_2 in Hl. injection Hl as <-.
  exists ua, us, up. rewrite Ea, Es. split_and!; try done. congruence.
Qed.

(** The [submit] of a run that the node accepts, in a chain that holds
    [s], takes the chain to one that holds the state after the run's
    step: the run read the Asteria UTxO of now.  The run alone, started
    now, would return the same and leave the same chain. *)
Lemma accepted_step o i past w s r x post res :
  represents D w s → Forall (past_ok D w) past →
  runs (createShip_of D o) (thread i past.*1 ++ Call r x :: post) res →
  (node r w).1 = x → submitted (Call r x) = true →
  represents D (node r w).2 (create_of o s) ∧ evolves w (node r w).2
  ∧ ∃ t, run node (createShip_of D o) w = (res, (node r w).2, t).
Proof.
  intros Hrep Hpast Hruns Hx Hsub.
  destruct (submitted_last _ _ _ _ _ _ _ _ _ _ _ _ Hruns Hsub)
    as (a & tx & Hok & Htx & Hpre & Hc & _ & ->).
  assert (r = Submit (lucid1 a) (a_signed a)) as ->
    by apply (f_equal call_req Hc).
  apply Call_inj in Hc as ->. apply node_submit in Hx as [-> Happ].
  destruct (reads_now D a tx w s Hrep Hok)
    as ([Haref Haref'] & [Hsref Hsref'] & Ea & Es & Hg & Hau).
  { intros c Hc'. apply (thread_past D i c past); [done|]. by rewrite Hpre. }
  rewrite Hg in Happ. apply apply_tx_Ok in Happ as [Hun ->].
  destruct (transition_spends _ _ _ _ _ _ _ Htx) as [Hi _].
  rewrite Hi in Hun. apply Forall_cons in Hun as [Hun _].
  destruct (Hau Hun) as [Hat Hholds].
  destruct (built_on_state a tx s o Htx Ea Es Hholds (rep_policy _ _ _ Hrep))
    as (ua & us & up & Hua & Hassets & Hus & Hup & ->).
  destruct (rep_seed _ _ _ Hrep) as (seed & Hseed & Hseed').
  split_and!; [by eapply step_represents | apply rtc_once; by eexists |].
  eexists. unfold createShip_of.
  exact (step_run D _ _ _ _ w s seed _ _ _ ua us up Hrep Hseed Hseed' Haref
           Haref' Hsref Hsref' Hat (proj1 Hholds) Hua Hassets Hus Hup).
Qed.

End accepted.

(** ** Theorems: winners *)

Section winners.
Implicit Types (g : list event) (i : nat) (c : call).

Lemma winners_cons i c g :
  winners ((i, c) :: g) = if submitted c then i :: winners g else winners g.
Proof.
  unfold winners. destruct (submitted c) eqn:E.
  - by rewrite filter_cons_True.
  - rewrite filter_cons_False; [done|]. simpl. by rewrite E.
Qed.

Lemma winners_subseteq g : winners g ⊆ g.*1.
Proof.
  intros i (e & -> & [_ He]%list_elem_of_filter)%list_elem_of_fmap.
  by apply list_elem_of_fmap_2.
Qed.

(** Runs that win once each, among [n] runs, are at most [n]. *)
Lemma winners_length g n :
  NoDup (winners g) → (∀ i, i ∈ g.*1 → (i < n)%nat) →
  (length (winners g) ≤ n)%nat.
Proof.
  intros Hnd Hlt. trans (length (seq 0 n)); [|by rewrite length_seq].
  apply submseteq_length, NoDup_submseteq; [done|].
  intros i Hi%winners_subseteq%Hlt. apply elem_of_seq. lia.
Qed.

(** A run wins when one of its calls is an accepted [submit]. *)
Lemma winners_thread i g : i ∈ winners g ↔ existsb submitted (thread i g) = true.
Proof.
  rewrite existsb_exists. setoid_rewrite <- list_elem_of_In. split.
  - intros ([j c] & -> & [Hs He]%list_elem_of_filter)%list_elem_of_fmap.
    exists c. split; [|done].
    apply (list_elem_of_fmap_2 snd _ (j, c)), list_elem_of_filter. by split.
  - intros (c & ([j c'] & -> & [<- He]%list_elem_of_filter)%list_elem_of_fmap & Hs).
    apply (list_elem_of_fmap_2 fst _ (j, c')), list_elem_of_filter. by split.
Qed.

End winners.

(** ** Theorems: the chain after any interleaving *)

Section interleaved.
Context {L : LucidLib} {LL : LucidLaws L} (D : Deployment).
Context (orders : nat → Order) (res : nat → result string).
Implicit Types (g : list event) (w : World) (s : State)
  (past : list (event * World)).

Lemma past_ok_evolves w w' e :
  evolves w w' → past_ok D w e → past_ok D w' e.
Proof.
  intros Hev (? & ? & Hev'). split_and!; [done..|]. by etrans.
Qed.

Lemma past_ok_snoc past e w w' s :
  Forall (past_ok D w) past → served e.2 w → represents D w s →
  evolves w w' → Forall (past_ok D w') (past ++ [(e, w)]).
Proof.
  intros Hpast Hs Hrep Hev. apply Forall_app. split.
  - eapply Forall_impl; [done|]. intros. by eapply past_ok_evolves.
  - apply Forall_singleton. split_and!; [done| by exists s | done].
Qed.

Lemma served_between_step o s n c :
  served_between D (create_of o s) n c → served_between D s (S n) c.
Proof.
  intros (wj & sj & ? & ? & Hc). exists wj, sj. simpl in Hc.
  split_and!; [done..|lia|lia].
Qed.

Lemma served_between_now w s n r x :
  represents D w s → (node r w).1 = x → served_between D s n (Call r x).
Proof. intros ??. exists w, s. split_and!; [done..|lia|lia]. Qed.

(** The invariant: the chain holds the state after the steps of the
    runs that won so far; the winners alone, one after the other, would
    return the same and leave the same chain; and every call was served
    in a chain that held one of the states on the way. *)
Lemma interleaved_inv g2 past w s w' :
  represents D w s → Forall (past_ok D w) past →
  serves node w g2.*2 w' → run_by D orders res (past.*1 ++ g2) →
  represents D w' (after_runs orders (winners g2) s)
  ∧ run_all node (programs D orders (winners g2)) w
    = (res <$> winners g2, w')
  ∧ Forall (served_between D s (length (winners g2))) g2.*2.
Proof.
  revert past w s. induction g2 as [|[i [r x]] g2 IH]; intros past w s Hrep Hpast.
  { by intros ->. }
  intros [Hx Hs] Hruns.
  assert (Hi : runs (createShip_of D (orders i))
                 (thread i (past.*1 ++ (i, Call r x) :: g2)) (res i))
    by (apply Hruns; rewrite fmap_app, elem_of_app; right; left).
  rewrite thread_app, thread_cons in Hi. rewrite fmap_cons, Forall_cons.
  rewrite winners_cons. cbn [snd]. destruct (submitted (Call r x)) eqn:Hsub.
  - destruct (accepted_step D (orders i) i past w s r x (thread i g2) (res i))
      as (Hrep' & Hev & t & Hrun); [done..|].
    destruct (IH (past ++ [((i, Call r x), w)]) _ _ Hrep')
      as (Hrep'' & Hall & Hbet);
      [by eapply past_ok_snoc | done | by rewrite fmap_app, <- app_assoc |].
    split_and!; [done| |by apply (served_between_now w)|].
    + unfold programs in *. rewrite !fmap_cons. cbn [run_all].
      by rewrite Hrun, Hall.
    + eapply Forall_impl; [done|]. intros c. apply served_between_step.
  - rewrite (node_quiet r x w Hx Hsub) in Hs.
    destruct (IH (past ++ [((i, Call r x), w)]) _ _ Hrep)
      as (Hrep'' & Hall & Hbet);
      [by eapply past_ok_snoc | done | by rewrite fmap_app, <- app_assoc |].
    split_and!; [done..|by apply (served_between_now w)|done].
Qed.

(** No run wins twice: nothing follows an accepted [submit]. *)
Lemma winners_NoDup_inv g1 g2 :
  run_by D orders res (g1 ++ g2) → NoDup (winners g2).
Proof.
  revert g1. induction g2 as [|[i [r x]] g2 IH]; intros g1 Hruns.
  { apply NoDup_nil_2. }
  assert (NoDup (winners g2))
    by (apply (IH (g1 ++ [(i, Call r x)])); by rewrite <- app_assoc).
  rewrite winners_cons. destruct (submitted (Call r x)) eqn:Hsub; [|done].
  apply NoDup_cons. split; [|done]. intros Hin%winners_subseteq.
  assert (Hi : runs (createShip_of D (orders i))
                 (thread i (g1 ++ (i, Call r x) :: g2)) (res i))
    by (apply Hruns; rewrite fmap_app, elem_of_app; right; left).
  rewrite thread_app, thread_cons in Hi.
  destruct (submitted_last _ _ _ _ _ _ _ _ _ _ _ _ Hi Hsub)
    as (_ & _ & _ & _ & _ & _ & Hnil & _).
  by apply thread_nil in Hnil.
Qed.

End interleaved.

(** ** Theorems: the protocol after several steps *)

Lemma foldr_add_init (a : Z) (l : list Z) :
  foldr Z.add a l = foldr Z.add 0 l + a.
Proof. induction l; simpl; lia. Qed.

Section after_runs.
Context (orders : nat → Order).

Lemma after_runs_snoc ids i s :
  after_runs orders (ids ++ [i]) s
  = create_of (orders i) (after_runs orders ids s).
Proof. unfold after_runs. by rewrite foldl_app. Qed.

Lemma after_runs_counter ids s :
  counter (after_runs orders ids s) = counter s + Z.of_nat (length ids).
Proof.
  induction ids as [|i ids IH] using rev_ind; [simpl; lia|].
  rewrite after_runs_snoc, length_app. simpl. lia.
Qed.

Lemma after_runs_balance ids s :
  balance (after_runs orders ids s)
  = balance s + foldr Z.add 0 ((λ i, o_fee (orders i)) <$> ids).
Proof.
  induction ids as [|i ids IH] using rev_ind; [simpl; lia|].
  rewrite after_runs_snoc, fmap_app, foldr_app. simpl. rewrite IH.
  rewrite (foldr_add_init (_ + 0)). lia.
Qed.

Lemma after_runs_fleet ids s :
  number <$> fleet (after_runs orders ids s)
  = (number <$> fleet s) ++ ((λ k : nat, counter s + Z.of_nat k) <$> seq 0 (length ids)).
Proof.
  induction ids as [|i ids IH] using rev_ind; [by rewrite app_nil_r|].
  rewrite after_runs_snoc, length_app, Nat.add_1_r, seq_S, !fmap_app. simpl.
  by rewrite fmap_app, IH, after_runs_counter, app_assoc.
Qed.

End after_runs.

(** ** Theorems: any interleaving *)

Section any_order.
Context {L : LucidLib} {LL : LucidLaws L} (D : Deployment).
Context (orders : nat → Order) (res : nat → result string).
Implicit Types (g : list event) (w : World) (s : State).

(** C10: runs of [createShip] against one node, their calls in any
    order.  If the chain holds the state [s] to begin with, the chain
    the node ends in holds the state reached from [s] by the [create]
    steps of the runs whose [submit] the node accepted, in the order it
    accepted them: the interleaving is equivalent to running the
    winners one after the other, and the other runs have changed
    nothing. *)
Theorem createShip_interleaved g w s w' :
  represents D w s → serves node w g.*2 w' → run_by D orders res g →
  represents D w' (after_runs orders (winners g) s).
Proof.
  intros Hrep Hs Hruns.
  by destruct (interleaved_inv D orders res g [] w s w') as (? & ? & _).
Qed.

(** The counter counts the runs that returned.  After any
    interleaving of runs of [createShip], the one UTxO at the Asteria
    address has in its datum the counter it started with plus the
    number of accepted submits, and as lovelace the balance plus the
    fees of those runs; and as many UTxOs were added at the Spacetime
    address. *)
Theorem interleaved_counter g w s w' :
  represents D w s → serves node w g.*2 w' → run_by D orders res g →
  ∃ u,
    at_address (asteria_address D) w' = [u]
    ∧ datum u
      = Some (Data_to_as AsteriaDatum
                (datum_at D (counter s + Z.of_nat (length (winners g)))))
    ∧ quantity "lovelace" (assets u)
      = balance s + foldr Z.add 0 ((λ i, o_fee (orders i)) <$> winners g)
    ∧ length (at_address (spacetime_address D) w')
      = (length (fleet s) + length (winners g))%nat.
Proof.
  intros Hrep Hs Hruns.
  destruct (interleaved_inv D orders res g [] w s w' Hrep
              (Forall_nil_2 _) Hs Hruns) as [Hrep' _].
  destruct (rep_asteria _ _ _ Hrep') as (u & Hu & Hd & ua & _ & Ha).
  exists u. rewrite after_runs_counter in Hd. split_and!; try done.
  - by rewrite Ha, quantity_obj2_2, after_runs_balance.
  - rewrite <- (Forall2_length _ _ _ (rep_fleet _ _ _ Hrep')).
    rewrite <- (length_fmap number), after_runs_fleet.
    by rewrite length_app, !length_fmap, length_seq.
Qed.

(** C11: any interleaving is equivalent to a sequential execution.  The
    runs that won, run alone against the node one after the other in
    the order they won, from the same chain, return what they returned
    in the interleaving and leave the chain the interleaving left: the
    runs that lost have no effect, and the order of the calls of
    different runs has none beyond deciding who wins. *)
Theorem interleaving_serializable g w s w' :
  represents D w s → serves node w g.*2 w' → run_by D orders res g →
  run_all node (programs D orders (winners g)) w = (res <$> winners g, w').
Proof.
  intros Hrep Hs Hruns.
  by destruct (interleaved_inv D orders res g [] w s w') as (? & ? & _).
Qed.

(** The runs that return are the runs that won. *)
Lemma winner_iff_returned g :
  run_by D orders res g →
  NoDup (winners g)
  ∧ ∀ i, i ∈ g.*1 → i ∈ winners g ↔ is_ok (res i) = true.
Proof.
  intros Hruns. split; [by apply (winners_NoDup_inv D orders res [])|].
  intros i Hi%Hruns. rewrite winners_thread. unfold createShip_of in Hi.
  destruct (res i) as [h|e].
  - by apply createShip_Ok_fwd in Hi as (a & tx & _ & _ & -> & _).
  - by rewrite (createShip_Err_quiet _ _ _ _ _ _ _ _ _ Hi).
Qed.

(** C21: the runs that return are the runs that won.  In any
    interleaving a run returns a transaction identifier exactly when
    the node accepted its [submit], and the node accepts at most one
    [submit] of each run. *)
Theorem winners_returned g :
  run_by D orders res g →
  NoDup (winners g)
  ∧ ∀ i, i ∈ g.*1 → i ∈ winners g ↔ is_ok (res i) = true.
Proof. exact (winner_iff_returned g). Qed.

End any_order.

(** ** Theorems: some run wins *)

Section progress.
Context {L : LucidLib} {LL : LucidLaws L} (D : Deployment).
Context (orders : nat → Order) (res : nat → result string).
Implicit Types (g : list event) (w : World) (s : State).

(** While the node accepts no [submit] the chain stays as it is: each
    run was served by that one chain, as if it had run alone. *)
Lemma quiet_thread i g w w' :
  serves node w g.*2 w' → winners g = [] → serves node w (thread i g) w.
Proof.
  revert w. induction g as [|[j [r x]] g IH]; intros w; [done|].
  rewrite fmap_cons, winners_cons. cbn [serves snd].
  destruct (submitted (Call r x)) eqn:Hq; [done|]. intros [Hx Hs] Hw.
  rewrite (node_quiet r x w Hx Hq) in Hs.
  destruct (decide (j = i)) as [->|Hj].
  - rewrite thread_cons. cbn [serves]. split; [done|].
    rewrite (node_quiet r x w Hx Hq). by apply IH.
  - rewrite thread_cons_ne by done. by apply IH.
Qed.

(** One of the runs that made a call has won. *)
Lemma winners_nonempty g w s w' :
  represents D w s → mintable D (counter s) = true →
  serves node w g.*2 w' → run_by D orders res g →
  g ≠ [] → winners g ≠ [].
Proof.
  intros Hrep Hm Hs Hby Hg Hw. destruct g as [|[i c] g]; [done|].
  assert (Hi : i ∈ ((i, c) :: g).*1) by (rewrite fmap_cons; set_solver).
  apply Hby in Hi. unfold createShip_of in Hi.
  pose proof (run_serves node _ w _ _ w Hi (quiet_thread i _ w w' Hs Hw))
    as Hrun.
  destruct (createShip_step D (o_fee (orders i)) (o_fuel (orders i))
              (o_x (orders i)) (o_y (orders i)) w s Hrep Hm)
    as (tx & t & Hrun' & _).
  rewrite Hrun in Hrun'. injection Hrun' as _ Hw' _.
  apply (f_equal height) in Hw'. simpl in Hw'. lia.
Qed.

(** C14: the runs cannot all lose.  In a chain that holds a state whose
    next ship can be minted, whatever the order of the calls of the
    runs that were made, the node has accepted the [submit] of one of
    them: a run fails on a double spend only when another run has
    created a ship. *)
Theorem some_run_wins g w s w' :
  represents D w s → mintable D (counter s) = true →
  serves node w g.*2 w' → run_by D orders res g →
  g ≠ [] → winners g ≠ [].
Proof. exact (winners_nonempty g w s w'). Qed.

End progress.

(** ** Theorems: a run loses only to a double spend *)

Section losers.
Context {L : LucidLib} {LL : LucidLaws L} (D : Deployment).
Implicit Types (w : World) (s : State).

(** What the node answers in a chain that holds a state, call by
    call. *)
Lemma ws_env k x :
  well_served D (Call (EnvGet k) x) →
  ∃ v, x = Ok v ∧ (k = "SEED" → ∃ seed, v = Some seed ∧ falsy seed = false).
Proof.
  intros (w & s & <- & Hrep & _). eexists. split; [done|]. intros ->.
  destruct (rep_seed _ _ _ Hrep) as (seed & -> & Hs). exists seed.
  split; [done|]. by apply bool_decide_eq_false.
Qed.

Lemma ws_new p n x : well_served D (Call (LucidNew p n) x) → x = Ok ().
Proof.
  intros (w & s & <- & Hrep & _). simpl. unfold provider_says.
  by rewrite (rep_up _ _ _ Hrep).
Qed.

Lemma ws_select l seed x :
  well_served D (Call (SelectWalletFromSeed l seed) x) → x = Ok ().
Proof. by intros (w & s & <- & _). Qed.

Lemma served_script w s l txh scr u x :
  represents D w s → u ∈ utxos w → holds_script D txh scr u →
  served (Call (UtxosByOutRef l [ref_of txh]) x) w → x = Ok [u].
Proof.
  intros Hrep Hu (E & _) <-. simpl. unfold provider_says.
  rewrite (rep_up _ _ _ Hrep), <- E, by_outRef_unspent; [done|apply Hrep|done].
Qed.

Lemma ws_asteriaRef l x :
  well_served D (Call (UtxosByOutRef l [ref_of (d_asteriaTx D)]) x) →
  ∃ u, x = Ok [u] ∧ scriptRef u = Some (d_asteria D).
Proof.
  intros (w & s & Hs & Hrep & _).
  destruct (rep_asteriaRef _ _ _ Hrep) as (u & Hu & Hu'). exists u.
  split; [by eapply served_script | apply Hu'].
Qed.

Lemma ws_spacetimeRef l x :
  well_served D (Call (UtxosByOutRef l [ref_of (d_spacetimeTx D)]) x) →
  ∃ u, x = Ok [u] ∧ scriptRef u = Some (d_spacetime D).
Proof.
  intros (w & s & Hs & Hrep & _).
  destruct (rep_spacetimeRef _ _ _ Hrep) as (u & Hu & Hu'). exists u.
  split; [by eapply served_script | apply Hu'].
Qed.

(** What a run computes from an Asteria UTxO that holds a state whose
    next ship can be minted: nothing throws. *)
Lemma holds_asteria_built s u :
  holds_asteria D s u → is_hex (shipyard_id D) = true →
  mintable D (counter s) = true →
  ∃ raw ua us up,
    truthy_or (datum u) missing_datum = Ok raw
    ∧ Data_from_as AsteriaDatum raw = Ok (datum_at D (counter s))
    ∧ adminTokenUnit (d_admin D) = Ok ua
    ∧ shipTokenUnit (datum_at D (counter s)) (shipyard_id D) = Ok us
    ∧ pilotTokenUnit (datum_at D (counter s)) (shipyard_id D) = Ok up
    ∧ ∀ fee fuel x y aref sref aA sA,
        createShipTx fee fuel x y aref sref u aA sA (assets u !! "lovelace")
          (datum_at D (counter s)) ua us up
        = Ok (ship_tx fee fuel x y aref sref u aA sA (balance s)
                (datum_at D (counter s)) ua us up).
Proof.
  intros (Hd & ua & Hua & Ha) Hhex
    [[us Hus]%is_ok_true [up Hup]%is_ok_true]%andb_true_iff.
  exists (Data_to_as AsteriaDatum (datum_at D (counter s))), ua, us, up.
  split_and!; [| |done..|].
  - rewrite Hd. apply truthy_or_Ok. split; [done|].
    pose proof (Data_to_as_nonempty (datum_at D (counter s))) as H.
    by rewrite falsy_Some in H.
  - apply Data_from_as_to. by rewrite wf_data_AsteriaDatum.
  - intros. apply createShipTx_Ok. exists (balance s). split; [|done].
    rewrite Ha. apply obj2_lookup_2.
Qed.

Lemma ws_asteria l x :
  well_served D (Call (UtxosAt l (asteria_address D)) x) →
  ∃ u s, x = Ok [u] ∧ holds_asteria D s u ∧ is_hex (shipyard_id D) = true
         ∧ mintable D (counter s) = true.
Proof.
  intros (w & s & <- & Hrep & Hm).
  destruct (rep_asteria _ _ _ Hrep) as (u & Hu & Hu'). exists u, s.
  split_and!; [|done|apply Hrep|done]. simpl. unfold provider_says.
  by rewrite (rep_up _ _ _ Hrep), Hu.
Qed.

Lemma ws_complete l tx x :
  well_served D (Call (Complete l tx) x) → ∃ y, x = Ok y.
Proof.
  intros (w & s & <- & Hrep & _). simpl. unfold provider_says.
  rewrite (rep_up _ _ _ Hrep). by eexists.
Qed.

Lemma ws_sign l tx x : well_served D (Call (Sign l tx) x) → ∃ y, x = Ok y.
Proof. intros (w & s & <- & _). by eexists. Qed.

Lemma ws_submit l tx x :
  well_served D (Call (Submit l tx) x) → is_ok x = true ∨ x = Err bad_inputs.
Proof.
  intros (w & s & <- & Hrep & _). simpl. unfold provider_says, apply_tx.
  rewrite (rep_up _ _ _ Hrep). simpl. case_decide; [by left | by right].
Qed.

Ltac served_call H HQ Hc :=
  runs_cbn H;
  lazymatch type of H with
  | ∃ _ _, _ = Call _ _ :: _ ∧ _ =>
      let x := fresh "ans" in
      let t := fresh "t" in
      destruct H as (x & t & -> & H); apply Forall_cons in HQ as [Hc HQ]
  end.

Ltac with_script H E :=
  repeat (progress (runs_cbn H;
    cbn [lookup list_lookup falsy_object as_Script or_throw] in H;
    rewrite ?E in H)).

Lemma served_run_fails o t e :
  runs (createShip_of D o) t (Err e) → Forall (well_served D) t →
  e = bad_inputs.
Proof.
  unfold createShip_of, createShip, lucidBase, fetchReferenceScript.
  intros H HQ.
  served_call H HQ Hc. apply ws_env in Hc as (v & -> & _).
  served_call H HQ Hc. apply ws_new in Hc as ->.
  served_call H HQ Hc. apply ws_env in Hc as (v' & -> & Hv).
  destruct (Hv eq_refl) as (seed & -> & Hseed). clear Hv.
  runs_cbn H.
  lazymatch type of H with runs (lift ?r ≫= _) _ _ => destruct r eqn:E end.
  2: { apply truthy_or_Err in E as [Hf _]. rewrite falsy_Some in Hf. congruence. }
  apply truthy_or_Ok in E as [[= <-] _].
  served_call H HQ Hc. apply ws_select in Hc as ->.
  served_call H HQ Hc. apply ws_asteriaRef in Hc as (aref & -> & Ea).
  with_script H Ea.
  served_call H HQ Hc. apply ws_spacetimeRef in Hc as (sref & -> & Es).
  with_script H Es.
  served_call H HQ Hc.
  apply ws_asteria in Hc as (au & s & -> & Hau & Hhex & Hm).
  destruct (holds_asteria_built s au Hau Hhex Hm)
    as (raw & ua & us & up & E1 & E2 & E3 & E4 & E5 & E6).
  runs_cbn H. cbn [lookup list_lookup or_throw] in H. runs_cbn H.
  rewrite E1 in H. runs_cbn H. rewrite E2 in H. runs_cbn H.
  rewrite E3 in H. runs_cbn H. fold (shipyard_id D) in H.
  rewrite E4 in H. runs_cbn H. rewrite E5 in H. runs_cbn H.
  rewrite E6 in H.
  served_call H HQ Hc. apply ws_complete in Hc as (y & ->).
  served_call H HQ Hc. apply ws_sign in Hc as (y' & ->).
  runs_cbn H. destruct H as (x & t' & -> & H).
  apply Forall_cons in HQ as [[Hx | ->]%ws_submit _].
  - destruct x; [by destruct H as [_ [=]] | done].
  - by destruct H as [_ [= ->]].
Qed.

Context (orders : nat → Order) (res : nat → result string).

(** A run that fails was rejected for spent inputs. *)
Lemma loser_rejected g w s w' i e :
  represents D w s →
  (∀ n, counter s ≤ n ≤ counter s + Z.of_nat (length (winners g)) →
        mintable D n = true) →
  serves node w g.*2 w' → run_by D orders res g →
  i ∈ g.*1 → res i = Err e → e = bad_inputs.
Proof.
  intros Hrep Hm Hs Hby Hi He.
  destruct (interleaved_inv D orders res g [] w s w') as (_ & _ & Hbet);
    [done..|].
  apply Hby in Hi. rewrite He in Hi.
  apply (served_run_fails (orders i) (thread i g)); [done|].
  apply Forall_forall. intros c Hc%thread_elem.
  rewrite Forall_forall in Hbet. destruct (Hbet c Hc) as (wj & sj & ? & ? & ?).
  exists wj, sj. split_and!; [done..|]. by apply Hm.
Qed.

(** C15: a run loses only to a double spend.  In a chain that holds a
    state, with the ships of every counter on the way mintable, a run
    of any interleaving that fails has failed with the node's rejection
    of its [submit] for inputs that are spent, after it built and
    signed its transaction: no lookup comes back empty, no datum is
    missing, and no other exception of the builder is thrown. *)
Theorem losers_double_spend g w s w' i e :
  represents D w s →
  (∀ n, counter s ≤ n ≤ counter s + Z.of_nat (length (winners g)) →
        mintable D n = true) →
  serves node w g.*2 w' → run_by D orders res g →
  i ∈ g.*1 → res i = Err e → e = bad_inputs.
Proof. exact (loser_rejected g w s w' i e). Qed.

End losers.

(** ** Theorems: a pool in turn is the sequential execution *)

Section in_turn.
Context {W A : Type} (h : handler W).
Implicit Types (ps : list (prog A)) (w : W).

(** When each program is given its turns in a row the pool runs the
    programs one after the other: it ends with the results and the
    state of [run_all]. *)
Lemma run_pool_in_turn k ps1 ps2 w :
  Forall (ends_within k) ps2 →
  (run_pool h (in_turn k (length ps1) (length ps2)) (ps1 ++ ps2) w).1
  = (ps1 ++ (ended <$> (run_all h ps2 w).1), (run_all h ps2 w).2).
Proof.
  revert ps1 w. induction ps2 as [|p ps2 IH]; intros ps1 w Hall.
  { simpl. by rewrite app_nil_r. }
  apply Forall_cons in Hall as [Hp Hall]. unfold in_turn.
  cbn [length seq fmap list_fmap mjoin list_join run_all].
  rewrite (run_pool_turns h k (length ps1) _ _ w p);
    [|by apply list_lookup_middle|done].
  destruct (run h p w) as [[res w1] t].
  rewrite insert_app_r_alt, Nat.sub_diag by done. cbn [insert list_insert].
  specialize (IH (ps1 ++ [ended res]) w1 Hall).
  rewrite length_app, Nat.add_1_r, <- !app_assoc in IH. unfold in_turn in IH.
  cbn [app] in IH.
  destruct (run_pool h _ (ps1 ++ ended res :: ps2) w1) as [[ps' w'] g].
  destruct (run_all h ps2 w1) as [rs w2]. simpl in *.
  by injection IH as -> ->.
Qed.

End in_turn.

(** The results of programs that have ended. *)
Lemma results_ended (rs : list (result string)) :
  results (ended <$> rs) <$> seq 0 (length rs) = rs.
Proof.
  apply list_eq. intros i. rewrite list_lookup_fmap.
  destruct (decide (i < length rs)%nat) as [Hi|Hi].
  - rewrite lookup_seq_lt by done. unfold results. simpl.
    rewrite list_lookup_fmap.
    destruct (lookup_lt_is_Some_2 rs i Hi) as [r Hr]. rewrite Hr.
    by destruct r.
  - rewrite lookup_seq_ge, lookup_ge_None_2 by lia. done.
Qed.

(** ** Theorems: pools of runs under any schedule *)

Section pool.
Context {L : LucidLib} {LL : LucidLaws L} (D : Deployment).
Context (orders : nat → Order).
Implicit Types (w : World) (s : State) (sched : list nat) (n : nat).

Lemma programs_lookup n i :
  (i < n)%nat →
  programs D orders (seq 0 n) !! i = Some (createShip_of D (orders i)).
Proof.
  intros Hi. unfold programs.
  by rewrite list_lookup_fmap, lookup_seq_lt.
Qed.

(** The execution of a pool of runs is a global execution of them. *)
Lemma pool_run_by n sched w ps' w' g :
  run_pool node sched (programs D orders (seq 0 n)) w = (ps', w', g) →
  Forall (λ p, finished p = true) ps' →
  serves node w g.*2 w' ∧ run_by D orders (results ps') g.
Proof.
  intros Hrun Hfin. split.
  { pose proof (run_pool_serves node sched (programs D orders (seq 0 n)) w) as H.
    by rewrite Hrun in H. }
  intros i Hi.
  pose proof (run_pool_tags node sched (programs D orders (seq 0 n)) w i) as Hlt.
  rewrite Hrun in Hlt. apply Hlt, lookup_lt_is_Some in Hi.
  unfold programs in Hi. rewrite length_fmap, length_seq in Hi.
  destruct (run_pool_follows node sched _ w i _ (programs_lookup n i Hi))
    as (p' & Hp' & Hf).
  rewrite Hrun in Hp', Hf. simpl in Hp', Hf.
  rewrite Forall_forall in Hfin.
  destruct (finished_outcome p') as [r Hr];
    [by eapply Hfin, list_elem_of_lookup_2|].
  apply (follows_runs _ _ p'); [done|]. unfold results.
  by rewrite Hp'; simpl; rewrite Hr.
Qed.

(** C12: a pool of runs of [createShip] against one node, under any
    schedule.  When the runs have all ended, the chain holds the state
    after the steps of the runs that won, and it is the chain these
    runs leave when they run alone, one after the other, each
    returning what it returned in the pool. *)
Theorem pool_serializable n sched w s ps' w' g :
  represents D w s →
  run_pool node sched (programs D orders (seq 0 n)) w = (ps', w', g) →
  Forall (λ p, finished p = true) ps' →
  represents D w' (after_runs orders (winners g) s)
  ∧ run_all node (programs D orders (winners g)) w
    = (results ps' <$> winners g, w').
Proof.
  intros Hrep Hrun Hfin.
  destruct (pool_run_by n sched w ps' w' g Hrun Hfin) as [Hs Hby].
  by destruct (interleaved_inv D orders (results ps') g [] w s w')
    as (? & ? & _).
Qed.

(** Ten turns each end every run of the pool. *)
Lemma pool_finished n sched w :
  (∀ i, (i < n)%nat → (10 ≤ turns i sched)%nat) →
  Forall (λ p, finished p = true)
    (run_pool node sched (programs D orders (seq 0 n)) w).1.1.
Proof.
  intros Hfair. apply Forall_lookup. intros i p' Hp'.
  assert (i < n)%nat as Hi.
  { apply lookup_lt_Some in Hp'. rewrite run_pool_length in Hp'.
    unfold programs in Hp'. by rewrite length_fmap, length_seq in Hp'. }
  destruct (run_pool_finished node sched _ w i _ (programs_lookup n i Hi))
    as (q & Hq & Hf); [|congruence].
  apply (ends_within_mono 10); [by apply Hfair|].
  unfold createShip_of. exact (createShip_ends_within _ _ _ _ _ _ _).
Qed.

(** C16: every run of a pool ends.  Under a schedule that gives each of
    the [n] runs ten turns, in any order and with any number of turns
    lost in between, every run has returned or thrown: no run waits
    for another. *)
Theorem pool_terminates n sched w :
  (∀ i, (i < n)%nat → (10 ≤ turns i sched)%nat) →
  Forall (λ p, finished p = true)
    (run_pool node sched (programs D orders (seq 0 n)) w).1.1.
Proof. exact (pool_finished n sched w). Qed.

(** The runs one after the other, each with its own order: every run
    is a step. *)
Lemma run_all_steps n i w s :
  represents D w s →
  (∀ j : nat, (j < n)%nat → mintable D (counter s + Z.of_nat j) = true) →
  ∃ w',
    run_all node (programs D orders (seq i n)) w
    = ((λ j, Ok (tx_id j)) <$> seq (height w) n, w')
    ∧ represents D w' (after_runs orders (seq i n) s).
Proof.
  revert i w s. induction n as [|n IH]; intros i w s Hrep Hm; [by exists w|].
  destruct (createShip_step D (o_fee (orders i)) (o_fuel (orders i))
              (o_x (orders i)) (o_y (orders i)) w s Hrep)
    as (tx & t & Hrun & Hrep').
  { rewrite <- (Z.add_0_r (counter s)). apply (Hm 0%nat). lia. }
  destruct (IH (S i) _ _ Hrep') as (w' & Hall & Hrep'').
  { intros j Hj. simpl. rewrite <- Z.add_assoc, <- (Nat2Z.inj_add 1).
    apply Hm. lia. }
  exists w'. split; [|done]. unfold programs, createShip_of in *.
  cbn [seq fmap list_fmap run_all]. rewrite Hrun. simpl in Hall.
  by rewrite Hall.
Qed.

(** C18: without contention no run loses.  A pool of [n] runs of
    [createShip] in which each run is given its ten turns in a row,
    from a chain that holds a state with the next [n] ships mintable:
    every run returns, with [n] consecutive transaction identifiers,
    and the chain ends holding the state after the steps of all of
    them, in their order. *)
Theorem pool_in_turn n w s :
  represents D w s →
  (∀ j : nat, (j < n)%nat → mintable D (counter s + Z.of_nat j) = true) →
  ∃ ps' w' g,
    run_pool node (in_turn 10 0 n) (programs D orders (seq 0 n)) w
    = (ps', w', g)
    ∧ represents D w' (after_runs orders (seq 0 n) s)
    ∧ results ps' <$> seq 0 n = (λ j, Ok (tx_id j)) <$> seq (height w) n.
Proof.
  intros Hrep Hm.
  destruct (run_all_steps n 0 w s Hrep Hm) as (w' & Hall & Hrep').
  assert (Forall (ends_within 10) (programs D orders (seq 0 n))) as Hends.
  { apply Forall_fmap, Forall_forall. intros i _. unfold createShip_of.
    exact (createShip_ends_within _ _ _ _ _ _ _). }
  pose proof (run_pool_in_turn node 10 [] _ w Hends) as H.
  unfold programs in H at 1. rewrite length_fmap, length_seq, Hall in H.
  cbn [length app fst snd] in H.
  destruct (run_pool node (in_turn 10 0 n) (programs D orders (seq 0 n)) w)
    as [[ps' w''] g].
  simpl in H. injection H as -> ->. eexists _, w', g. split_and!; [done..|].
  pose proof (results_ended ((λ j, Ok (tx_id j)) <$> seq (height w) n)) as Hr.
  by rewrite length_fmap, length_seq in Hr.
Qed.

(** A run of the pool that has ended has made a call. *)
Lemma pool_called n sched w i :
  (i < n)%nat →
  Forall (λ p, finished p = true)
    (run_pool node sched (programs D orders (seq 0 n)) w).1.1 →
  i ∈ (run_pool node sched (programs D orders (seq 0 n)) w).2.*1.
Proof.
  intros Hi Hfin.
  destruct (run_pool_follows node sched _ w i _ (programs_lookup n i Hi))
    as (p' & Hp' & Hf).
  destruct (decide (i ∈ (run_pool node sched
                           (programs D orders (seq 0 n)) w).2.*1))
    as [|Hnot]; [done|].
  rewrite (thread_notin _ _ Hnot) in Hf. apply follows_nil in Hf as ->.
  rewrite Forall_lookup in Hfin. by apply Hfin in Hp'.
Qed.

(** The calls of a pool of [n] runs are calls of these runs. *)
Lemma pool_tags n sched w i :
  i ∈ (run_pool node sched (programs D orders (seq 0 n)) w).2.*1 →
  (i < n)%nat.
Proof.
  intros Hi%run_pool_tags%lookup_lt_is_Some. unfold programs in Hi.
  by rewrite length_fmap, length_seq in Hi.
Qed.

(** C9: a pool of [n] runs of [createShip] from a chain that holds a
    state, with the next [n] ships mintable, under any schedule that
    gives every run ten turns: some run wins; the chain ends holding
    the state after the steps of the winners; every winner has
    returned, and every other run has failed with the node's rejection
    of its [submit] for spent inputs. *)
Theorem pool_outcome n sched w s ps' w' g :
  represents D w s →
  (∀ k : nat, (k ≤ n)%nat → mintable D (counter s + Z.of_nat k) = true) →
  (0 < n)%nat → (∀ i, (i < n)%nat → (10 ≤ turns i sched)%nat) →
  run_pool node sched (programs D orders (seq 0 n)) w = (ps', w', g) →
  winners g ≠ []
  ∧ represents D w' (after_runs orders (winners g) s)
  ∧ ∀ i, (i < n)%nat →
      if bool_decide (i ∈ winners g) then is_ok (results ps' i) = true
      else results ps' i = Err bad_inputs.
Proof.
  intros Hrep Hm Hn Hfair Hrun.
  pose proof (pool_finished n sched w Hfair) as Hfin.
  pose proof (λ i, pool_called n sched w i) as Hcalled.
  pose proof (pool_tags n sched w) as Htags.
  rewrite Hrun in Hfin, Hcalled, Htags. simpl in Hfin, Hcalled, Htags.
  destruct (pool_run_by n sched w ps' w' g Hrun Hfin) as [Hs Hby].
  destruct (interleaved_inv D orders (results ps') g [] w s w')
    as (Hrep' & _); [done..|].
  destruct (winner_iff_returned D orders (results ps') g Hby) as [Hnd Hiff].
  pose proof (winners_length g n Hnd Htags) as Hlen.
  split_and!; [|done|].
  - apply (winners_nonempty D orders (results ps') g w s w'); [done| |done..|].
    + rewrite <- (Z.add_0_r (counter s)). apply (Hm 0%nat). lia.
    + intros ->. by apply (Hcalled 0%nat Hn), elem_of_nil in Hfin.
  - intros i Hi%Hcalled; [|done]. case_bool_decide as Hw; [by apply Hiff|].
    destruct (results ps' i) as [h|e] eqn:E.
    { exfalso. apply Hw, Hiff; [done|]. by rewrite E. }
    f_equal. apply (loser_rejected D orders (results ps') g w s w' i e);
      [done| |done..].
    intros m Hm'. replace m with (counter s + Z.of_nat (Z.to_nat (m - counter s)))
      by lia. apply Hm. lia.
Qed.

End pool.
