(* ===== verification/System.v ===== *)
(** * System: the invocations and the chain as a transition system

    [Interleave] speaks of executions in which every run has ended.
    This file speaks of every moment of every execution.  A
    configuration is the chain and the runs of [createShip] that were
    started, each with the order it was started for and what is left of
    its program; a step starts a run ([step_start]) or lets one run
    make its next call and receive the node's answer ([step_turn]).  A
    run that is never given another turn is a process that was killed
    between two of its awaits.

    [steps] is the relation, [fire] and [run_system] are the function
    that executes a list of actions, and the two agree
    ([system_executable]); the pool of [Pool] is the system in which
    the runs are all started first ([run_system_pool]).

    The theorems: whatever was started and however far each run got,
    the chain holds the state after the orders whose submission the node
    accepted, in the order it accepted them ([system_refines]), so every
    step of the system is a step of the protocol or leaves its state as
    it is; between two moments the state changes by the orders accepted
    in between and the counter grows by their number
    ([counter_monotone]); a pool stopped at any point has left the chain
    in the state after its winners ([pool_at_any_moment]); no
    execution has more than ten calls for each run ([calls_bounded]);
    and every configuration that is reached can be run to its end
    ([system_terminates]). *)

From stdpp Require Import base tactics numbers option list strings gmap.
From stdpp Require Import relations.
From Stdlib Require Import ZArith Lia.
From S2P Require Import Prelude Lucid Types Utils CreateShip Chain Pool Asteria.
From S2P Require Import Interleave.

#[local] Open Scope Z_scope.

(** ** Definitions *)

(** The runs that were started, each with its order and the rest of its
    program, and the chain. *)
Record Config := { runs_of : list (Order * prog string); chain : World }.

(** Runs that have not made a call yet. *)
Definition fresh {L : LucidLib} (D : Deployment) (os : list Order)
    : list (Order * prog string) :=
  (λ o, (o, createShip_of D o)) <$> os.

Definition initial (w : World) : Config := {| runs_of := []; chain := w |}.

(** What a step shows: a run started for an order, or run [i], started
    for [o], made the call [c]. *)
Inductive label := Start (o : Order) | Turn (i : nat) (o : Order) (c : call).

Inductive step {L : LucidLib} (D : Deployment)
    : Config → label → Config → Prop :=
| step_start rs w o :
    step D {| runs_of := rs; chain := w |} (Start o)
      {| runs_of := rs ++ fresh D [o]; chain := w |}
| step_turn rs w i o r k :
    rs !! i = Some (o, Vis r k) →
    step D {| runs_of := rs; chain := w |} (Turn i o (Call r (node r w).1))
      {| runs_of := <[i := (o, k (node r w).1)]> rs; chain := (node r w).2 |}.

Inductive steps {L : LucidLib} (D : Deployment)
    : Config → list label → Config → Prop :=
| steps_nil c : steps D c [] c
| steps_snoc c ls c' l c'' :
    steps D c ls c' → step D c' l c'' → steps D c (ls ++ [l]) c''.

(** What decides a step: an order arrives, or run [i] has its turn. *)
Inductive action := Begin (o : Order) | Next (i : nat).

(** One action.  A turn given to a run that is not there or has ended
    is lost. *)
Definition fire {L : LucidLib} (D : Deployment) (a : action) (c : Config)
    : Config * list label :=
  match a with
  | Begin o =>
      ({| runs_of := runs_of c ++ fresh D [o]; chain := chain c |}, [Start o])
  | Next i =>
      match runs_of c !! i with
      | Some (o, Vis r k) =>
          ({| runs_of := <[i := (o, k (node r (chain c)).1)]> (runs_of c);
              chain := (node r (chain c)).2 |},
           [Turn i o (Call r (node r (chain c)).1)])
      | _ => (c, [])
      end
  end.

Fixpoint run_system {L : LucidLib} (D : Deployment) (acts : list action)
    (c : Config) : Config * list label :=
  match acts with
  | [] => (c, [])
  | a :: acts =>
      let r := fire D a c in
      let r' := run_system D acts r.1 in
      (r'.1, r.2 ++ r'.2)
  end.

(** The calls of an execution, each with the run that made it. *)
Definition event_of (l : label) : option event :=
  match l with Start _ => None | Turn i _ c => Some (i, c) end.

Definition events (ls : list label) : list event := omap event_of ls.

(** The orders whose submission the node accepted, in the order it
    accepted them. *)
Definition accepted_of (l : label) : option Order :=
  match l with
  | Turn _ o c => if submitted c then Some o else None
  | Start _ => None
  end.

Definition accepted (ls : list label) : list Order := omap accepted_of ls.

(** The state of the protocol after the orders [os], and its steps. *)
Definition state_after (os : list Order) (s : State) : State :=
  foldl (λ s o, create_of o s) s os.

Inductive protocol_step : State → State → Prop :=
| protocol_create o s : protocol_step s (create_of o s).

(** The calls [g] were served by the node, each in a chain that held a
    state and from which the chain [w] evolved. *)
Definition history {L : LucidLib} (D : Deployment) (w : World)
    (g : list event) : Prop :=
  ∃ past, past.*1 = g ∧ Forall (past_ok D w) past.

(** What is known of the runs after the steps [ls]: run [i] is what is
    left of [createShip] for its order after the calls it made, and
    only the runs that were started made calls. *)
Record tracked {L : LucidLib} (D : Deployment) (ls : list label)
    (c : Config) : Prop := {
  tr_runs i o p :
    runs_of c !! i = Some (o, p) →
    follows (createShip_of D o) (thread i (events ls)) p;
  tr_tags i : i ∈ (events ls).*1 → (i < length (runs_of c))%nat;
}.

(** The invariant of the system that started in a chain that held
    [s0]. *)
Record Inv {L : LucidLib} (D : Deployment) (s0 : State) (ls : list label)
    (c : Config) : Prop := {
  inv_rep : represents D (chain c) (state_after (accepted ls) s0);
  inv_past : history D (chain c) (events ls);
  inv_tracked : tracked D ls c;
}.

(** ** Theorems: labels and states of the protocol *)

Lemma events_app ls ls' : events (ls ++ ls') = events ls ++ events ls'.
Proof. apply omap_app. Qed.

Lemma accepted_app ls ls' :
  accepted (ls ++ ls') = accepted ls ++ accepted ls'.
Proof. apply omap_app. Qed.

Lemma events_turn i o c : events [Turn i o c] = [(i, c)].
Proof. done. Qed.

Lemma events_cons i o c ls :
  events (Turn i o c :: ls) = (i, c) :: events ls.
Proof. done. Qed.

Lemma accepted_cons l ls : accepted (l :: ls) = accepted [l] ++ accepted ls.
Proof. apply (accepted_app [l]). Qed.

Lemma accepted_turn i o c :
  accepted [Turn i o c] = if submitted c then [o] else [].
Proof. unfold accepted. simpl. by destruct (submitted c). Qed.

Lemma state_after_app os os' s :
  state_after (os ++ os') s = state_after os' (state_after os s).
Proof. apply foldl_app. Qed.

Lemma state_after_counter os s :
  counter (state_after os s) = counter s + Z.of_nat (length os).
Proof.
  revert s. induction os as [|o os IH]; intros s; simpl; [lia|].
  rewrite IH. simpl. lia.
Qed.

Lemma state_after_protocol os s : rtc protocol_step s (state_after os s).
Proof.
  revert s. induction os as [|o os IH]; intros s; [done|].
  eapply rtc_l; [constructor|apply IH].
Qed.

Lemma state_after_orders (orders : nat → Order) ids s :
  state_after (orders <$> ids) s = after_runs orders ids s.
Proof.
  revert s. induction ids as [|i ids IH]; intros s; simpl; [done|apply IH].
Qed.

Lemma state_after_numbered os s : numbered s → numbered (state_after os s).
Proof.
  revert s. induction os as [|o os IH]; intros s Hs; [done|].
  by apply IH, create_numbered.
Qed.

(** The orders of the runs [ids] of a pool started for [orders]. *)
Lemma omap_orders (orders : nat → Order) n ids :
  Forall (λ i, i < n)%nat ids →
  omap (λ i, (orders <$> seq 0 n) !! i) ids = orders <$> ids.
Proof.
  induction 1 as [|i ids Hi _ IH]; [done|]. cbn [omap list_omap fmap list_fmap].
  by rewrite list_lookup_fmap, lookup_seq_lt, IH.
Qed.

(** ** Theorems: the relation and the function *)

Section steps.
Context {L : LucidLib} (D : Deployment).
Implicit Types (c : Config) (ls : list label) (acts : list action).

Lemma steps_app c ls c' ls' c'' :
  steps D c ls c' → steps D c' ls' c'' → steps D c (ls ++ ls') c''.
Proof.
  intros H. induction 1 as [|c' ls' c1 l c2 Hs IH Hl]; [by rewrite app_nil_r|].
  rewrite app_assoc. by eapply steps_snoc; [apply IH|].
Qed.

Lemma steps_one c l c' : step D c l c' → steps D c [l] c'.
Proof. intros Hl. by apply (steps_snoc D c [] c); [constructor|]. Qed.

Lemma fire_steps a c : steps D c (fire D a c).2 (fire D a c).1.
Proof.
  destruct c as [rs w], a as [o|i]; cbn [fire runs_of chain].
  { apply steps_one, step_start. }
  destruct (rs !! i) as [[o [?|?|r k]]|] eqn:Hi; cbn [fst snd];
    [constructor..| |constructor].
  by apply steps_one, step_turn.
Qed.

Lemma run_system_steps acts c :
  steps D c (run_system D acts c).2 (run_system D acts c).1.
Proof.
  revert c. induction acts as [|a acts IH]; intros c; [constructor|].
  cbn [run_system fst snd]. eapply steps_app; [apply fire_steps|apply IH].
Qed.

Lemma run_system_app acts acts' c :
  run_system D (acts ++ acts') c
  = ((run_system D acts' (run_system D acts c).1).1,
     (run_system D acts c).2 ++ (run_system D acts' (run_system D acts c).1).2).
Proof.
  revert c. induction acts as [|a acts IH]; intros c;
    cbn [app run_system fst snd].
  { by destruct (run_system D acts' c). }
  rewrite IH. cbn [fst snd]. by rewrite app_assoc.
Qed.

Lemma step_fire c l c' : step D c l c' → ∃ a, fire D a c = (c', [l]).
Proof.
  intros [rs w o|rs w i o r k Hi]; [by exists (Begin o)|].
  exists (Next i). cbn [fire runs_of chain]. by rewrite Hi.
Qed.

Lemma steps_run_system c ls c' :
  steps D c ls c' → ∃ acts, run_system D acts c = (c', ls).
Proof.
  induction 1 as [|c ls c' l c'' _ [acts IH] Hl]; [by exists []|].
  destruct (step_fire _ _ _ Hl) as [a Ha]. exists (acts ++ [a]).
  rewrite run_system_app, IH. cbn [fst snd run_system]. rewrite Ha.
  cbn [fst snd]. by rewrite app_nil_r.
Qed.

(** The step relation and the function that executes a list of
    actions describe the same executions.  The labels [ls] lead from
    [c] to [c'] exactly when some list of actions, each an order that
    arrives or a turn of one run, makes [run_system] go from [c] to
    [c'] showing [ls]. *)
Theorem system_executable c ls c' :
  steps D c ls c' ↔ ∃ acts, run_system D acts c = (c', ls).
Proof.
  split; [apply steps_run_system|]. intros [acts E].
  pose proof (run_system_steps acts c) as H. by rewrite E in H.
Qed.

End steps.

(** ** Theorems: the invariant *)

Section system.
Context {L : LucidLib} {LL : LucidLaws L} (D : Deployment).
Implicit Types (c : Config) (s : State) (w : World) (ls : list label)
  (rs : list (Order * prog string)).

Lemma tracked_fresh os w :
  tracked D [] {| runs_of := fresh D os; chain := w |}.
Proof.
  split; cbn [runs_of events omap].
  - intros i o p (o' & [= -> ->] & _)%list_lookup_fmap_Some.
    apply follows_refl.
  - by intros i ?%elem_of_nil.
Qed.

(** What is known of the runs is kept by every step. *)
Lemma tracked_step ls c l c' :
  tracked D ls c → step D c l c' → tracked D (ls ++ [l]) c'.
Proof.
  intros [Hruns Htags] Hstep.
  destruct Hstep as [rs w o|rs w i o r k Hi]; cbn [runs_of] in *.
  - split; cbn [runs_of]; rewrite events_app, app_nil_r.
    + intros j o' p [[Hj Hp] | [-> [= -> <-]]]%lookup_snoc_Some;
        [by apply Hruns|].
      rewrite thread_notin; [apply follows_refl|]. intros Hin%Htags. lia.
    + intros j Hj%Htags. rewrite length_app. simpl. lia.
  - split; cbn [runs_of]; rewrite events_app.
    + intros j o' p [(<- & [= <- <-] & _) | [Hne Hj]]%list_lookup_insert_Some.
      * rewrite thread_app, events_turn, thread_cons.
        pose proof (follows_advance node _ _ _ w (Hruns i o _ Hi)) as Hf.
        by rewrite advance_Vis in Hf.
      * rewrite thread_app, events_turn, thread_cons_ne, app_nil_r by done.
        by apply Hruns.
    + rewrite length_insert, fmap_app.
      intros j [Hj | ->%list_elem_of_singleton]%elem_of_app; [by apply Htags|].
      by eapply lookup_lt_Some.
Qed.

Lemma tracked_steps ls0 c0 ls c :
  tracked D ls0 c0 → steps D c0 ls c → tracked D (ls0 ++ ls) c.
Proof.
  intros H0. induction 1 as [|c0 ls c l c' Hs IH Hl]; [by rewrite app_nil_r|].
  rewrite app_assoc. eapply tracked_step; [by apply IH|done].
Qed.

(** A turn leaves the chain as it is, or makes a step of the protocol:
    the run that submits has read the state the chain holds, whatever
    it made of its calls before and whatever the others did. *)
Lemma turn_state w s g i o r k :
  represents D w s → history D w g →
  follows (createShip_of D o) (thread i g) (Vis r k) →
  represents D (node r w).2
    (state_after (accepted [Turn i o (Call r (node r w).1)]) s)
  ∧ history D (node r w).2 (g ++ [(i, Call r (node r w).1)]).
Proof.
  intros Hrep (past & <- & Hpast) Hf. rewrite accepted_turn.
  assert (evolves w (node r w).2 →
    history D (node r w).2 (past.*1 ++ [(i, Call r (node r w).1)])) as Hh.
  { intros Hev. exists (past ++ [((i, Call r (node r w).1), w)]).
    split; [by rewrite fmap_app|]. by eapply past_ok_snoc. }
  destruct (submitted (Call r (node r w).1)) eqn:Hsub.
  - apply (follows_advance node _ _ _ w) in Hf. rewrite advance_Vis in Hf.
    cbn [fst snd] in Hf.
    apply follows_completes in Hf as (post & res & Hr).
    rewrite <- app_assoc in Hr.
    destruct (accepted_step D o i past w s r _ post res Hrep Hpast Hr
                eq_refl Hsub) as (Hrep' & Hev & _).
    by split; [|apply Hh].
  - rewrite (node_quiet r _ w eq_refl Hsub) in *. by split; [|apply Hh].
Qed.

Lemma inv_fresh os w s :
  represents D w s → Inv D s [] {| runs_of := fresh D os; chain := w |}.
Proof. intros. by split; [|exists []|apply tracked_fresh]. Qed.

Lemma inv_step s0 ls c l c' :
  Inv D s0 ls c → step D c l c' → Inv D s0 (ls ++ [l]) c'.
Proof.
  intros [Hrep Hpast Htr] Hstep.
  pose proof (tracked_step ls c l c' Htr Hstep) as Htr'.
  destruct Hstep as [rs w o|rs w i o r k Hi]; cbn [chain runs_of] in *.
  - split; cbn [chain]; rewrite ?accepted_app, ?events_app, ?app_nil_r; done.
  - destruct (turn_state w _ _ i o r k Hrep Hpast (tr_runs _ _ _ Htr _ _ _ Hi)).
    split; cbn [chain]; rewrite ?accepted_app, ?state_after_app, ?events_app;
      done.
Qed.

Lemma inv_steps s0 ls0 c0 ls c :
  Inv D s0 ls0 c0 → steps D c0 ls c → Inv D s0 (ls0 ++ ls) c.
Proof.
  intros H0. induction 1 as [|c0 ls c l c' Hs IH Hl]; [by rewrite app_nil_r|].
  rewrite app_assoc. eapply inv_step; [by apply IH|done].
Qed.

(** One step of the system is at most one step of the protocol. *)
Lemma step_simulates s0 ls c l c' :
  Inv D s0 ls c → step D c l c' →
  let s := state_after (accepted ls) s0 in
  let s' := state_after (accepted (ls ++ [l])) s0 in
  (s' = s ∨ protocol_step s s') ∧ represents D (chain c') s'.
Proof.
  intros HI Hl. split; [|by destruct (inv_step s0 ls c l c' HI Hl)].
  rewrite accepted_app, state_after_app.
  destruct l as [o|i o y]; [by left|]. rewrite accepted_turn.
  destruct (submitted y); [right; constructor|by left].
Qed.

(** C7: the system refines the protocol.  Start in a chain that holds
    [s0]; let orders arrive and let the runs of [createShip] started
    for them make their calls in any order, each as far as it gets.
    At every moment the chain holds the state reached from [s0] by the
    [create] steps of the orders whose submission the node accepted, in
    the order it accepted them, and that state is reached from [s0] by
    steps of the protocol: a run that has not submitted, or never
    will, has changed nothing. *)
Theorem system_refines w0 s0 ls c :
  represents D w0 s0 → steps D (initial w0) ls c →
  represents D (chain c) (state_after (accepted ls) s0)
  ∧ rtc protocol_step s0 (state_after (accepted ls) s0).
Proof.
  intros Hrep Hs. split; [|apply state_after_protocol].
  by destruct (inv_steps s0 [] _ ls c (inv_fresh [] w0 s0 Hrep) Hs).
Qed.

(** C8: the counter never goes back.  Between two moments of an
    execution, the state the chain holds changes by the [create] steps
    of the orders accepted in between, and by nothing else: the counter
    grows by their number, and ships numbered apart stay numbered
    apart. *)
Theorem counter_monotone w0 s0 ls c ls' c' s s' :
  represents D w0 s0 → steps D (initial w0) ls c → steps D c ls' c' →
  represents D (chain c) s → represents D (chain c') s' →
  s' = state_after (accepted ls') s
  ∧ counter s' = counter s + Z.of_nat (length (accepted ls'))
  ∧ (numbered s → numbered s').
Proof.
  intros H0 Hs Hs' Hrep Hrep'.
  pose proof (inv_fresh [] w0 s0 H0) as HI.
  destruct (inv_steps s0 [] _ ls c HI Hs) as [Hc _ _].
  destruct (inv_steps s0 [] _ _ c' HI (steps_app D _ _ _ _ _ Hs Hs'))
    as [Hc' _ _].
  cbn [app] in Hc, Hc'. rewrite accepted_app, state_after_app in Hc'.
  rewrite <- (represents_unique D _ _ _ Hrep Hc) in Hc'.
  rewrite (represents_unique D _ _ _ Hrep' Hc').
  split_and!; [done|apply state_after_counter|apply state_after_numbered].
Qed.

(** C17: no execution has more than ten calls for each run that was
    started, whatever the node answers and in whatever order the runs
    take their turns: a schedule that keeps giving turns ends every
    run. *)
Theorem calls_bounded w ls c :
  steps D (initial w) ls c →
  (length (events ls) ≤ 10 * length (runs_of c))%nat.
Proof.
  intros Hs.
  destruct (tracked_steps [] _ ls c (tracked_fresh [] w) Hs) as [Hruns Htags].
  cbn [app] in *. apply threads_length; [done|].
  intros i [[o p] Hi]%lookup_lt_is_Some.
  eapply follows_length; [|by eapply Hruns].
  unfold createShip_of. exact (createShip_ends_within _ _ _ _ _ _ _).
Qed.

End system.

(** ** Theorems: the pool is the system with its runs started *)

Section pool.
Context {L : LucidLib} {LL : LucidLaws L} (D : Deployment).
Implicit Types (w : World) (s : State) (sched : list nat)
  (rs : list (Order * prog string)).

(** The pool of [Pool] under a schedule is the system under the turns
    of the schedule; the orders accepted are those of the winners. *)
Lemma run_system_pool sched rs w :
  let r := run_system D (Next <$> sched) {| runs_of := rs; chain := w |} in
  run_pool node sched rs.*2 w = ((runs_of r.1).*2, chain r.1, events r.2)
  ∧ accepted r.2 = omap (λ i, rs.*1 !! i) (winners (events r.2)).
Proof.
  revert rs w. induction sched as [|i sched IH]; intros rs w; [done|].
  cbn [fmap list_fmap run_system fire runs_of chain].
  destruct (rs !! i) as [[o p]|] eqn:Hi;
    [|cbn [run_pool]; rewrite list_lookup_fmap, Hi; apply IH].
  rewrite (run_pool_cons _ _ _ _ _ p) by (by rewrite list_lookup_fmap, Hi).
  destruct p as [a|e|r k].
  1,2: cbn [advance fst snd fmap list_fmap app];
    rewrite list_insert_id by (by rewrite list_lookup_fmap, Hi);
    destruct (IH rs w) as [-> ?]; by split.
  rewrite advance_Vis. cbn [fst snd fmap list_fmap app].
  destruct (IH (<[i := (o, k (node r w).1)]> rs) (node r w).2) as [E Ea].
  assert ((<[i := (o, k (node r w).1)]> rs).*1 = rs.*1) as E1.
  { rewrite list_fmap_insert. apply list_insert_id.
    by rewrite list_lookup_fmap, Hi. }
  rewrite list_fmap_insert in E. rewrite E1 in Ea. cbn [snd] in E.
  rewrite E. split; [done|].
  rewrite accepted_cons, events_cons, accepted_turn, Ea, winners_cons. destruct (submitted _); [|done].
  cbn [omap list_omap app]. by rewrite list_lookup_fmap, Hi.
Qed.

(** Every configuration the system reaches can be run to its end: under
    any schedule that gives each run that was started ten turns, in any
    order, every run has returned or thrown. *)
Lemma system_terminates w ls c sched :
  steps D (initial w) ls c →
  (∀ i, i < length (runs_of c) → 10 ≤ turns i sched)%nat →
  Forall (λ r, finished r.2 = true)
    (runs_of (run_system D (Next <$> sched) c).1).
Proof.
  intros Hs Hfair.
  destruct (tracked_steps D [] _ ls c (tracked_fresh D [] w) Hs) as [Hruns _].
  destruct c as [rs w']. cbn [runs_of] in *.
  destruct (run_system_pool sched rs w') as [E _].
  apply (Forall_fmap snd (λ p, finished p = true)).
  apply (f_equal (λ x, x.1.1)) in E. cbn [fst snd] in E. rewrite <- E.
  apply Forall_lookup. intros i p' Hp'.
  assert (is_Some (rs !! i)) as [[o p] Hi].
  { apply lookup_lt_is_Some. apply lookup_lt_Some in Hp'.
    by rewrite run_pool_length, length_fmap in Hp'. }
  destruct (run_pool_finished node sched rs.*2 w' i p) as (q & Hq & Hfin).
  - by rewrite list_lookup_fmap, Hi.
  - eapply ends_within_mono; [by eapply Hfair, lookup_lt_Some|].
    eapply ends_within_mono; [|eapply follows_ends_within; [|by eapply Hruns]].
    + apply Nat.le_sub_l.
    + unfold createShip_of. exact (createShip_ends_within _ _ _ _ _ _ _).
  - by rewrite Hq in Hp'; injection Hp' as <-.
Qed.

Lemma fresh_programs (orders : nat → Order) ids :
  (fresh D (orders <$> ids)).*2 = programs D orders ids.
Proof. unfold fresh, programs. by rewrite <- !list_fmap_compose. Qed.

Lemma fresh_orders os : (fresh D os).*1 = os.
Proof.
  unfold fresh. rewrite <- list_fmap_compose. apply list_fmap_id.
Qed.

(** C13: a pool stopped at any point.  Runs of [createShip] against one
    node under any schedule, some of them ended, some between two
    calls, some not begun: the chain holds the state after the steps of
    the runs whose submission was accepted.  A run that is killed, or
    never scheduled again, has left nothing behind unless it had
    submitted, and then it has left its whole step. *)
Theorem pool_at_any_moment (orders : nat → Order) n sched w s ps' w' g :
  represents D w s →
  run_pool node sched (programs D orders (seq 0 n)) w = (ps', w', g) →
  represents D w' (after_runs orders (winners g) s).
Proof.
  intros Hrep Hrun.
  pose proof (run_pool_tags node sched (programs D orders (seq 0 n)) w) as Ht.
  destruct (run_system_pool sched (fresh D (orders <$> seq 0 n)) w) as [E Ea].
  rewrite fresh_programs, Hrun in E. rewrite Hrun in Ht.
  injection E as E1 -> ->.
  rewrite fresh_orders, omap_orders in Ea.
  - rewrite <- state_after_orders, <- Ea.
    pose proof (inv_fresh D (orders <$> seq 0 n) w s Hrep) as HI.
    by destruct (inv_steps D s [] _ _ _ HI
                   (run_system_steps D (Next <$> sched) _)).
  - apply Forall_forall. intros i Hi%winners_subseteq%Ht%lookup_lt_is_Some.
    unfold programs in Hi. by rewrite length_fmap, length_seq in Hi.
Qed.

End pool.
