(* ===== verification/Scenario.v ===== *)
(** * Scenario: the builder run on a concrete chain

    The Asteria and Spacetime deployments on the chain of [Chain], with
    the counter at 5, and the runs of [createShip] and of the helpers of
    [utils.ts] against the node, with the reference library of
    [LucidRef]: one run, two runs one after the other, two runs that
    race for the same Asteria UTxO, the two as a pool under a
    schedule, the two started one after the other with one of them
    killed on its way, and the runs that fail.  Everything
    here computes: the examples are checked by evaluation, and the
    theorems of the other files are applied to these runs. *)

From stdpp Require Import base tactics numbers option list strings gmap pretty.
From Stdlib Require Import ZArith Lia.
From S2P Require Import Prelude Fuel Lucid Types Utils CreateShip Hex Cbor.
From S2P Require Import LucidRef Chain Pool Asteria Interleave System.

#[local] Open Scope Z_scope.

(** ** The deployment *)

Definition asteria_script : Script :=
  {| script_type := PlutusV2; script := "asteria validator" |}.

Definition spacetime_script : Script :=
  {| script_type := PlutusV2; script := "spacetime validator" |}.

Definition asteria_tx : string := toHex (pad 32 "asteria deployment").
Definition spacetime_tx : string := toHex (pad 32 "spacetime deployment").

Definition admin : AssetClassT :=
  {| policy := toHex (pad 28 "admin policy"); name := fromText "asteriaAdmin" |}.

Definition admin_unit : string := policy admin +:+ name admin.

Definition shipyard : string := mintingPolicyToId spacetime_script.

Definition plain (ref : OutRef) (addr : string) : UTxO :=
  {| outRef := ref; address := addr; assets := ∅; datumHash := None;
     datum := None; scriptRef := None |}.

Definition asteria_ref : UTxO :=
  {| outRef := ref_of asteria_tx; address := "addr_test1deployer";
     assets := {[ "lovelace" := 30000000 ]}; datumHash := None; datum := None;
     scriptRef := Some asteria_script |}.

Definition spacetime_ref : UTxO :=
  {| outRef := ref_of spacetime_tx; address := "addr_test1deployer";
     assets := {[ "lovelace" := 30000000 ]}; datumHash := None; datum := None;
     scriptRef := Some spacetime_script |}.

(** The Asteria state: the counter at 5, and 10 ada. *)
Definition state5 : AsteriaDatumT :=
  {| ship_counter := 5; shipyard_policy := shipyard |}.

Definition asteria5 : UTxO :=
  {| outRef := {| txHash := tx_id 41; outputIndex := 1 |};
     address := validatorToAddress asteria_script;
     assets := obj2 admin_unit 1 "lovelace" 10000000;
     datumHash := None;
     datum := Some (Data_to_as AsteriaDatum state5);
     scriptRef := None |}.

Definition env5 : gmap string string :=
  {[ "BLOCKFROST_PROJECT_ID" := "preprod-project";
     "SEED" := "abandon ability able" ]}.

(** The chain after 42 transactions, of which the last left [asteria5]. *)
Definition world5 : World :=
  {| env := env5; utxos := [asteria_ref; spacetime_ref; asteria5];
     height := 42; down := false |}.

(** A world without the seed, one where the Spacetime reference output
    carries no script, and one where the provider is down. *)
Definition world_no_seed : World :=
  {| env := {[ "BLOCKFROST_PROJECT_ID" := "preprod-project" ]};
     utxos := utxos world5; height := 42; down := false |}.

Definition bare_ref : UTxO := plain (ref_of spacetime_tx) "addr_test1deployer".

Definition world_no_script : World :=
  {| env := env5; utxos := [asteria_ref; bare_ref; asteria5];
     height := 42; down := false |}.

(** The Asteria UTxO with its datum lost, and the chain that has it. *)
Definition asteria_bare : UTxO :=
  {| outRef := outRef asteria5; address := address asteria5;
     assets := assets asteria5; datumHash := None; datum := None;
     scriptRef := None |}.

Definition world_no_datum : World :=
  {| env := env5; utxos := [asteria_ref; spacetime_ref; asteria_bare];
     height := 42; down := false |}.

Definition world_down : World :=
  {| env := env5; utxos := utxos world5; height := 42; down := true |}.

(** The deployment, and the state [world5] holds: the counter at 5, 10
    ada, no ship yet. *)
Definition deployment : Deployment :=
  {| d_asteriaTx := asteria_tx; d_spacetimeTx := spacetime_tx;
     d_asteria := asteria_script; d_spacetime := spacetime_script;
     d_admin := admin |}.

Definition asteria_state5 : State :=
  {| counter := 5; balance := 10000000; fleet := [] |}.

(** ** The run *)

(** [createShip] with a fee of 1 ada, 480 of fuel, at (20, -15). *)
Definition launch : prog string :=
  createShip asteria_tx spacetime_tx admin 1000000 480 20 (-15).

(** The units of ship 5, and the transaction that creates it. *)
Definition ship5 : string := shipyard +:+ fromText "SHIP5".
Definition pilot5 : string := shipyard +:+ fromText "PILOT5".

Definition tx5 : Tx :=
  ship_tx 1000000 480 20 (-15) asteria_ref spacetime_ref asteria5
    (validatorToAddress asteria_script) (validatorToAddress spacetime_script)
    10000000 state5 admin_unit ship5 pilot5.

Definition completed5 : TxComplete := {| tc_tx := tx5; tc_cbor := "" |}.

Definition signed5 : TxSigned :=
  {| ts_tx := completed5; ts_witnesses := ["abandon ability able"] |}.

Definition answers5 : Answers :=
  {| a_projectId := Some "preprod-project";
     a_seed := "abandon ability able";
     a_asteriaRef := asteria_ref; a_asteriaRef_more := [];
     a_asteriaScript := asteria_script;
     a_spacetimeRef := spacetime_ref; a_spacetimeRef_more := [];
     a_spacetimeScript := spacetime_script;
     a_asteria := asteria5; a_asteria_more := [];
     a_completed := completed5; a_signed := signed5;
     a_hash := tx_id 42 |}.

(** A second run that reads [world5]: a ship with 100 of fuel at the
    origin. *)
Definition tx5' : Tx :=
  ship_tx 1000000 100 0 0 asteria_ref spacetime_ref asteria5
    (validatorToAddress asteria_script) (validatorToAddress spacetime_script)
    10000000 state5 admin_unit ship5 pilot5.

Definition answers5' : Answers :=
  {| a_projectId := Some "preprod-project";
     a_seed := "abandon ability able";
     a_asteriaRef := asteria_ref; a_asteriaRef_more := [];
     a_asteriaScript := asteria_script;
     a_spacetimeRef := spacetime_ref; a_spacetimeRef_more := [];
     a_spacetimeScript := spacetime_script;
     a_asteria := asteria5; a_asteria_more := [];
     a_completed := {| tc_tx := tx5'; tc_cbor := "" |};
     a_signed := {| ts_tx := {| tc_tx := tx5'; tc_cbor := "" |};
                    ts_witnesses := ["abandon ability able"] |};
     a_hash := tx_id 42 |}.

(** The calls of the run in [world5], and of the three runs that fail. *)
Definition trace5 : list call := success_trace asteria_tx spacetime_tx answers5 tx5.

Definition trace_no_seed : list call :=
  no_seed_trace (Some "preprod-project") None.

Definition trace_no_script : list call :=
  take 5 trace5
  ++ [Call (UtxosByOutRef (lucid1 answers5) [ref_of spacetime_tx])
        (Ok [bare_ref])].

Definition trace_no_datum : list call :=
  take 6 trace5
  ++ [Call (UtxosAt (lucid1 answers5) (validatorToAddress asteria_script))
        (Ok [asteria_bare])].

Definition trace_down : list call :=
  take 1 trace5
  ++ [Call (LucidNew (provider (lucid0 answers5)) Preprod) (Err unavailable)].

(** The run that read [world5] and submitted after another run had
    spent the Asteria UTxO. *)
Definition trace_late : list call :=
  take 9 trace5 ++ [Call (Submit (lucid1 answers5) signed5) (Err bad_inputs)].

(** The second run of the race: it reads [world5], builds [tx5'], and
    its [submit] is rejected. *)
Definition trace_lost : list call :=
  read_phase asteria_tx spacetime_tx answers5' tx5'
  ++ [Call (Submit (lucid1 answers5') (a_signed answers5')) (Err bad_inputs)].

(** Two runs, their calls interleaved: run 0 makes four calls, run 1
    reads everything and signs, run 0 goes through, run 1 submits. *)
Definition orders5 (i : nat) : Order :=
  match i with
  | O => {| o_fee := 1000000; o_fuel := 480; o_x := 20; o_y := -15 |}
  | _ => {| o_fee := 1000000; o_fuel := 100; o_x := 0; o_y := 0 |}
  end.

Definition results5 (i : nat) : result string :=
  match i with O => Ok (tx_id 42) | _ => Err bad_inputs end.

Definition interleaving5 : list event :=
  (pair 0%nat <$> take 4 trace5)
  ++ (pair 1%nat <$> take 9 trace_lost)
  ++ (pair 0%nat <$> drop 4 trace5)
  ++ (pair 1%nat <$> drop 9 trace_lost).

(** The schedule of that interleaving: each run is given ten turns. *)
Definition sched5 : list nat :=
  replicate 4 0%nat ++ replicate 9 1%nat ++ replicate 6 0%nat ++ [1%nat].

(** The two runs as a pool, executed under [sched5] from [world5]. *)
Definition pool5 : list (prog string) * World * list event :=
  run_pool node sched5 (programs deployment orders5 (seq 0 2)) world5.

(** The same pool with the runs one after the other. *)
Definition pool_seq5 : list (prog string) * World * list event :=
  run_pool node (in_turn 10 0 2) (programs deployment orders5 (seq 0 2)) world5.

(** The pool stopped before the last turn of [sched5]: run 0 has
    ended, run 1 has signed and never submits. *)
Definition sched_cut : list nat :=
  replicate 4 0%nat ++ replicate 9 1%nat ++ replicate 6 0%nat.

Definition pool_cut5 : list (prog string) * World * list event :=
  run_pool node sched_cut (programs deployment orders5 (seq 0 2)) world5.

(** The system: an order arrives and its run goes as far as signing; a
    second order arrives and its run is given four turns, and no
    more. *)
Definition acts5 : list action :=
  [Begin (orders5 0)] ++ replicate 9 (Next 0%nat)
  ++ [Begin (orders5 1)] ++ replicate 4 (Next 1%nat).

Definition system5 : Config * list label :=
  run_system deployment acts5 (initial world5).

(** Then run 0 submits. *)
Definition system6 : Config * list label :=
  run_system deployment [Next 0%nat] system5.1.

(** The world after the run: the transaction is applied. *)
Definition world6 : World := after tx5 world5.

(** The state the transaction leaves at the Asteria address. *)
Definition state6 : AsteriaDatumT :=
  {| ship_counter := 6; shipyard_policy := shipyard |}.

(** The ship and the Asteria UTxO the transaction leaves, and the ship
    of a second run. *)
Definition ship_utxo5 : UTxO :=
  {| outRef := {| txHash := tx_id 42; outputIndex := 0 |};
     address := validatorToAddress spacetime_script;
     assets := obj2 ship5 1 "lovelace" 2000000;
     datumHash := None;
     datum := Some (shipDatum 480 20 (-15) state5);
     scriptRef := None |}.

Definition ship_utxo6 : UTxO :=
  {| outRef := {| txHash := tx_id 43; outputIndex := 0 |};
     address := validatorToAddress spacetime_script;
     assets := obj2 (shipyard +:+ fromText "SHIP6") 1 "lovelace" 2000000;
     datumHash := None;
     datum := Some (shipDatum 480 20 (-15) state6);
     scriptRef := None |}.

Definition asteria6 : UTxO :=
  {| outRef := {| txHash := tx_id 42; outputIndex := 1 |};
     address := validatorToAddress asteria_script;
     assets := obj2 admin_unit 1 "lovelace" 11000000;
     datumHash := None;
     datum := Some (asteriaOutputDatum state5);
     scriptRef := None |}.


(** ** Examples: the runs *)

(** The run in [world5] returns the identifier of the transaction, after
    the ten calls of [trace5], and leaves the transaction submitted. *)
Example run_world5 : run node launch world5 = (Ok (tx_id 42), world6, trace5).
Proof. compute_done. Qed.

Example utxos_world6 :
  utxos world6 = [asteria_ref; spacetime_ref; ship_utxo5; asteria6].
Proof. compute_done. Qed.

Example run_world_no_seed :
  run node launch world_no_seed
  = (Err missing_seed, world_no_seed, trace_no_seed).
Proof. compute_done. Qed.

Example run_world_no_script :
  run node launch world_no_script
  = (Err missing_validator, world_no_script, trace_no_script).
Proof. compute_done. Qed.

Example run_world_no_datum :
  run node launch world_no_datum
  = (Err missing_datum, world_no_datum, trace_no_datum).
Proof. compute_done. Qed.

Example run_world_down :
  run node launch world_down = (Err unavailable, world_down, trace_down).
Proof. compute_done. Qed.

(** Two runs one after the other create ships 5 and 6. *)
Example run_twice :
  (run_times node launch 2 world5).1 = [Ok (tx_id 42); Ok (tx_id 43)]
  ∧ (datum <$> at_address (validatorToAddress asteria_script)
                 (run_times node launch 2 world5).2)
    = [Some ("d8799f07581c" +:+ shipyard +:+ "ff")].
Proof. compute_done. Qed.

(** Two runs that race: both read [world5], the first to submit wins,
    and the node rejects the transaction of the other, which spends an
    output that is gone. *)
Example race :
  serves node world5 (take 9 trace5 ++ take 9 trace5) world5
  ∧ serves node world5 (drop 9 trace5) world6
  ∧ serves node world6 (drop 9 trace_late) world6.
Proof. compute_done. Qed.

(** The datum the spec's example starts from, and the two it ends with,
    byte for byte. *)
Example datum5 :
  Data_to_as AsteriaDatum state5 = "d8799f05581c" +:+ shipyard +:+ "ff".
Proof. compute_done. Qed.

Example outputs5 :
  tx_outputs tx5
  = [(validatorToAddress spacetime_script,
      inline_datum ("d8799f1901e0142e" +:+ "45" +:+ fromText "SHIP5"
                    +:+ "46" +:+ fromText "PILOT5" +:+ "ff"),
      obj2 ship5 1 "lovelace" 2000000);
     (validatorToAddress asteria_script,
      inline_datum ("d8799f06581c" +:+ shipyard +:+ "ff"),
      obj2 admin_unit 1 "lovelace" 11000000)].
Proof. compute_done. Qed.

(** ** The runs as executions *)

Lemma runs5 : runs launch trace5 (Ok (tx_id 42)).
Proof. compute_done. Qed.

Lemma runs_no_seed : runs launch trace_no_seed (Err missing_seed).
Proof. compute_done. Qed.

Lemma runs_no_script : runs launch trace_no_script (Err missing_validator).
Proof. compute_done. Qed.

Lemma runs_no_datum : runs launch trace_no_datum (Err missing_datum).
Proof. compute_done. Qed.

Lemma runs_down : runs launch trace_down (Err unavailable).
Proof. compute_done. Qed.

Lemma runs_late : runs launch trace_late (Err bad_inputs).
Proof. compute_done. Qed.

(** ** The chain holds the state *)

(** A transaction of a deployment is not one the node numbers. *)
Lemma deployment_tx_old (name : string) k : toHex (pad 32 name) ≠ tx_id k.
Proof.
  intros E. destruct name as [|a name]; [done|].
  apply (f_equal (λ s, match s with String c _ => Ascii.N_of_ascii c | _ => 0%N end))
    in E.
  cbn in E. pose proof (byte_lt_256 a).
  pose proof (hex_digit_lt_t (Ascii.N_of_ascii a / 16)) as H16.
  rewrite E in H16. apply N.lt_irrefl in H16; [done|].
  apply N.Div0.div_lt_upper_bound. lia.
Qed.

Lemma wf_world5 : wf world5.
Proof.
  split; [compute_done|]. intros u k Hu Hk. simpl in Hu, Hk.
  set_unfold in Hu. destruct_or!; subst u; simpl;
    [apply deployment_tx_old.. | intros E%tx_id_inj; lia].
Qed.

Lemma represents5 : represents deployment world5 asteria_state5.
Proof.
  split; [exact wf_world5 | done | by eexists | ..].
  - exists asteria_ref. split; [compute_done|]. split_and!; compute_done.
  - exists spacetime_ref. split; [compute_done|]. split_and!; compute_done.
  - exists asteria5. split; [compute_done|]. split; [done|].
    exists admin_unit. split; compute_done.
  - replace (at_address _ world5) with (@nil UTxO) by compute_done.
    apply Forall2_nil_2.
  - compute_done.
  - compute_done.
Qed.

(** ** The theorems at these runs *)

(** The run in [world5] is a step of the protocol, from the state with
    the counter at 5 to the one with ship 5 and the counter at 6. *)
Lemma createShip_refines_witness :
  ∃ w' t,
    run node launch world5 = (Ok (tx_id 42), w', t)
    ∧ represents deployment w' (create 1000000 480 20 (-15) asteria_state5).
Proof.
  apply (createShip_refines deployment 1000000 480 20 (-15) world5
           asteria_state5 represents5).
  by vm_compute.
Defined.

Lemma mintable5 (i : nat) :
  (i < 3)%nat → mintable deployment (counter asteria_state5 + Z.of_nat i) = true.
Proof. intros Hi. do 3 (destruct i as [|i]; [by vm_compute|]). lia. Qed.

(** Three runs create ships 5, 6 and 7: the counter ends at 8, with 13
    ada. *)
Lemma createShip_iterates_witness :
  ∃ w' u,
    run_times node launch 3 world5
    = ([Ok (tx_id 42); Ok (tx_id 43); Ok (tx_id 44)], w')
    ∧ at_address (validatorToAddress asteria_script) w' = [u]
    ∧ datum u = Some (Data_to_as AsteriaDatum (datum_at deployment 8))
    ∧ quantity "lovelace" (assets u) = 13000000
    ∧ length (at_address (validatorToAddress spacetime_script) w') = 3%nat.
Proof.
  exact (createShip_iterates deployment 1000000 480 20 (-15) 3 world5
           asteria_state5 represents5 mintable5).
Defined.

(** After two runs, ship 5 and ship 6 hold different tokens. *)
Lemma ships_distinct_witness :
  quantity ship5 (assets ship_utxo5) = 0
  ∨ quantity ship5 (assets ship_utxo6) = 0.
Proof.
  assert (numbered asteria_state5) by (split; [apply NoDup_nil_2 | done]).
  apply (ships_distinct deployment 1000000 480 20 (-15) 2 world5
           asteria_state5 0 1 ship_utxo5 ship_utxo6 ship5 represents5);
    [done | intros k Hk; apply mintable5; lia | compute_done..].
Defined.

(** Two runs that read [world5]: the first to submit creates ship 5, the
    other is rejected. *)
Lemma createShip_race_witness :
  node (Submit (lucid1 answers5) signed5) world5
  = (Ok (tx_id (height world5)), world6)
  ∧ node (Submit (lucid1 answers5') (a_signed answers5')) world6
    = (Err bad_inputs, world6).
Proof.
  apply (createShip_race asteria_tx spacetime_tx admin 1000000 480 20 (-15)
           asteria_tx spacetime_tx admin 1000000 100 0 0 answers5 tx5
           answers5' tx5' world5 wf_world5); compute_done.
Defined.

(** The interleaving is an execution of the node from [world5] to
    [world6], and of the two runs. *)
Lemma served5 : serves node world5 interleaving5.*2 world6.
Proof. compute_done. Qed.

Lemma run_by5 : run_by deployment orders5 results5 interleaving5.
Proof.
  intros i Hi. assert (i = 0 ∨ i = 1)%nat as [-> | ->];
    [|compute_done..].
  vm_compute in Hi. set_unfold in Hi. tauto.
Qed.

(** Whatever the order, the chain holds the state after the step of
    run 0, which won. *)
Lemma createShip_interleaved_witness :
  represents deployment world6
    (after_runs orders5 (winners interleaving5) asteria_state5).
Proof.
  exact (createShip_interleaved deployment orders5 results5 interleaving5
           world5 asteria_state5 world6 represents5 served5 run_by5).
Defined.

Lemma interleaved_counter_witness :
  ∃ u,
    at_address (validatorToAddress asteria_script) world6 = [u]
    ∧ datum u = Some (Data_to_as AsteriaDatum (datum_at deployment 6))
    ∧ quantity "lovelace" (assets u) = 11000000
    ∧ length (at_address (validatorToAddress spacetime_script) world6) = 1%nat.
Proof.
  exact (interleaved_counter deployment orders5 results5 interleaving5
           world5 asteria_state5 world6 represents5 served5 run_by5).
Defined.

(** Run 0 alone, from [world5], returns the same and leaves the same
    chain. *)
Lemma interleaving_serializable_witness :
  run_all node (programs deployment orders5 (winners interleaving5)) world5
  = (results5 <$> winners interleaving5, world6).
Proof.
  exact (interleaving_serializable deployment orders5 results5 interleaving5
           world5 asteria_state5 world6 represents5 served5 run_by5).
Defined.

(** The pool under [sched5] makes the calls of [interleaving5], and
    leaves [world6] with both runs ended. *)
Lemma run_pool5 :
  run_pool node sched5 (programs deployment orders5 (seq 0 2)) world5
  = (pool5.1.1, world6, interleaving5).
Proof.
  assert (pool5.1.2 = world6 ∧ pool5.2 = interleaving5) as [H1 H2]
    by (split; compute_done).
  fold pool5. destruct pool5 as [[ps w] g]. simpl in *. by subst.
Qed.

Lemma finished5 : Forall (λ p, finished p = true) pool5.1.1.
Proof. compute_done. Qed.

Example results_pool5 :
  results pool5.1.1 <$> [0; 1]%nat = [Ok (tx_id 42); Err bad_inputs].
Proof. compute_done. Qed.

(** Under the schedule that lets run 0 end before run 1 starts, both
    win: run 1 reads the chain run 0 left, and creates ship 6. *)
Example both_win :
  winners pool_seq5.2 = [0; 1]%nat
  ∧ results pool_seq5.1.1 <$> [0; 1]%nat = [Ok (tx_id 42); Ok (tx_id 43)]
  ∧ length (at_address (validatorToAddress spacetime_script) pool_seq5.1.2)
    = 2%nat.
Proof. split_and!; compute_done. Qed.

(** In turn, the two runs create ships 5 and 6. *)
Lemma pool_in_turn_witness :
  ∃ ps' w' g,
    run_pool node (in_turn 10 0 2) (programs deployment orders5 (seq 0 2))
      world5 = (ps', w', g)
    ∧ represents deployment w' (after_runs orders5 (seq 0 2) asteria_state5)
    ∧ results ps' <$> seq 0 2 = (λ j, Ok (tx_id j)) <$> seq (height world5) 2.
Proof.
  assert (Hm : ∀ j : nat, (j < 2)%nat →
            mintable deployment (counter asteria_state5 + Z.of_nat j) = true)
    by (intros j Hj; apply mintable5; lia).
  exact (pool_in_turn deployment orders5 2 world5 asteria_state5 represents5 Hm).
Defined.

(** The pool leaves the chain of run 0 alone, with the same results. *)
Lemma pool_serializable_witness :
  represents deployment world6
    (after_runs orders5 (winners interleaving5) asteria_state5)
  ∧ run_all node (programs deployment orders5 (winners interleaving5)) world5
    = (results pool5.1.1 <$> winners interleaving5, world6).
Proof.
  exact (pool_serializable deployment orders5 2 sched5 world5 asteria_state5
           pool5.1.1 world6 interleaving5 represents5 run_pool5 finished5).
Defined.

(** Run 1 of the pool that was stopped has not ended, and the chain is
    the one run 0 left. *)
Example run_pool_cut5 :
  finished <$> pool_cut5.1.1 = [true; false] ∧ winners pool_cut5.2 = [0%nat]
  ∧ pool_cut5.1.2 = world6.
Proof. split_and!; compute_done. Qed.

Lemma pool_at_any_moment_witness :
  represents deployment pool_cut5.1.2
    (after_runs orders5 (winners pool_cut5.2) asteria_state5).
Proof.
  apply (pool_at_any_moment deployment orders5 2 sched_cut world5
           asteria_state5 pool_cut5.1.1 pool_cut5.1.2 pool_cut5.2 represents5).
  unfold pool_cut5. by destruct (run_pool _ _ _ _) as [[??]?].
Defined.

(** The system before and after the submission of run 0: the chain is
    [world5], then [world6], and the one order accepted is that of run
    0.  Run 1 has made four calls and is still there. *)
Example run_system5 :
  chain system5.1 = world5 ∧ chain system6.1 = world6
  ∧ accepted system5.2 = [] ∧ accepted system6.2 = [orders5 0]
  ∧ length (events (system5.2 ++ system6.2)) = 14%nat
  ∧ finished <$> (runs_of system6.1).*2 = [true; false].
Proof. split_and!; compute_done. Qed.

Lemma steps5 : steps deployment (initial world5) system5.2 system5.1.
Proof. exact (run_system_steps deployment acts5 (initial world5)). Qed.

Lemma steps6 : steps deployment system5.1 system6.2 system6.1.
Proof. exact (run_system_steps deployment [Next 0%nat] system5.1). Qed.

Lemma system_refines_witness :
  represents deployment (chain system6.1)
    (state_after (accepted (system5.2 ++ system6.2)) asteria_state5)
  ∧ rtc protocol_step asteria_state5
      (state_after (accepted (system5.2 ++ system6.2)) asteria_state5).
Proof.
  exact (system_refines deployment world5 asteria_state5 _ _ represents5
           (steps_app deployment _ _ _ _ _ steps5 steps6)).
Defined.

(** The chain after the run holds the state with ship 5. *)
Lemma represents6 :
  represents deployment world6 (create 1000000 480 20 (-15) asteria_state5).
Proof.
  destruct (createShip_step deployment 1000000 480 20 (-15) world5
              asteria_state5 represents5) as (tx & t & Hrun & Hrep);
    [by vm_compute|].
  assert (run node launch world5
          = (Ok (tx_id (height world5)), after tx world5, t)) as Hrun'
    by exact Hrun.
  rewrite run_world5 in Hrun'.
  apply (f_equal (λ x, x.1.2)) in Hrun'. cbn [fst snd] in Hrun'.
  by rewrite Hrun'.
Qed.

(** From the moment before the submission of run 0 to the moment after,
    the counter goes from 5 to 6. *)
Lemma counter_monotone_witness :
  ∃ s', represents deployment (chain system6.1) s'
        ∧ s' = state_after (accepted system6.2) asteria_state5
        ∧ counter s' = 5 + Z.of_nat (length (accepted system6.2))
        ∧ (numbered asteria_state5 → numbered s').
Proof.
  destruct run_system5 as (E5 & E6 & _).
  assert (represents deployment (chain system5.1) asteria_state5) as H5
    by (rewrite E5; exact represents5).
  assert (represents deployment (chain system6.1)
            (create 1000000 480 20 (-15) asteria_state5)) as H6
    by (rewrite E6; exact represents6).
  eexists. split; [exact H6|].
  exact (counter_monotone deployment world5 asteria_state5 _ _ _ _ _ _
           represents5 steps5 steps6 H5 H6).
Defined.

(** The fourteen calls of the two runs are within the twenty that two
    runs can make. *)
Lemma calls_bounded_witness :
  (length (events (system5.2 ++ system6.2))
   ≤ 10 * length (runs_of system6.1))%nat.
Proof.
  exact (calls_bounded deployment world5 _ _
           (steps_app deployment _ _ _ _ _ steps5 steps6)).
Defined.

(** [sched5] gives each of the two runs ten turns. *)
Lemma fair5 (i : nat) : (i < 2)%nat → (10 ≤ turns i sched5)%nat.
Proof.
  intros Hi. assert (i = 0 ∨ i = 1)%nat as [-> | ->] by lia; compute_done.
Qed.

(** Under [sched5] both runs end. *)
Lemma pool_terminates_witness :
  Forall (λ p, finished p = true)
    (run_pool node sched5 (programs deployment orders5 (seq 0 2)) world5).1.1.
Proof.
  exact (pool_terminates deployment orders5 2 sched5 world5 fair5).
Defined.

(** The pool of the two runs: run 0 wins, run 1 is rejected. *)
Lemma pool_outcome_witness :
  winners interleaving5 ≠ []
  ∧ represents deployment world6
      (after_runs orders5 (winners interleaving5) asteria_state5)
  ∧ ∀ i, (i < 2)%nat →
      if bool_decide (i ∈ winners interleaving5)
      then is_ok (results pool5.1.1 i) = true
      else results pool5.1.1 i = Err bad_inputs.
Proof.
  assert (Hm : ∀ k : nat, (k ≤ 2)%nat →
            mintable deployment (counter asteria_state5 + Z.of_nat k) = true)
    by (intros k Hk; apply mintable5; lia).
  assert (Hn : (0 < 2)%nat) by lia.
  exact (pool_outcome deployment orders5 2 sched5 world5 asteria_state5
           pool5.1.1 world6 interleaving5 represents5 Hm Hn fair5 run_pool5).
Defined.

(** Of the two runs, one won. *)
Lemma some_run_wins_witness :
  interleaving5 ≠ [] ∧ winners interleaving5 ≠ [].
Proof.
  assert (Hm : mintable deployment (counter asteria_state5) = true)
    by compute_done.
  assert (Hg : interleaving5 ≠ []) by done.
  split; [exact Hg|].
  exact (some_run_wins deployment orders5 results5 interleaving5 world5
           asteria_state5 world6 represents5 Hm served5 run_by5 Hg).
Defined.

(** Run 1 lost to the double spend. *)
Lemma losers_double_spend_witness :
  (1%nat ∈ interleaving5.*1 ∧ results5 1 = Err bad_inputs)
  ∧ bad_inputs = bad_inputs.
Proof.
  assert (Hi : 1%nat ∈ interleaving5.*1) by compute_done.
  assert (Hm : ∀ n, counter asteria_state5 ≤ n
                    ≤ counter asteria_state5
                      + Z.of_nat (length (winners interleaving5)) →
                    mintable deployment n = true).
  { assert (counter asteria_state5
            + Z.of_nat (length (winners interleaving5)) = 6) as ->
      by compute_done.
    intros n Hn. assert (n = 5 ∨ n = 6) as [-> | ->]; [|compute_done..].
    change (counter asteria_state5) with 5 in Hn. lia. }
  split; [by split|].
  exact (losers_double_spend deployment orders5 results5 interleaving5 world5
           asteria_state5 world6 1%nat bad_inputs represents5 Hm served5
           run_by5 Hi eq_refl).
Defined.

(** Run 1 lost: it is not among the winners, and it failed. *)
Lemma winners_returned_witness :
  NoDup (winners interleaving5)
  ∧ (1%nat ∈ winners interleaving5 ↔ is_ok (results5 1) = true).
Proof.
  destruct (winners_returned deployment orders5 results5 interleaving5 run_by5)
    as [Hnd Hiff].
  split; [exact Hnd | apply Hiff; compute_done].
Defined.

(** The run in [world5] applied its transaction. *)
Lemma createShip_atomic_witness :
  ∃ a tx,
    transition admin 1000000 480 20 (-15) a = Ok tx
    ∧ commits tx world5 (tx_id 42) world6.
Proof.
  exact (createShip_atomic asteria_tx spacetime_tx admin 1000000 480 20 (-15)
           world5 world6 (Ok (tx_id 42)) trace5 run_world5).
Defined.

(** The run in [world5] is one transition of the Asteria state, from the
    counter 5 to 6. *)
Lemma createShip_increments_counter_witness :
  runs launch trace5 (Ok (tx_id 42))
  ∧ ∃ a tx raw d lovelace ua datum v,
      trace5 = success_trace asteria_tx spacetime_tx a tx
      ∧ reads a raw d lovelace
      ∧ adminTokenUnit admin = Ok ua
      ∧ tx_inputs tx = [a_asteria a]
      ∧ tx_outputs tx !! 1%nat
        = Some (validatorToAddress (a_asteriaScript a), inline_datum datum, v)
      ∧ Data_from_as AsteriaDatum datum
        = Ok {| ship_counter := ship_counter d + 1;
                shipyard_policy := shipyard_policy d |}
      ∧ quantity ua v = 1
      ∧ quantity "lovelace" v = lovelace + 1000000
      ∧ ∀ u, u ≠ ua → u ≠ "lovelace" → quantity u v = 0.
Proof.
  split; [exact runs5|].
  exact (createShip_increments_counter asteria_tx spacetime_tx admin 1000000
           480 20 (-15) trace5 (tx_id 42) runs5).
Defined.

(** The run in [world5] takes three million lovelace from the wallet,
    and leaves it the pilot token. *)
Lemma createShip_value_flow_witness :
  runs launch trace5 (Ok (tx_id 42))
  ∧ ∃ a tx raw d lovelace ua us up,
      trace5 = success_trace asteria_tx spacetime_tx a tx
      ∧ reads a raw d lovelace
      ∧ adminTokenUnit admin = Ok ua
      ∧ shipTokenUnit d (mintingPolicyToId (a_spacetimeScript a)) = Ok us
      ∧ pilotTokenUnit d (mintingPolicyToId (a_spacetimeScript a)) = Ok up
      ∧ tx_surplus "lovelace" tx = - (2000000 + 1000000)
      ∧ (ua ≠ us → ua ≠ up →
         tx_surplus up tx = quantity up (assets (a_asteria a)) + 1
         ∧ tx_surplus us tx = quantity us (assets (a_asteria a))
         ∧ tx_surplus ua tx = quantity ua (assets (a_asteria a)) - 1
         ∧ ∀ u, u ≠ "lovelace" → u ≠ ua → u ≠ us → u ≠ up →
             tx_surplus u tx = quantity u (assets (a_asteria a))).
Proof.
  split; [exact runs5|].
  exact (createShip_value_flow asteria_tx spacetime_tx admin 1000000
           480 20 (-15) trace5 (tx_id 42) runs5).
Defined.

Example surplus5 :
  tx_surplus "lovelace" tx5 = -3000000 ∧ tx_surplus pilot5 tx5 = 1
  ∧ tx_surplus ship5 tx5 = 0 ∧ well_formed tx5 = true.
Proof. split_and!; compute_done. Qed.

(** Its transaction is well formed: ten million lovelace and the fee. *)
Lemma createShip_well_formed_witness :
  runs launch trace5 (Ok (tx_id 42))
  ∧ ∃ a tx lovelace,
      trace5 = success_trace asteria_tx spacetime_tx a tx
      ∧ assets (a_asteria a) !! "lovelace" = Some lovelace
      ∧ (well_formed tx = true ↔ 0 < lovelace + 1000000).
Proof.
  split; [exact runs5|].
  exact (createShip_well_formed asteria_tx spacetime_tx admin 1000000
           480 20 (-15) trace5 (tx_id 42) runs5).
Defined.

(** The datum of [world5] and the datums written from it. *)
Lemma datums_roundtrip_witness :
  Data_from_as AsteriaDatum (Data_to_as AsteriaDatum state5) = Ok state5
  ∧ Data_from_as AsteriaDatum (asteriaOutputDatum state5)
    = Ok (asteriaInfo state5)
  ∧ Data_from_as ShipDatum (shipDatum 480 20 (-15) state5)
    = Ok (shipInfo 480 20 (-15) state5)
  ∧ asteriaOutputDatum state5 ≠ Data_to_as AsteriaDatum state5.
Proof.
  assert (H : Data_from_as AsteriaDatum (Data_to_as AsteriaDatum state5)
              = Ok state5) by compute_done.
  split; [exact H|]. exact (datums_roundtrip 480 20 (-15) _ state5 H).
Defined.

Lemma createShip_mints_witness :
  runs launch trace5 (Ok (tx_id 42))
  ∧ ∃ a tx raw d lovelace us up,
      trace5 = success_trace asteria_tx spacetime_tx a tx
      ∧ reads a raw d lovelace
      ∧ toUnit (mintingPolicyToId (a_spacetimeScript a))
          (fromText ("SHIP" +:+ pretty (ship_counter d))) = Ok us
      ∧ toUnit (mintingPolicyToId (a_spacetimeScript a))
          (fromText ("PILOT" +:+ pretty (ship_counter d))) = Ok up
      ∧ tx_minted us tx = 1 ∧ tx_minted up tx = 1
      ∧ ∀ u, u ≠ us → u ≠ up → tx_minted u tx = 0.
Proof.
  split; [exact runs5|].
  exact (createShip_mints asteria_tx spacetime_tx admin 1000000 480 20 (-15)
           trace5 (tx_id 42) runs5).
Defined.

Lemma createShip_ship_output_witness :
  runs launch trace5 (Ok (tx_id 42))
  ∧ ∃ a tx raw d lovelace us datum v,
      trace5 = success_trace asteria_tx spacetime_tx a tx
      ∧ reads a raw d lovelace
      ∧ shipTokenUnit d (mintingPolicyToId (a_spacetimeScript a)) = Ok us
      ∧ tx_outputs tx !! 0%nat
        = Some (validatorToAddress (a_spacetimeScript a), inline_datum datum, v)
      ∧ Data_from_as ShipDatum datum
        = Ok {| fuel := 480; pos_x := 20; pos_y := -15;
                ship_token_name := fromText ("SHIP" +:+ pretty (ship_counter d));
                pilot_token_name :=
                  fromText ("PILOT" +:+ pretty (ship_counter d)) |}
      ∧ quantity us v = 1 ∧ quantity "lovelace" v = 2000000
      ∧ ∀ u, u ≠ us → u ≠ "lovelace" → quantity u v = 0.
Proof.
  split; [exact runs5|].
  exact (createShip_ship_output asteria_tx spacetime_tx admin 1000000 480 20
           (-15) trace5 (tx_id 42) runs5).
Defined.

(** The units of ships 5 and 6 are four different units. *)
Lemma ship_tokens_unique_witness :
  ship_counter state5 ≠ ship_counter state6
  ∧ NoDup [ship5; pilot5; shipyard +:+ fromText "SHIP6";
           shipyard +:+ fromText "PILOT6"].
Proof.
  split; [done|].
  apply (ship_tokens_unique state5 state6 shipyard shipyard); by vm_compute.
Defined.

(** Without the seed the run stops after three calls. *)
Lemma missing_seed_aborts_witness :
  runs launch trace_no_seed (Err missing_seed)
  ∧ ("SEED", None) ∈ env_reads trace_no_seed
  ∧ @Err string missing_seed = Err missing_seed
  ∧ ∃ pid, trace_no_seed = no_seed_trace pid None.
Proof.
  assert (("SEED", None) ∈ env_reads trace_no_seed) by compute_done.
  split_and!; [exact runs_no_seed | done |..];
    by apply (missing_seed_aborts asteria_tx spacetime_tx admin 1000000 480 20
                (-15) trace_no_seed (Err missing_seed) None runs_no_seed).
Defined.

(** The run that finds the Spacetime reference without its script stops
    at that lookup, its sixth call. *)
Lemma missing_script_aborts_witness :
  (runs launch trace_no_script (Err missing_validator)
   ∧ ([ref_of spacetime_tx], [bare_ref]) ∈ ref_lookups trace_no_script
   ∧ scriptRef bare_ref = None)
  ∧ @Err string missing_validator = Err missing_validator
  ∧ last (ref_lookups trace_no_script) = Some ([ref_of spacetime_tx], [bare_ref])
  ∧ (∃ l, last (requests trace_no_script)
          = Some (UtxosByOutRef l [ref_of spacetime_tx]))
  ∧ (5 ≤ length trace_no_script ≤ 6)%nat
  ∧ existsb on_transaction (requests trace_no_script) = false.
Proof.
  assert (Hin : ([ref_of spacetime_tx], [bare_ref]) ∈ ref_lookups trace_no_script)
    by compute_done.
  split; [by split_and!; [exact runs_no_script|..]|].
  exact (missing_script_aborts asteria_tx spacetime_tx admin 1000000 480 20
           (-15) trace_no_script (Err missing_validator) [ref_of spacetime_tx]
           bare_ref [] runs_no_script Hin eq_refl).
Defined.

(** The run that finds the Asteria UTxO without its datum stops at
    that lookup, its seventh call. *)
Lemma missing_datum_aborts_witness :
  (runs launch trace_no_datum (Err missing_datum)
   ∧ (validatorToAddress asteria_script, [asteria_bare])
     ∈ address_lookups trace_no_datum
   ∧ falsy (datum asteria_bare) = true)
  ∧ @Err string missing_datum = Err missing_datum
  ∧ (∃ l, last (requests trace_no_datum)
          = Some (UtxosAt l (validatorToAddress asteria_script)))
  ∧ length trace_no_datum = 7%nat
  ∧ existsb on_transaction (requests trace_no_datum) = false.
Proof.
  assert (Hin : (validatorToAddress asteria_script, [asteria_bare])
                ∈ address_lookups trace_no_datum) by compute_done.
  split; [by split_and!; [exact runs_no_datum|..]|].
  exact (missing_datum_aborts asteria_tx spacetime_tx admin 1000000 480 20
           (-15) trace_no_datum (Err missing_datum) _ asteria_bare []
           runs_no_datum Hin eq_refl).
Defined.

(** The provider's rejection is the outcome of the run. *)
Lemma rejection_propagates_witness :
  runs launch trace_down (Err unavailable)
  ∧ unavailable ∈ rejections trace_down
  ∧ @Err string unavailable = Err unavailable.
Proof.
  assert (unavailable ∈ rejections trace_down) by compute_done.
  split_and!; [exact runs_down | done |].
  exact (rejection_propagates asteria_tx spacetime_tx admin 1000000 480 20
           (-15) trace_down (Err unavailable) unavailable runs_down H).
Defined.

(** The run that finds no script submits nothing. *)
Lemma submits_iff_returns_witness :
  runs launch trace_no_script (Err missing_validator)
  ∧ (existsb submitted trace_no_script = true
     ↔ is_ok (@Err string missing_validator) = true).
Proof.
  split; [exact runs_no_script|].
  exact (submits_iff_returns asteria_tx spacetime_tx admin 1000000 480 20
           (-15) trace_no_script (Err missing_validator) runs_no_script).
Defined.

(** It fails with one of the exceptions of the builder. *)
Lemma createShip_errors_witness :
  runs launch trace_no_script (Err missing_validator)
  ∧ rejections trace_no_script = []
  ∧ (missing_validator ∈ own_errors
     ∨ (∃ raw, Data_from_as AsteriaDatum raw = Err missing_validator)
     ∨ (∃ policy name, toUnit policy name = Err missing_validator)).
Proof.
  split_and!; [exact runs_no_script | done |].
  exact (createShip_errors asteria_tx spacetime_tx admin 1000000 480 20 (-15)
           trace_no_script missing_validator runs_no_script eq_refl).
Defined.

Lemma createShip_calls_witness :
  runs launch trace5 (Ok (tx_id 42)) ∧ (length trace5 ≤ 10)%nat.
Proof.
  split; [exact runs5|].
  exact (createShip_calls asteria_tx spacetime_tx admin 1000000 480 20 (-15)
           trace5 (Ok (tx_id 42)) runs5).
Defined.


(** From (0, 0) to (20, -15) through (7, 7), at 3 of fuel per step. *)
Lemma trip_fuel_detour_witness :
  0 ≤ 3
  ∧ trip_fuel (0, 0) (20, -15) 3
    ≤ trip_fuel (0, 0) (7, 7) 3 + trip_fuel (7, 7) (20, -15) 3.
Proof.
  split; [lia|]. apply (trip_fuel_detour (0, 0) (7, 7) (20, -15) 3). lia.
Defined.

Lemma required_fuel_neg_witness :
  0 < distance 20 (-15) ∧ -3 < 0 ∧ required_fuel (distance 20 (-15)) (-3) < 0.
Proof.
  assert (0 < distance 20 (-15)) by done.
  split_and!; [done | lia |]. by apply required_fuel_neg.
Defined.

(** The datum that leaves [world5] at the Asteria address. *)
Lemma asteriaOutputDatum_ref_witness :
  shipyard_policy state5
  = bytes_hex (String.list_ascii_of_string (pad 28 (script spacetime_script)))
  ∧ asteriaOutputDatum state5 = "d8799f06581c" +:+ shipyard +:+ "ff".
Proof.
  split; [by vm_compute|].
  rewrite (asteriaOutputDatum_ref state5
             (String.list_ascii_of_string (pad 28 (script spacetime_script))));
    [by vm_compute | by vm_compute | vm_compute; lia].
Defined.
